(** * Authentication core of the personal-website backend

    A shallow embedding of the authentication subsystem of the Go program:
    the brute-force protector (package [middleware]), the Argon2id password
    helper (package [util], in its two copies), the JWT manager with secret
    rotation (package [middleware]), the login service (package [service])
    together with its Telegram notifier, the password change, and the HTTP
    handlers that chain them (packages [middleware], [controller],
    [router]).

    Conventions.  A Go [string] is a [string] of 8-bit characters; a
    [[]byte] is a [list byte]; a [time.Time] is the number of nanoseconds
    elapsed since the zero [time.Time]; a [time.Duration] is a signed 64-bit
    number of nanoseconds.  The reading of [time.Now()] and the draw of
    [rand.Read] are explicit arguments of the function that performs them;
    a function that reads the clock several times in a row gets one
    reading.  Mutexes are not modelled: every operation below runs under
    the lock of its component, so it is one atomic state transformer.
    Functions of third-party libraries that cannot be written out (the
    Argon2 key derivation, HMAC, the JSON form of a token, the RFC 1123
    form of a time) are variables of a section. *)

From Stdlib Require Import ZArith NArith String Ascii List Lia DecimalString.
From Stdlib.Strings Require Import Byte.
From stdpp Require Import base numbers strings gmap list.

Local Open Scope Z_scope.

(** ** The pieces of the Go runtime and standard library the code uses *)

Module Go.

(** Signed 64-bit wrap-around of [int], [int64] and [time.Duration]. *)
Definition wrap64 (z : Z) : Z := (z + 2 ^ 63) mod 2 ^ 64 - 2 ^ 63.

Abbreviation Time := Z (only parsing).
Abbreviation Duration := Z (only parsing).

Definition zeroTime : Time := 0.
Definition Nanosecond : Duration := 1.
Definition Second : Duration := 1000000000.
Definition Hour : Duration := 3600 * Second.

Definition minDuration : Duration := - 2 ^ 63.
Definition maxDuration : Duration := 2 ^ 63 - 1.

(** [t.After(u)], [t.Before(u)], [t.Add(d)]. *)
Definition After (t u : Time) : bool := u <? t.
Definition Before (t u : Time) : bool := t <? u.
Definition Add (t : Time) (d : Duration) : Time := t + d.

(** [t.Sub(u)]: the difference, saturated to the range of [Duration]. *)
Definition Sub (t u : Time) : Duration :=
  Z.max minDuration (Z.min maxDuration (t - u)).

(** [d * k] on [time.Duration]. *)
Definition mulDuration (d : Duration) (k : Z) : Duration := wrap64 (d * k).

(** *** Outcomes of a Go call

    A call returns its value, returns a non-nil [error] (kept as its
    message), or panics. *)

Inductive result (A : Type) : Type :=
| Ok (a : A)
| Err (err : string)
| Panic (msg : string).
Arguments Ok {A} a.
Arguments Err {A} err.
Arguments Panic {A} msg.

#[export] Instance result_bind : MBind result := λ A B k r,
  match r with
  | Ok a => k a
  | Err e => Err e
  | Panic m => Panic m
  end.

(** crypto/rand: what [rand.Read] leaves in the buffer it is given, the
    bytes drawn or the error of the random source. *)
Inductive drawn :=
| Bytes (buf : list byte)
| ReadError (err : string).

(** [[]byte(s)] *)
Definition bytes (s : string) : list byte := list_byte_of_string s.

(** [parts[i]] on a slice: out of range is a run-time panic. *)
Definition index (parts : list string) (i : nat) : result string :=
  match parts !! i with
  | Some p => Ok p
  | None => Panic "index out of range"
  end.

(** *** strings.Split with a one-byte separator *)

Fixpoint Split (s : string) (sep : ascii) : list string :=
  match s with
  | EmptyString => [EmptyString]
  | String c s' =>
      if Ascii.eqb c sep then EmptyString :: Split s' sep
      else match Split s' sep with
           | part :: parts => String c part :: parts
           | [] => [String c EmptyString]
           end
  end.

(** [strings.Count] of a one-byte separator. *)
Fixpoint Count (s : string) (sep : ascii) : nat :=
  match s with
  | EmptyString => O
  | String c s' => if Ascii.eqb c sep then S (Count s' sep) else Count s' sep
  end.

(** No character of [s] is the separator [sep]. *)
Definition free (sep : ascii) (s : string) : Prop :=
  ∀ i, String.get i s ≠ Some sep.

(** *** encoding/base64, RawStdEncoding (no padding, not strict) *)

Definition encodeStd : string :=
  "ABCDEFGHIJKLMNOPQRSTUVWXYZabcdefghijklmnopqrstuvwxyz0123456789+/".

(** [enc.encode[i]] *)
Definition encode (i : N) : ascii :=
  match String.get (N.to_nat i) encodeStd with
  | Some c => c
  | None => "A"%char
  end.

Fixpoint indexByte (s : string) (c : ascii) (i : N) : option N :=
  match s with
  | EmptyString => None
  | String d s' => if Ascii.eqb d c then Some i else indexByte s' c (N.succ i)
  end.

(** [enc.decodeMap[c]]: [None] stands for the entry 0xff. *)
Definition decodeMap (c : ascii) : option N := indexByte encodeStd c 0.

(** The conversion [byte(n)]: the low eight bits. *)
Definition byteOf (n : N) : byte :=
  match Byte.of_N (n mod 256) with
  | Some b => b
  | None => x00
  end.

Fixpoint EncodeToString (src : list byte) : string :=
  match src with
  | b0 :: b1 :: b2 :: rest =>
      let val := N.lor (N.lor (N.shiftl (Byte.to_N b0) 16)
                              (N.shiftl (Byte.to_N b1) 8)) (Byte.to_N b2) in
      String (encode (N.land (N.shiftr val 18) 63))
        (String (encode (N.land (N.shiftr val 12) 63))
           (String (encode (N.land (N.shiftr val 6) 63))
              (String (encode (N.land val 63)) (EncodeToString rest))))
  | [b0; b1] =>
      let val := N.lor (N.shiftl (Byte.to_N b0) 16) (N.shiftl (Byte.to_N b1) 8) in
      String (encode (N.land (N.shiftr val 18) 63))
        (String (encode (N.land (N.shiftr val 12) 63))
           (String (encode (N.land (N.shiftr val 6) 63)) EmptyString))
  | [b0] =>
      let val := N.shiftl (Byte.to_N b0) 16 in
      String (encode (N.land (N.shiftr val 18) 63))
        (String (encode (N.land (N.shiftr val 12) 63)) EmptyString)
  | [] => EmptyString
  end.

(** The decoder drops carriage returns and line feeds, looks every other
    character up in [decodeMap] and fails on the first one that is not in
    the alphabet. *)
Fixpoint sextets (s : string) : option (list N) :=
  match s with
  | EmptyString => Some []
  | String c s' =>
      match decodeMap c with
      | Some d => ds ← sextets s'; Some (d :: ds)
      | None =>
          if Ascii.eqb c "010" || Ascii.eqb c "013" then sextets s' else None
      end
  end.

(** Four sextets give three bytes; a final group of three gives two bytes
    and one of two gives one byte (the unused low bits are not checked);
    a final group of one sextet is corrupt input. *)
Fixpoint decodeQuanta (ds : list N) : option (list byte) :=
  match ds with
  | d0 :: d1 :: d2 :: d3 :: rest =>
      let val := N.lor (N.lor (N.lor (N.shiftl d0 18) (N.shiftl d1 12))
                              (N.shiftl d2 6)) d3 in
      bs ← decodeQuanta rest;
      Some (byteOf (N.shiftr val 16) :: byteOf (N.shiftr val 8) :: byteOf val :: bs)
  | [d0; d1; d2] =>
      let val := N.lor (N.lor (N.shiftl d0 18) (N.shiftl d1 12)) (N.shiftl d2 6) in
      Some [byteOf (N.shiftr val 16); byteOf (N.shiftr val 8)]
  | [d0; d1] =>
      let val := N.lor (N.shiftl d0 18) (N.shiftl d1 12) in
      Some [byteOf (N.shiftr val 16)]
  | [d0] => None
  | [] => Some []
  end.

(** [DecodeString]: [None] stands for a [CorruptInputError]. *)
Definition DecodeString (s : string) : option (list byte) :=
  ds ← sextets s; decodeQuanta ds.

(** *** crypto/subtle *)

(** [ConstantTimeByteEq(x, y)] is [int((uint32(x^y) - 1) >> 31)]. *)
Definition ConstantTimeByteEq (x y : N) : Z :=
  Z.shiftr ((Z.of_N (N.lxor x y) - 1) mod 2 ^ 32) 31.

(** The loop [v |= x[i] ^ y[i]] over two slices of one length. *)
Fixpoint orXor (v : N) (x y : list byte) : N :=
  match x, y with
  | a :: x', b :: y' => orXor (N.lor v (N.lxor (Byte.to_N a) (Byte.to_N b))) x' y'
  | _, _ => v
  end.

Definition ConstantTimeCompare (x y : list byte) : Z :=
  if negb (Nat.eqb (length x) (length y)) then 0
  else ConstantTimeByteEq (orXor 0 x y) 0.

(** *** crypto/hmac *)

(** The loop [pad[i] ^= c] over a block. *)
Definition xorBytes (c : N) (block : list byte) : list byte :=
  map (λ b, byteOf (N.lxor (Byte.to_N b) c)) block.

(** [hmac.New(h, key)], [Write(msg)] and [Sum(nil)] over the hash function
    [sum] of block size [blocksize]: a key longer than a block is hashed
    first; the key is copied into a block of zero bytes; the tag is the
    hash of that block xor 0x5c followed by the hash of that block xor
    0x36 followed by the message. *)
Definition hmacSum (sum : list byte → list byte) (blocksize : nat)
    (key msg : list byte) : list byte :=
  let key := if (blocksize <? length key)%nat then sum key else key in
  let block := take blocksize (key ++ replicate blocksize x00) in
  let ipad := xorBytes 54 block in
  let opad := xorBytes 92 block in
  sum (opad ++ sum (ipad ++ msg)).

(** *** fmt: the verb %d of Sprintf and of Sscanf *)

(** [Sprintf("%d", n)] for an unsigned [n]. *)
Definition formatUint (n : Z) : string :=
  NilZero.string_of_uint (N.to_uint (Z.to_N n)).

(** A literal of the format must be matched by the input byte for byte. *)
Fixpoint literal (lit s : string) : option string :=
  match lit with
  | EmptyString => Some s
  | String c lit' =>
      match s with
      | String d s' => if Ascii.eqb c d then literal lit' s' else None
      | EmptyString => None
      end
  end.

Definition oneOf (cs : list N) (c : ascii) : bool :=
  existsb (N.eqb (N_of_ascii c)) cs.

(** One space of the input, as [isSpace] of package fmt sees it on the
    UTF-8 bytes: U+0009, U+000B to U+000D, U+0020, U+0085, U+00A0, U+1680,
    U+2000 to U+200A, U+2028, U+2029, U+202F, U+205F and U+3000.  The line
    feed U+000A is not skipped: [Sscanf] reports it. *)
Definition dropSpace (s : string) : option string :=
  match s with
  | String c s1 =>
      if oneOf [9; 11; 12; 13; 32]%N c then Some s1
      else match s1 with
           | String c1 s2 =>
               if N.eqb (N_of_ascii c) 194 && oneOf [133; 160]%N c1 then Some s2
               else match s2 with
                    | String c2 s3 =>
                        let n := N_of_ascii c in
                        let n1 := N_of_ascii c1 in
                        let n2 := N_of_ascii c2 in
                        if (N.eqb n 225 && N.eqb n1 154 && N.eqb n2 128)
                           || (N.eqb n 226 && N.eqb n1 128
                               && ((N.leb 128 n2 && N.leb n2 138)
                                   || oneOf [168; 169; 175]%N c2))
                           || (N.eqb n 226 && N.eqb n1 129 && N.eqb n2 159)
                           || (N.eqb n 227 && N.eqb n1 128 && N.eqb n2 128)
                        then Some s3 else None
                    | EmptyString => None
                    end
           | EmptyString => None
           end
  | EmptyString => None
  end.

(** [SkipSpace] of a scan that does not treat newlines as space: [None]
    is the error "unexpected newline".  [fuel] bounds the input left. *)
Fixpoint SkipSpace (fuel : nat) (s : string) : option string :=
  match fuel with
  | O => Some s
  | S fuel' =>
      match s with
      | String c _ =>
          if N.eqb (N_of_ascii c) 10 then None
          else match dropSpace s with
               | Some s' => SkipSpace fuel' s'
               | None => Some s
               end
      | EmptyString => Some s
      end
  end.

Definition isDigit (c : ascii) : bool :=
  N.leb 48 (N_of_ascii c) && N.leb (N_of_ascii c) 57.

(** [scanNumber]: the longest prefix of digits and underscores. *)
Fixpoint scanNumber (s : string) : string * string :=
  match s with
  | String c s' =>
      if isDigit c || Ascii.eqb c "_" then
        let '(tok, rest) := scanNumber s' in (String c tok, rest)
      else (EmptyString, s)
  | EmptyString => (EmptyString, EmptyString)
  end.

(** [strconv.ParseUint(tok, 10, 64)] without the range check: base 10
    admits no underscore. *)
Fixpoint parseDigits (acc : Z) (tok : string) : option Z :=
  match tok with
  | String c tok' =>
      if isDigit c then parseDigits (acc * 10 + (Z.of_N (N_of_ascii c) - 48)) tok'
      else None
  | EmptyString => Some acc
  end.

(** [scanUint(%d, bitSize)]: spaces, then at least one digit; the value
    must fit 64 bits for [ParseUint] and [bitSize] bits for the operand. *)
Definition scanUint (bitSize : Z) (s : string) : option (Z * string) :=
  s ← SkipSpace (String.length s) s;
  let '(tok, rest) := scanNumber s in
  match tok with
  | EmptyString => None
  | _ =>
      v ← parseDigits 0 tok;
      if (v <? 2 ^ 64) && (v <? 2 ^ bitSize) then Some (v, rest) else None
  end.

(** [scanInt(%d, 64)]: spaces, an optional sign, then digits; the value
    must fit a signed 64-bit integer. *)
Definition scanInt (s : string) : option (Z * string) :=
  s ← SkipSpace (String.length s) s;
  let '(neg, s) :=
    match s with
    | String c s' =>
        if Ascii.eqb c "-" then (true, s')
        else if Ascii.eqb c "+" then (false, s') else (false, s)
    | EmptyString => (false, s)
    end in
  let '(tok, rest) := scanNumber s in
  match tok with
  | EmptyString => None
  | _ =>
      v ← parseDigits 0 tok;
      let v := if neg then - v else v in
      if (- 2 ^ 63 <=? v) && (v <? 2 ^ 63) then Some (v, rest) else None
  end.

(** [Sscanf(s, "v=%d", &version)]: input left after the last verb is not
    looked at. *)
Definition Sscanf_version (s : string) : option Z :=
  s ← literal "v=" s;
  '(version, _) ← scanInt s;
  Some version.

(** [Sscanf(s, "m=%d,t=%d,p=%d", &memory, &time, &threads)] into a
    [uint32], a [uint32] and a [uint8]. *)
Definition Sscanf_params (s : string) : option (Z * Z * Z) :=
  s ← literal "m=" s;
  '(memory, s) ← scanUint 32 s;
  s ← literal ",t=" s;
  '(time, s) ← scanUint 32 s;
  s ← literal ",p=" s;
  '(threads, _) ← scanUint 8 s;
  Some (memory, time, threads).

(** [Sprintf("%d", n)] for a signed [n]. *)
Definition formatInt (n : Z) : string :=
  if n <? 0 then "-" +:+ formatUint (- n) else formatUint n.

(** *** strings.HasPrefix, strings.TrimPrefix and slicing *)

Fixpoint HasPrefix (s prefix : string) {struct prefix} : bool :=
  match prefix with
  | EmptyString => true
  | String p prefix' =>
      match s with
      | String c s' => Ascii.eqb c p && HasPrefix s' prefix'
      | EmptyString => false
      end
  end.

(** [s[n:]] for [n] within the string. *)
Fixpoint sliceFrom (s : string) (n : nat) {struct n} : string :=
  match n, s with
  | S n', String _ s' => sliceFrom s' n'
  | _, _ => s
  end.

Definition TrimPrefix (s prefix : string) : string :=
  if HasPrefix s prefix then sliceFrom s (String.length prefix) else s.

(** [s[:n]]: a bound beyond the length is a run-time panic. *)
Definition sliceTo (s : string) (n : nat) : result string :=
  if (n <=? String.length s)%nat then Ok (String.substring 0 n s)
  else Panic "slice bounds out of range".

End Go.

(** ** Password hashing (package util) *)

Module Util.
Import Go.

(** Argon2 parameters *)
Definition argon2Time : Z := 1.
Definition argon2Memory : Z := 64 * 1024.
Definition argon2Threads : Z := 4.
Definition argon2KeyLen : Z := 32.
Definition saltLen : nat := 16.

Record argon2Params := mkParams {
  memory : Z;
  time : Z;
  threads : Z;
  keyLen : Z
}.

Definition decodeHash (encodedHash : string)
    : result (argon2Params * list byte * list byte) :=
  (* Check if hash format is correct *)
  let parts := Split encodedHash "$" in
  if negb (Nat.eqb (length parts) 6) then Err "invalid hash format" else
  p1 ← index parts 1;
  if negb (String.eqb p1 "argon2id") then Err "unsupported hash algorithm" else
  p2 ← index parts 2;
  match Sscanf_version p2 with
  | None => Err "invalid hash version"
  | Some version =>
  if negb (version =? 19) then Err "unsupported hash version" else
  (* Parse the parameters *)
  p3 ← index parts 3;
  match Sscanf_params p3 with
  | None => Err "invalid hash parameters"
  | Some (memory, time, threads) =>
  (* Decode the salt *)
  p4 ← index parts 4;
  match DecodeString p4 with
  | None => Err "invalid salt encoding"
  | Some salt =>
  (* Set the key length based on the decoded hash length *)
  p5 ← index parts 5;
  match DecodeString p5 with
  | None => Err "invalid hash encoding"
  | Some hash =>
  let keyLen := Z.of_nat (length hash) mod 2 ^ 32 in
  if keyLen =? 0 then Err "invalid key length" else
  Ok ({| memory := memory; time := time; threads := threads; keyLen := keyLen |},
      salt, hash)
  end end end end.

Section WithArgon2.

(** [argon2.IDKey(password, salt, time, memory, threads, keyLen)] of
    golang.org/x/crypto: a function of its arguments that has no [error]
    result; [None] stands for a call that panics on arguments the
    library refuses. *)
Variable IDKey : list byte → list byte → Z → Z → Z → Z → option (list byte).

Definition callIDKey (password salt : list byte) (time memory threads keyLen : Z)
    : result (list byte) :=
  match IDKey password salt time memory threads keyLen with
  | Some key => Ok key
  | None => Panic "argon2"
  end.

(** [rand] is the outcome of [rand.Read] on the [saltLen]-byte buffer. *)
Definition HashPassword (rand : drawn) (password : string) : result string :=
  (* Generate a random salt *)
  match rand with
  | ReadError err => Err err
  | Bytes salt =>
  (* Hash the password with Argon2id *)
  hash ← callIDKey (bytes password) salt
           argon2Time argon2Memory argon2Threads argon2KeyLen;
  (* Base64 encode the salt and hash for storage *)
  let saltBase64 := EncodeToString salt in
  let hashBase64 := EncodeToString hash in
  (* Format: $argon2id$v=19$m=memory,t=time,p=threads$salt$hash *)
  let encodedHash :=
    "$argon2id$v=19$m=" +:+ formatUint argon2Memory
      +:+ ",t=" +:+ formatUint argon2Time
      +:+ ",p=" +:+ formatUint argon2Threads
      +:+ "$" +:+ saltBase64 +:+ "$" +:+ hashBase64 in
  Ok encodedHash
  end.

Definition VerifyPassword (password encodedHash : string) : result bool :=
  (* Parse the hash string *)
  '(params, salt, hash) ← decodeHash encodedHash;
  (* Hash the provided password with the same parameters and salt *)
  otherHash ← callIDKey (bytes password) salt
                (time params) (memory params) (threads params) (keyLen params);
  (* Compare the computed hash with the stored hash *)
  let match_ := ConstantTimeCompare hash otherHash =? 1 in
  Ok match_.

End WithArgon2.

(** A stand-in key derivation used to run the definitions on examples:
    it returns [keyLen] bytes that depend on the password and the salt. *)
Definition toyIDKey (password salt : list byte) (time memory threads keyLen : Z)
    : option (list byte) :=
  Some (take (Z.to_nat keyLen) (password ++ salt ++ repeat x00 (Z.to_nat keyLen))).

(** The same, refusing like the library a number of passes or a degree of
    parallelism under one. *)
Definition strictIDKey (password salt : list byte) (time memory threads keyLen : Z)
    : option (list byte) :=
  if (time <? 1) || (threads <? 1) then None
  else toyIDKey password salt time memory threads keyLen.

Definition toySalt : list byte :=
  [x00; x01; x02; x03; x04; x05; x06; x07; x08; x09; x0a; x0b; x0c; x0d; x0e; xff].

End Util.

(** ** Brute-force protector (package middleware) *)

Module BruteForce.
Import Go.

Definition maxFailedAttempts : Z := 5.
Definition initialBlockDuration : Z := 30.
Definition blockMultiplier : Z := 2.
Definition maxBlockDuration : Z := 86400.
Definition cleanupInterval : Z := 3600.
Definition failedAttemptsTimeout : Z := 1800.

Record LoginAttempt := mkLoginAttempt {
  IP : string;
  Username : string;
  FailedAttempts : Z;
  LastFailedAt : Time;
  BlockedUntil : Time
}.

(** The two maps hold pointers to records allocated one per key, so no two
    keys share a record: a map of record values renders them. *)
Record BruteForceProtector := mkProtector {
  attempts : gmap string LoginAttempt;
  ipAttempts : gmap string LoginAttempt
}.

(** [GetBruteForceProtector]: the singleton starts with two empty maps. *)
Definition GetBruteForceProtector : BruteForceProtector :=
  {| attempts := ∅; ipAttempts := ∅ |}.

Definition setFailure (n : Z) (t : Time) (a : LoginAttempt) : LoginAttempt :=
  {| IP := IP a; Username := Username a;
     FailedAttempts := n; LastFailedAt := t;
     BlockedUntil := BlockedUntil a |}.

Definition setBlockedUntil (t : Time) (a : LoginAttempt) : LoginAttempt :=
  {| IP := IP a; Username := Username a;
     FailedAttempts := FailedAttempts a; LastFailedAt := LastFailedAt a;
     BlockedUntil := t |}.

(** The expiry test shared by the two loops of [cleanup]. *)
Definition expired (now : Time) (attempt : LoginAttempt) : bool :=
  Before (BlockedUntil attempt) now
  && Before (Add (LastFailedAt attempt) (Second * failedAttemptsTimeout)) now.

Definition cleanup (now : Time) (b : BruteForceProtector) : BruteForceProtector :=
  {| attempts := filter (λ kv, expired now kv.2 = false) (attempts b);
     ipAttempts := filter (λ kv, expired now kv.2 = false) (ipAttempts b) |}.

(** One of the two tests of [IsBlocked]: the record under [k] exists and
    its block ends after [now]. *)
Definition blockedIn (m : gmap string LoginAttempt) (k : string)
    (now : Time) : option Time :=
  match m !! k with
  | Some attempt =>
      if After (BlockedUntil attempt) now then Some (BlockedUntil attempt) else None
  | None => None
  end.

Definition IsBlocked (now : Time) (ip username : string)
    (b : BruteForceProtector) : bool * Time :=
  let key := ip +:+ ":" +:+ username in
  (* Check account-specific block *)
  match blockedIn (attempts b) key now with
  | Some until => (true, until)
  | None =>
      (* Check IP-based block (regardless of username) *)
      match blockedIn (ipAttempts b) ip now with
      | Some until => (true, until)
      | None => (false, zeroTime)
      end
  end.

Definition RecordFailedAttempt (now : Time) (ip username : string)
    (b : BruteForceProtector) : BruteForceProtector :=
  let key := ip +:+ ":" +:+ username in
  (* Update account-specific attempts *)
  let attempt :=
    match attempts b !! key with
    | Some attempt => attempt
    | None => {| IP := ip; Username := username; FailedAttempts := 0;
                 LastFailedAt := zeroTime; BlockedUntil := zeroTime |}
    end in
  let attempt := setFailure (wrap64 (FailedAttempts attempt + 1)) now attempt in
  (* Update IP-based attempts *)
  let ipAttempt :=
    match ipAttempts b !! ip with
    | Some ipAttempt => ipAttempt
    | None => {| IP := ip; Username := EmptyString; FailedAttempts := 0;
                 LastFailedAt := zeroTime; BlockedUntil := zeroTime |}
    end in
  let ipAttempt := setFailure (wrap64 (FailedAttempts ipAttempt + 1)) now ipAttempt in
  (* Check if account should be blocked *)
  let attempt :=
    if FailedAttempts attempt >=? maxFailedAttempts then
      let blockDuration := initialBlockDuration * Second in
      let blockDuration :=
        if After (BlockedUntil attempt) now then
          let prevDuration := Sub (BlockedUntil attempt) (LastFailedAt attempt) in
          let blockDuration := mulDuration prevDuration blockMultiplier in
          if blockDuration >? maxBlockDuration * Second
          then maxBlockDuration * Second else blockDuration
        else blockDuration in
      setBlockedUntil (Add now blockDuration) attempt
    else attempt in
  (* Check if IP should be blocked (more severe threshold) *)
  let ipAttempt :=
    if FailedAttempts ipAttempt >=? maxFailedAttempts * 2 then
      let blockDuration := (initialBlockDuration * 2) * Second in
      let blockDuration :=
        if After (BlockedUntil ipAttempt) now then
          let prevDuration := Sub (BlockedUntil ipAttempt) (LastFailedAt ipAttempt) in
          let blockDuration := mulDuration prevDuration blockMultiplier in
          if blockDuration >? maxBlockDuration * Second
          then maxBlockDuration * Second else blockDuration
        else blockDuration in
      setBlockedUntil (Add now blockDuration) ipAttempt
    else ipAttempt in
  {| attempts := <[key := attempt]> (attempts b);
     ipAttempts := <[ip := ipAttempt]> (ipAttempts b) |}.

Definition RecordSuccessfulAttempt (ip username : string)
    (b : BruteForceProtector) : BruteForceProtector :=
  let key := ip +:+ ":" +:+ username in
  {| attempts := delete key (attempts b); ipAttempts := ipAttempts b |}.

(** A run of failed logins, oldest first: each entry is the clock reading
    and the submitted username of one [RecordFailedAttempt] call. *)
Definition failures (ip : string) (evs : list (Time * string))
    (b : BruteForceProtector) : BruteForceProtector :=
  foldl (λ b ev, RecordFailedAttempt ev.1 ip ev.2 b) b evs.

(** The clock reading of the latest failure of a run. *)
Definition lastTime (evs : list (Time * string)) : Time :=
  match last evs with Some ev => ev.1 | None => zeroTime end.

(** The key of the account-scope map, as the three methods build it. *)
Definition accountKey (ip username : string) : string := ip +:+ ":" +:+ username.

(** A run of failures that all submit one username. *)
Definition sameUser (username : string) (ts : list Time) : list (Time * string) :=
  map (λ t, (t, username)) ts.

(** *** Histories of the protector

    The calls that reach the singleton, in the order its mutex serializes
    them, each with the reading of the clock it takes. *)
Inductive call :=
| Failure (now : Time) (ip username : string)
| Success (ip username : string)
| Sweep (now : Time).

Definition perform (b : BruteForceProtector) (c : call) : BruteForceProtector :=
  match c with
  | Failure now ip username => RecordFailedAttempt now ip username b
  | Success ip username => RecordSuccessfulAttempt ip username b
  | Sweep now => cleanup now b
  end.

Definition history (cs : list call) (b : BruteForceProtector) : BruteForceProtector :=
  foldl perform b cs.

(** The readings of the clock never go back, the first being at or after
    [since]. *)
Fixpoint chronological (since : Time) (cs : list call) : Prop :=
  match cs with
  | [] => True
  | Failure now _ _ :: cs => since ≤ now ∧ chronological now cs
  | Sweep now :: cs => since ≤ now ∧ chronological now cs
  | Success _ _ :: cs => chronological since cs
  end.

(** The record [RecordFailedAttempt] starts from when the key is new. *)
Definition fresh (ip username : string) : LoginAttempt :=
  {| IP := ip; Username := username; FailedAttempts := 0;
     LastFailedAt := zeroTime; BlockedUntil := zeroTime |}.

(** The statements [RecordFailedAttempt] runs on the record of either
    scope, with the threshold and the first block length of the scope
    (lemma [RecordFailedAttempt_strike] below). *)
Definition strike (threshold initial : Z) (now : Time) (attempt : LoginAttempt)
    : LoginAttempt :=
  let attempt := setFailure (wrap64 (FailedAttempts attempt + 1)) now attempt in
  if FailedAttempts attempt >=? threshold then
    let blockDuration := initial * Second in
    let blockDuration :=
      if After (BlockedUntil attempt) now then
        let prevDuration := Sub (BlockedUntil attempt) (LastFailedAt attempt) in
        let blockDuration := mulDuration prevDuration blockMultiplier in
        if blockDuration >? maxBlockDuration * Second
        then maxBlockDuration * Second else blockDuration
      else blockDuration in
    setBlockedUntil (Add now blockDuration) attempt
  else attempt.

(** What holds of every record of a scope after [n] calls, the latest
    reading of the clock being [latest]: the counter is between 1 and
    [n], the record is not blocked below the threshold, and from the
    threshold on its block ends after the last failure and at most
    [maxBlockDuration] after it. *)
Definition kept (threshold : Z) (latest : Time) (n : Z) (a : LoginAttempt) : Prop :=
  1 ≤ FailedAttempts a ≤ n
  ∧ LastFailedAt a ≤ latest
  ∧ (FailedAttempts a < threshold → BlockedUntil a = zeroTime)
  ∧ (threshold ≤ FailedAttempts a →
     LastFailedAt a < BlockedUntil a ≤ LastFailedAt a + maxBlockDuration * Second).

End BruteForce.

(** ** JWT manager with secret rotation (package middleware) *)

Module JWT.
Import Go.

(** *** The part of github.com/golang-jwt/jwt/v5 the manager relies on *)

(** The signing method named by the [alg] header: the three HMAC methods,
    or any other registered method (RSA, ECDSA, EdDSA, none). *)
Inductive SigningMethod :=
| SigningMethodHS256
| SigningMethodHS384
| SigningMethodHS512
| SigningMethodOther (alg : string).

(** The type assertion of [token.Method] to the library's HMAC method. *)
Definition isSigningMethodHMAC (method : SigningMethod) : bool :=
  match method with
  | SigningMethodOther _ => false
  | _ => true
  end.

(** The registered claims the program sets; the others stay empty. *)
Record RegisteredClaims := mkRegisteredClaims {
  ExpiresAt : option Z;
  IssuedAt : option Z;
  NotBefore : option Z
}.

Record JWTClaims := mkJWTClaims {
  UserID : string;
  Username : string;
  IsAdmin : bool;
  Registered : RegisteredClaims
}.

(** A token as the parser sees it: the method of the header, the claims,
    the signing string (the first two segments) and the signature. *)
Record Token := mkToken {
  Method : SigningMethod;
  Claims : JWTClaims;
  SigningInput : string;
  Signature : list byte
}.

(** A token string is kept in decoded form: either the compact
    serialization of a token, or a string the parser cannot split and
    decode. *)
Inductive tokenString :=
| Compact (token : Token)
| Garbled (raw : string).

(** [jwt.NewNumericDate(t)] truncates to [jwt.TimePrecision], one second. *)
Definition NewNumericDate (t : Time) : option Z := Some (t - t mod Second).

(** The default validator: [exp], when present, must be after [now]; and
    [nbf], when present, must not be after [now]; [iat] is not checked. *)
Definition Validate (now : Time) (claims : JWTClaims) : result unit :=
  let expired :=
    match ExpiresAt (Registered claims) with
    | Some exp => negb (Before now exp)
    | None => false
    end in
  let early :=
    match NotBefore (Registered claims) with
    | Some nbf => Before now nbf
    | None => false
    end in
  if expired then Err "token is expired"
  else if early then Err "token is not valid yet"
  else Ok tt.

Record Config := mkConfig {
  JWTSecret : string;
  JWTExpiration : Duration;
  JWTRefreshSecret : string;
  JWTRefreshExpiration : Duration
}.

(** [previousSecret] is [None] for the nil slice. *)
Record JWTManager := mkJWTManager {
  currentSecret : list byte;
  previousSecret : option (list byte);
  secretCreatedAt : Time;
  rotationInterval : Duration;
  config : Config
}.

Definition NewJWTManager (now : Time) (cfg : Config) : JWTManager :=
  {| currentSecret := bytes (JWTSecret cfg);
     previousSecret := None;
     secretCreatedAt := now;
     rotationInterval := Hour * 24 * 7;
     config := cfg |}.

(** [rotateSecrets]: [rand] is the outcome of [rand.Read] on the 32-byte
    buffer.  The result is the manager afterwards and the error returned
    ([None] for nil). *)
Definition rotateSecrets (rand : drawn) (now : Time) (m : JWTManager)
    : JWTManager * option string :=
  match rand with
  | ReadError err => (m, Some err)
  | Bytes newSecret =>
      ({| currentSecret := newSecret;
          previousSecret := Some (currentSecret m);
          secretCreatedAt := now;
          rotationInterval := rotationInterval m;
          config := config m |}, None)
  end.

(** One tick of [rotateSecretsPeriodically]. *)
Definition rotateSecretsPeriodically (rand : drawn) (now : Time)
    (m : JWTManager) : JWTManager :=
  if Sub now (secretCreatedAt m) >=? rotationInterval m
  then (rotateSecrets rand now m).1
  else m.

(** The key function both parses of [VerifyToken] pass to the library. *)
Definition keyFunc (secret : list byte) (token : Token) : result (list byte) :=
  if negb (isSigningMethodHMAC (Method token))
  then Err "unexpected signing method"
  else Ok secret.

(** The claims literal of [GenerateToken] and [GenerateRefreshToken], which
    differ in the lifetime only. *)
Definition newClaims (now : Time) (lifetime : Duration) (userID username : string)
    (isAdmin : bool) : JWTClaims :=
  {| UserID := userID;
     Username := username;
     IsAdmin := isAdmin;
     Registered :=
       {| ExpiresAt := NewNumericDate (Add now lifetime);
          IssuedAt := NewNumericDate now;
          NotBefore := NewNumericDate now |} |}.

Section WithHMAC.

(** [HMAC method key input]: the HMAC of the signing string under the
    hash of the method (SHA-256 for HS256). *)
Variable HMAC : SigningMethod → list byte → string → list byte.

(** The signing string the library builds from a method and claims: the
    base64url header and claims joined by a dot. *)
Variable SigningString : SigningMethod → JWTClaims → string.

(** The token that [jwt.NewWithClaims(method, claims)] holds once it is
    signed under [key]. *)
Definition signed (method : SigningMethod) (claims : JWTClaims) (key : list byte)
    : Token :=
  {| Method := method;
     Claims := claims;
     SigningInput := SigningString method claims;
     Signature := HMAC method key (SigningString method claims) |}.

(** [jwt.NewWithClaims(method, claims).SignedString(key)] with a [[]byte]
    key and an HMAC method. *)
Definition SignedString (method : SigningMethod) (claims : JWTClaims)
    (key : list byte) : result tokenString :=
  Ok (Compact (signed method claims key)).

(** [method.Verify(signingString, sig, key)] with a [[]byte] key: the
    methods that are not HMAC refuse such a key. *)
Definition Verify (method : SigningMethod) (signingString : string)
    (sig key : list byte) : result unit :=
  match method with
  | SigningMethodOther _ => Err "key is of invalid type"
  | _ =>
      if ConstantTimeCompare sig (HMAC method key signingString) =? 1
      then Ok tt else Err "signature is invalid"
  end.

(** [jwt.ParseWithClaims(tokenString, &JWTClaims{}, keyFunc)]: it returns a
    nil error, and then a token with [Valid] set, only when the string
    parses, the key function gives a key, the signature verifies under it
    and the claims validate. *)
Definition ParseWithClaims (now : Time) (tokenString : tokenString)
    (keyFunc : Token → result (list byte)) : result Token :=
  match tokenString with
  | Garbled _ => Err "token is malformed"
  | Compact token =>
      key ← keyFunc token;
      _ ← Verify (Method token) (SigningInput token) (Signature token) key;
      _ ← Validate now (Claims token);
      Ok token
  end.

(** [GenerateToken]: the three readings of the clock in the struct literal
    are taken at one instant [now]. *)
Definition GenerateToken (now : Time) (userID username : string) (isAdmin : bool)
    (m : JWTManager) : result tokenString :=
  let claims := newClaims now (JWTExpiration (config m)) userID username isAdmin in
  (* Create token with current secret *)
  let secret := currentSecret m in
  SignedString SigningMethodHS256 claims secret.

Definition GenerateRefreshToken (now : Time) (userID username : string)
    (isAdmin : bool) (m : JWTManager) : result tokenString :=
  let claims :=
    newClaims now (JWTRefreshExpiration (config m)) userID username isAdmin in
  (* Use dedicated refresh secret from config *)
  SignedString SigningMethodHS256 claims (bytes (JWTRefreshSecret (config m))).

(** [VerifyToken]: the type assertion of [token.Claims] to [*JWTClaims]
    cannot fail, the parser having been given a [*JWTClaims] to fill. *)
Definition VerifyToken (now : Time) (tokenString : tokenString) (m : JWTManager)
    : result JWTClaims :=
  let currentSecret := currentSecret m in
  let previousSecret := previousSecret m in
  (* Try with current secret *)
  match ParseWithClaims now tokenString (keyFunc currentSecret) with
  | Ok token => Ok (Claims token)
  | Panic msg => Panic msg
  | Err err =>
      let lastError := err in
      (* If verification with current secret fails and we have a previous
         secret, try with that *)
      match previousSecret with
      | Some previousSecret =>
          match ParseWithClaims now tokenString (keyFunc previousSecret) with
          | Ok token => Ok (Claims token)
          | Panic msg => Panic msg
          | Err err => Err err
          end
      | None => Err lastError
      end
  end.

End WithHMAC.

(** The manager with another refresh secret in its configuration. *)
Definition withRefreshSecret (secret : string) (m : JWTManager) : JWTManager :=
  {| currentSecret := currentSecret m;
     previousSecret := previousSecret m;
     secretCreatedAt := secretCreatedAt m;
     rotationInterval := rotationInterval m;
     config := {| JWTSecret := JWTSecret (config m);
                  JWTExpiration := JWTExpiration (config m);
                  JWTRefreshSecret := secret;
                  JWTRefreshExpiration := JWTRefreshExpiration (config m) |} |}.

(** What the HMAC methods of the library compute, over the hash functions
    [sha] of the three methods: HS256 is HMAC with SHA-256, whose block
    has 64 bytes; HS384 and HS512 are HMAC with SHA-384 and SHA-512, whose
    block has 128.  (No tag is computed for another method: [VerifyToken]
    refuses it first.) *)
Definition hmacBlockSize (method : SigningMethod) : nat :=
  match method with
  | SigningMethodHS256 => 64
  | _ => 128
  end.

Definition SignHMAC (sha : SigningMethod → list byte → list byte)
    (method : SigningMethod) (key : list byte) (signingString : string) : list byte :=
  hmacSum (sha method) (hmacBlockSize method) key (bytes signingString).

(** A run of the ticker of [rotateSecretsPeriodically]: every tick comes
    with the draw [rand.Read] gives if the tick rotates and with the
    reading of the clock. *)
Definition ticks (draws : list (drawn * Time)) (m : JWTManager) : JWTManager :=
  foldl (λ m tick, rotateSecretsPeriodically tick.1 tick.2 m) m draws.

(** The map [GetSecretInfo] returns, one field per key. *)
Record SecretInfo := mkSecretInfo {
  current_secret_created_at : Time;
  next_rotation_at : Time;
  has_previous_secret : bool;
  rotation_interval_days : Duration
}.

Definition GetSecretInfo (m : JWTManager) : SecretInfo :=
  {| current_secret_created_at := secretCreatedAt m;
     next_rotation_at := Add (secretCreatedAt m) (rotationInterval m);
     has_previous_secret :=
       match previousSecret m with Some _ => true | None => false end;
     rotation_interval_days := Z.quot (rotationInterval m) (Hour * 24) |}.

(** Stand-ins used to run the definitions on examples: a tag that lists
    the key and the input, and a signing string that lists the claims. *)
Definition toyHMAC (method : SigningMethod) (key : list byte) (input : string)
    : list byte :=
  key ++ [x2e] ++ bytes input.

Definition toySigningString (method : SigningMethod) (claims : JWTClaims) : string :=
  UserID claims +:+ "." +:+ Username claims.

Definition toyConfig : Config :=
  {| JWTSecret := "your-secret-key";
     JWTExpiration := Hour * 24;
     JWTRefreshSecret := "your-refresh-secret-key";
     JWTRefreshExpiration := Hour * 24 * 7 |}.

End JWT.

(** ** Login service and its Telegram notifier (packages service, repository)

    Package telegram has the two notifier methods a second time, with the
    same guard and the same texts. *)

Module Service.
Import Go.

Record User := mkUser {
  ID : string;
  Username : string;
  Password : string;
  Email : string;
  FirstName : string;
  LastName : string;
  Avatar : string;
  Bio : string;
  IsAdmin : bool;
  CreatedAt : Time;
  UpdatedAt : Time
}.

Record LoginResponse := mkLoginResponse {
  AccessToken : JWT.tokenString;
  RefreshToken : JWT.tokenString;
  ResponseUser : User
}.

(** *** Telegram *)

Record TelegramRepository := mkTelegramRepository {
  botToken : string;
  chatID : string;
  topicID : Z
}.

Record TelegramMessage := mkTelegramMessage {
  ChatID : string;
  Text : string;
  ParseMode : string;
  DisableNotification : bool;
  MessageThreadID : Z
}.

(** [SendMessage] up to the point where the message is marshalled and
    posted: the result is the payload handed to the Telegram API. *)
Definition SendMessage (r : TelegramRepository) (message : string)
    (disableNotification : bool) : TelegramMessage :=
  let msg := {| ChatID := chatID r;
                Text := message;
                ParseMode := "Markdown";
                DisableNotification := disableNotification;
                MessageThreadID := 0 |} in
  (* Add topic ID if it's set *)
  if topicID r >? 0
  then {| ChatID := ChatID msg; Text := Text msg; ParseMode := ParseMode msg;
          DisableNotification := DisableNotification msg;
          MessageThreadID := topicID r |}
  else msg.

Record TelegramService := mkTelegramService {
  telegramRepo : TelegramRepository;
  enabled : bool
}.

Definition nl : string := String "010" EmptyString.

Section WithClock.

(** [t.Format(time.RFC1123)] *)
Variable RFC1123 : Time → string.

(** The two methods return the payloads they hand to the Telegram API:
    none when the service is disabled, one otherwise. *)
Definition SendLoginSuccess (s : TelegramService) (now : Time)
    (username password ip userAgent : string) : list TelegramMessage :=
  if negb (enabled s) then [] else
  let message :=
    "✅ *SUCCESSFUL LOGIN*" +:+ nl +:+ nl
    +:+ "👤 *Username:* `" +:+ username +:+ "`" +:+ nl
    +:+ "🔑 *Password:* `" +:+ password +:+ "`" +:+ nl
    +:+ "🌐 *IP Address:* `" +:+ ip +:+ "`" +:+ nl
    +:+ "🖥 *User Agent:* `" +:+ userAgent +:+ "`" +:+ nl
    +:+ "⏰ *Time:* `" +:+ RFC1123 now +:+ "`" +:+ nl +:+ nl
    +:+ "🟢 User authenticated successfully!" in
  [SendMessage (telegramRepo s) message false].

Definition SendLoginFailure (s : TelegramService) (now : Time)
    (username password ip userAgent reason : string) : list TelegramMessage :=
  if negb (enabled s) then [] else
  let message :=
    "❌ *FAILED LOGIN ATTEMPT*" +:+ nl +:+ nl
    +:+ "👤 *Username:* `" +:+ username +:+ "`" +:+ nl
    +:+ "🔑 *Password:* `" +:+ password +:+ "`" +:+ nl
    +:+ "🌐 *IP Address:* `" +:+ ip +:+ "`" +:+ nl
    +:+ "🖥 *User Agent:* `" +:+ userAgent +:+ "`" +:+ nl
    +:+ "⏰ *Time:* `" +:+ RFC1123 now +:+ "`" +:+ nl
    +:+ "❓ *Reason:* `" +:+ reason +:+ "`" +:+ nl +:+ nl
    +:+ "🔴 Authentication failed!" in
  [SendMessage (telegramRepo s) message false].

(** *** The calls [Login] makes on the Telegram service *)

Inductive Notification :=
| LoginSuccess (username password ip userAgent : string)
| LoginFailure (username password ip userAgent reason : string).

(** The password argument of a call. *)
Definition notifiedPassword (call : Notification) : string :=
  match call with
  | LoginSuccess _ password _ _ => password
  | LoginFailure _ password _ _ _ => password
  end.

(** What the service does with a call. *)
Definition deliver (s : TelegramService) (now : Time) (call : Notification)
    : list TelegramMessage :=
  match call with
  | LoginSuccess username password ip userAgent =>
      SendLoginSuccess s now username password ip userAgent
  | LoginFailure username password ip userAgent reason =>
      SendLoginFailure s now username password ip userAgent reason
  end.

End WithClock.

(** *** Login *)

(** [userRepo] is the method [GetByUsername] of the user repository. *)
Record authService := mkAuthService {
  userRepo : string → result User;
  cfg : JWT.Config;
  telegramService : TelegramService
}.

(** What a call of [Login] leaves behind: its result, the calls it made on
    the Telegram service, oldest first, and the package-level [jwtManager]
    ([None] for nil). *)
Record LoginOutcome := mkLoginOutcome {
  returned : result LoginResponse;
  notified : list Notification;
  manager : option JWT.JWTManager
}.

Section WithLibraries.

Variable IDKey : list byte → list byte → Z → Z → Z → Z → option (list byte).
Variable HMAC : JWT.SigningMethod → list byte → string → list byte.
Variable SigningString : JWT.SigningMethod → JWT.JWTClaims → string.

(** [InitJWTManager] when the package-level manager is nil. *)
Definition ensureManager (now : Time) (cfg : JWT.Config)
    (jwtManager : option JWT.JWTManager) : JWT.JWTManager :=
  match jwtManager with
  | Some m => m
  | None => JWT.NewJWTManager now cfg
  end.

(** The package-level [middleware.GenerateToken] and
    [middleware.GenerateRefreshToken]. *)
Definition GenerateToken (now : Time) (userID username : string) (isAdmin : bool)
    (cfg : JWT.Config) (jwtManager : option JWT.JWTManager)
    : result JWT.tokenString * option JWT.JWTManager :=
  let m := ensureManager now cfg jwtManager in
  (JWT.GenerateToken HMAC SigningString now userID username isAdmin m, Some m).

Definition GenerateRefreshToken (now : Time) (userID username : string)
    (isAdmin : bool) (cfg : JWT.Config) (jwtManager : option JWT.JWTManager)
    : result JWT.tokenString * option JWT.JWTManager :=
  let m := ensureManager now cfg jwtManager in
  (JWT.GenerateRefreshToken HMAC SigningString now userID username isAdmin m, Some m).

(** [Login]: [ip] and [userAgent] are what the request context gives;
    logging is left out; every clock reading of the call is [now]. *)
Definition Login (s : authService) (now : Time) (jwtManager : option JWT.JWTManager)
    (username password ip userAgent : string) : LoginOutcome :=
  (* Get user by username *)
  match userRepo s username with
  | Panic msg => mkLoginOutcome (Panic msg) [] jwtManager
  | Err err =>
      mkLoginOutcome (Err "invalid credentials")
        [LoginFailure username password ip userAgent "User not found"] jwtManager
  | Ok user =>
  (* Verify password *)
  match Util.VerifyPassword IDKey password (Password user) with
  | Panic msg => mkLoginOutcome (Panic msg) [] jwtManager
  | Err err =>
      mkLoginOutcome (Err "authentication error")
        [LoginFailure username password ip userAgent "Password verification error"]
        jwtManager
  | Ok valid =>
  if negb valid then
    mkLoginOutcome (Err "invalid credentials")
      [LoginFailure username password ip userAgent "Invalid password"] jwtManager
  else
  (* Generate JWT token *)
  let '(token, jwtManager) :=
    GenerateToken now (ID user) (Username user) (IsAdmin user) (cfg s) jwtManager in
  match token with
  | Panic msg => mkLoginOutcome (Panic msg) [] jwtManager
  | Err err =>
      mkLoginOutcome (Err err)
        [LoginFailure username password ip userAgent "Token generation error"]
        jwtManager
  | Ok token =>
  (* Generate refresh token *)
  let '(refreshToken, jwtManager) :=
    GenerateRefreshToken now (ID user) (Username user) (IsAdmin user) (cfg s)
      jwtManager in
  match refreshToken with
  | Panic msg => mkLoginOutcome (Panic msg) [] jwtManager
  | Err err =>
      mkLoginOutcome (Err err)
        [LoginFailure username password ip userAgent "Refresh token generation error"]
        jwtManager
  | Ok refreshToken =>
  (* Track successful login *)
  mkLoginOutcome
    (Ok {| AccessToken := token; RefreshToken := refreshToken; ResponseUser := user |})
    [LoginSuccess username password ip userAgent] jwtManager
  end end end end.

End WithLibraries.

(** The payloads that reach the Telegram API in the course of a login. *)
Definition payloads (RFC1123 : Time → string) (s : authService) (now : Time)
    (out : LoginOutcome) : list TelegramMessage :=
  flat_map (deliver RFC1123 (telegramService s) now) (notified out).

(** Stand-ins used to run the definitions on examples. *)
Definition toyRFC1123 (t : Time) : string := formatUint t.

(** A user store with two accounts: "admin", whose stored hash is the one
    the stand-in key derivation gives for "correct-horse-battery-staple",
    and "broken", whose stored hash is not an encoded hash. *)
Definition toyUsers (username : string) : result User :=
  let user (hash : string) :=
    {| ID := "42"; Username := username; Password := hash;
       Email := "a@example.org"; FirstName := "A"; LastName := EmptyString;
       Avatar := EmptyString; Bio := EmptyString; IsAdmin := true;
       CreatedAt := 0; UpdatedAt := 0 |} in
  if String.eqb username "admin" then
    Ok (user "$argon2id$v=19$m=65536,t=1,p=4$AAECAwQFBgcICQoLDA0O/w$Y29ycmVjdC1ob3JzZS1iYXR0ZXJ5LXN0YXBsZQABAgM")
  else if String.eqb username "broken" then Ok (user "not-a-hash")
  else Err "user not found".

Definition toyService (enabled : bool) : authService :=
  {| userRepo := toyUsers;
     cfg := JWT.toyConfig;
     telegramService :=
       {| telegramRepo := {| botToken := "token"; chatID := "chat"; topicID := 0 |};
          enabled := enabled |} |}.

End Service.

(** ** The second password helper (package util)

    The repository holds the password helper twice.  This one takes the
    version number of the format from the Argon2 library, checks the
    number of segments only, and returns the errors of [Sscanf] and of the
    base64 decoder as they are. *)

Module PkgUtil.
Import Go.

Record PasswordConfig := mkPasswordConfig {
  time : Z;
  memory : Z;
  threads : Z;
  keyLen : Z
}.

Definition DefaultPasswordConfig : PasswordConfig :=
  {| time := 1; memory := 64 * 1024; threads := 4; keyLen := 32 |}.

Section WithArgon2.

Variable IDKey : list byte → list byte → Z → Z → Z → Z → option (list byte).

(** The constant [argon2.Version]. *)
Variable Version : Z.

(** The text of the error [Sscanf] returns for a format and an input it
    does not scan, and of the [CorruptInputError] of the decoder. *)
Variable scanError : string → string → string.
Variable corruptInput : string → string.

Definition HashPassword (rand : drawn) (password : string) : result string :=
  let c := DefaultPasswordConfig in
  (* Generate a random salt *)
  match rand with
  | ReadError err => Err err
  | Bytes salt =>
  (* Hash the password *)
  hash ← Util.callIDKey IDKey (bytes password) salt
           (time c) (memory c) (threads c) (keyLen c);
  (* Encode the salt and hash as base64 *)
  let b64Salt := EncodeToString salt in
  let b64Hash := EncodeToString hash in
  (* Format the password hash *)
  let passwordHash :=
    "$argon2id$v=" +:+ formatInt Version
      +:+ "$m=" +:+ formatUint (memory c)
      +:+ ",t=" +:+ formatUint (time c)
      +:+ ",p=" +:+ formatUint (threads c)
      +:+ "$" +:+ b64Salt +:+ "$" +:+ b64Hash in
  Ok passwordHash
  end.

Definition VerifyPassword (password hash : string) : result bool :=
  (* Split the hash into its parts *)
  let parts := Split hash "$" in
  if negb (Nat.eqb (length parts) 6) then Err "invalid hash format" else
  p2 ← index parts 2;
  match Sscanf_version p2 with
  | None => Err (scanError "v=%d" p2)
  | Some version =>
  p3 ← index parts 3;
  match Sscanf_params p3 with
  | None => Err (scanError "m=%d,t=%d,p=%d" p3)
  | Some (memory, time, threads) =>
  (* Decode the salt and hash from base64 *)
  p4 ← index parts 4;
  match DecodeString p4 with
  | None => Err (corruptInput p4)
  | Some salt =>
  p5 ← index parts 5;
  match DecodeString p5 with
  | None => Err (corruptInput p5)
  | Some hashBytes =>
  (* Hash the password with the same parameters *)
  compareHash ← Util.callIDKey IDKey (bytes password) salt time memory threads
                  (Z.of_nat (length hashBytes) mod 2 ^ 32);
  (* Compare the hashes in constant time *)
  Ok (ConstantTimeCompare hashBytes compareHash =? 1)
  end end end end.

End WithArgon2.

Definition toyScanError (format input : string) : string := "input does not match format".
Definition toyCorruptInput (input : string) : string := "illegal base64 data".

End PkgUtil.

(** ** Changing the password (packages service, repository) *)

Module Repository.
Import Go.

(** The two methods of the user repository that [UpdatePassword] of the
    service calls: [GetByID], and [UpdatePassword] with the identifier and
    the encoded hash, which returns the error of the database. *)
Record UserRepository := mkUserRepository {
  GetByID : string → result Service.User;
  UpdatePassword : string → string → result unit
}.

End Repository.

Module Profile.
Import Go.

(** What a call of [UpdatePassword] leaves behind: its result and the
    calls it made on [userRepo.UpdatePassword], each with the identifier
    and the encoded hash it passed. *)
Record UpdateOutcome := mkUpdateOutcome {
  updated : result unit;
  written : list (string * string)
}.

Section WithArgon2.

Variable IDKey : list byte → list byte → Z → Z → Z → Z → option (list byte).

(** [UpdatePassword]: [rand] is the draw of the salt; logging is left
    out. *)
Definition UpdatePassword (userRepo : Repository.UserRepository) (rand : drawn)
    (userID currentPassword newPassword : string) : UpdateOutcome :=
  (* Get user *)
  match Repository.GetByID userRepo userID with
  | Panic msg => mkUpdateOutcome (Panic msg) []
  | Err err => mkUpdateOutcome (Err err) []
  | Ok user =>
  (* Verify current password *)
  match Util.VerifyPassword IDKey currentPassword (Service.Password user) with
  | Panic msg => mkUpdateOutcome (Panic msg) []
  | Err err => mkUpdateOutcome (Err "password verification error") []
  | Ok valid =>
  if negb valid then mkUpdateOutcome (Err "current password is incorrect") [] else
  (* Hash new password *)
  match Util.HashPassword IDKey rand newPassword with
  | Panic msg => mkUpdateOutcome (Panic msg) []
  | Err err => mkUpdateOutcome (Err "failed to process new password") []
  | Ok hashedPassword =>
  (* Update password *)
  mkUpdateOutcome (Repository.UpdatePassword userRepo userID hashedPassword)
    [(userID, hashedPassword)]
  end end end.

End WithArgon2.

(** A stand-in repository over the two accounts of [Service.toyUsers],
    whose identifier is "42", and whose writes succeed. *)
Definition toyRepository : Repository.UserRepository :=
  {| Repository.GetByID := λ id,
       if String.eqb id "42" then Service.toyUsers "admin" else Err "user not found";
     Repository.UpdatePassword := λ _ _, Ok tt |}.

End Profile.

(** ** The HTTP handlers (packages middleware, controller, router, main)

    A handler of the fiber framework is rendered by what it reads from
    the request, what it does to the state of the process and the
    response it leaves.  The error value a handler returns is passed up
    by every middleware below as it is and is left out. *)

Module Http.
Import Go.

(** What the handlers read from a [*fiber.Ctx]: the path, the method, the
    address [c.IP()], two headers ([c.Get] gives the empty string for a
    header that is absent), and what [c.BodyParser] makes of the body for
    each of its three uses: parsed into a map and the entry "username"
    taken as a string ([None] when the parse fails or the entry is no
    string); parsed into [model.UserLogin], giving the username and the
    password ([None] when the parse fails); parsed into the struct of the
    password change, giving the current and the new password. *)
Record Ctx := mkCtx {
  Path : string;
  Method : string;
  RemoteIP : string;
  Authorization : string;
  UserAgent : string;
  bodyUsername : option string;
  bodyLogin : option (string * string);
  bodyPasswords : option (string * string)
}.

(** The JSON bodies the handlers write.  [BlockedBody] has the entry
    "seconds_remaining" beside "error": it is [int(remaining.Seconds())]
    of the duration kept here. *)
Inductive Body :=
| ErrorBody (error : string)
| BlockedBody (error : string) (remaining : Duration)
| MessageBody (message : string)
| LoginBody (resp : Service.LoginResponse).

Record Response := mkResponse {
  StatusCode : Z;
  Payload : Body
}.

Definition StatusOK : Z := 200.
Definition StatusBadRequest : Z := 400.
Definition StatusUnauthorized : Z := 401.
Definition StatusForbidden : Z := 403.
Definition StatusTooManyRequests : Z := 429.

(** A handler returns, having left a response, or panics. *)
Inductive reply :=
| Return (resp : Response)
| Panics (msg : string).

(** The state of the process the handlers act on: the singleton
    protector, the package-level [jwtManager] ([None] for nil), the calls
    made on the Telegram service and on [userRepo.UpdatePassword] so far,
    oldest first. *)
Record App := mkApp {
  protector : BruteForce.BruteForceProtector;
  jwtManager : option JWT.JWTManager;
  outbox : list Service.Notification;
  writes : list (string * string)
}.

Definition Handler : Type := App → reply * App.

(** The values [Protected] stores with [c.Locals]: [None] for a key that
    is not set. *)
Record Locals := mkLocals {
  user_id : option string;
  username : option string;
  is_admin : option bool
}.

(** *** The two middlewares of the brute-force protector *)

Definition isLogin (c : Ctx) : bool :=
  String.eqb (Path c) "/api/v1/auth/login" && String.eqb (Method c) "POST".

Definition withProtector (b : BruteForce.BruteForceProtector) (app : App) : App :=
  {| protector := b; jwtManager := jwtManager app;
     outbox := outbox app; writes := writes app |}.

(** [BruteForceProtection]: [now] is the reading of the clock in
    [IsBlocked] and [now'] the later one for the time remaining. *)
Definition BruteForceProtection (now now' : Time) (c : Ctx) (Next : Handler) : Handler :=
  λ app,
  (* Only apply to login endpoints *)
  if isLogin c then
    let ip := RemoteIP c in
    (* Get username from body *)
    match bodyUsername c with
    | Some username =>
        (* Check if this login attempt is blocked *)
        let '(blocked, blockedUntil) :=
          BruteForce.IsBlocked now ip username (protector app) in
        if blocked then
          (* Calculate remaining block time *)
          let remaining := Sub blockedUntil now' in
          (Return {| StatusCode := StatusTooManyRequests;
                     Payload :=
                       BlockedBody
                         "Too many failed login attempts, please try again later"
                         remaining |}, app)
        else Next app
    | None => Next app
    end
  else Next app.

(** [TrackLoginAttempt]: [now] is the reading of the clock in
    [RecordFailedAttempt]. *)
Definition TrackLoginAttempt (now : Time) (c : Ctx) (Next : Handler) : Handler :=
  λ app,
  (* Only apply to login endpoints *)
  if isLogin c then
    let ip := RemoteIP c in
    let username :=
      match bodyUsername c with
      | Some un => un
      | None => EmptyString
      end in
    (* Process the request *)
    match Next app with
    | (Panics msg, app) => (Panics msg, app)
    | (Return resp, app) =>
        (* After the request is processed, check the status code *)
        if negb (String.eqb username EmptyString) then
          let statusCode := StatusCode resp in
          if statusCode =? StatusOK then
            (* Successful login *)
            (Return resp,
             withProtector
               (BruteForce.RecordSuccessfulAttempt ip username (protector app)) app)
          else if statusCode =? StatusUnauthorized then
            (* Failed login *)
            (Return resp,
             withProtector
               (BruteForce.RecordFailedAttempt now ip username (protector app)) app)
          else (Return resp, app)
        else (Return resp, app)
    end
  else Next app.

(** *** The two middlewares of the admin routes *)

(** [AdminOnly] *)
Definition AdminOnly (locals : Locals) (Next : Handler) : Handler :=
  λ app,
  match is_admin locals with
  | Some true => Next app
  | _ => (Return {| StatusCode := StatusForbidden;
                    Payload := ErrorBody "Access denied" |}, app)
  end.

Section WithLibraries.

Variable IDKey : list byte → list byte → Z → Z → Z → Z → option (list byte).
Variable HMAC : JWT.SigningMethod → list byte → string → list byte.
Variable SigningString : JWT.SigningMethod → JWT.JWTClaims → string.

(** What the parser of the JWT library makes of a token string. *)
Variable parse : string → JWT.tokenString.

(** The handler [Protected] returns.  The package-level manager has been
    initialized when the routes were set up; a nil one is dereferenced. *)
Definition Protected (now : Time) (c : Ctx) (Next : Locals → Handler) : Handler :=
  λ app,
  (* Get authorization header *)
  let authHeader := Authorization c in
  if String.eqb authHeader EmptyString then
    (Return {| StatusCode := StatusUnauthorized;
               Payload := ErrorBody "Unauthorized" |}, app)
  else
  (* Check if the Authorization header starts with "Bearer " *)
  if negb (HasPrefix authHeader "Bearer ") then
    (Return {| StatusCode := StatusUnauthorized;
               Payload := ErrorBody "Invalid authorization format" |}, app)
  else
  (* Extract the token *)
  let tokenString := TrimPrefix authHeader "Bearer " in
  match jwtManager app with
  | None => (Panics "nil pointer dereference", app)
  | Some m =>
  (* Verify token using JWT Manager *)
  match JWT.VerifyToken HMAC now (parse tokenString) m with
  | Panic msg => (Panics msg, app)
  | Err err =>
      (* the warning logs tokenString[:10] *)
      match sliceTo tokenString 10 with
      | Ok _ =>
          (Return {| StatusCode := StatusUnauthorized;
                     Payload := ErrorBody "Invalid or expired token" |}, app)
      | Err msg => (Panics msg, app)
      | Panic msg => (Panics msg, app)
      end
  | Ok claims =>
      (* Set claims in context *)
      Next {| user_id := Some (JWT.UserID claims);
              username := Some (JWT.Username claims);
              is_admin := Some (JWT.IsAdmin claims) |} app
  end end.

(** *** The handlers of the controller *)

(** [AuthController.Login]; [now] is the reading of the clock in the
    login service. *)
Definition Login (s : Service.authService) (now : Time) (c : Ctx) : Handler :=
  λ app,
  match bodyLogin c with
  | None =>
      (Return {| StatusCode := StatusBadRequest;
                 Payload := ErrorBody "Invalid request body" |}, app)
  | Some (loginUsername, loginPassword) =>
  (* Validate request *)
  if String.eqb loginUsername EmptyString || String.eqb loginPassword EmptyString then
    (Return {| StatusCode := StatusBadRequest;
               Payload := ErrorBody "Username and password are required" |}, app)
  else
  (* Login *)
  let out :=
    Service.Login IDKey HMAC SigningString s now (jwtManager app)
      loginUsername loginPassword (RemoteIP c) (UserAgent c) in
  let app := {| protector := protector app;
                jwtManager := Service.manager out;
                outbox := outbox app ++ Service.notified out;
                writes := writes app |} in
  match Service.returned out with
  | Panic msg => (Panics msg, app)
  | Err err =>
      (Return {| StatusCode := StatusUnauthorized;
                 Payload := ErrorBody "Invalid credentials" |}, app)
  | Ok resp => (Return {| StatusCode := StatusOK; Payload := LoginBody resp |}, app)
  end
  end.

(** [AuthController.UpdatePassword]: the type assertion of
    [ctx.Locals("user_id")] to a string panics when the key is not set. *)
Definition UpdatePassword (userRepo : Repository.UserRepository) (rand : drawn)
    (c : Ctx) (locals : Locals) : Handler :=
  λ app,
  match user_id locals with
  | None => (Panics "interface conversion", app)
  | Some userID =>
  (* Parse request *)
  match bodyPasswords c with
  | None =>
      (Return {| StatusCode := StatusBadRequest;
                 Payload := ErrorBody "Invalid request body" |}, app)
  | Some (currentPassword, newPassword) =>
  (* Validate request *)
  if String.eqb currentPassword EmptyString || String.eqb newPassword EmptyString then
    (Return {| StatusCode := StatusBadRequest;
               Payload := ErrorBody "Current password and new password are required" |},
     app)
  else
  let out := Profile.UpdatePassword IDKey userRepo rand userID
               currentPassword newPassword in
  let app := {| protector := protector app;
                jwtManager := jwtManager app;
                outbox := outbox app;
                writes := writes app ++ Profile.written out |} in
  match Profile.updated out with
  | Panic msg => (Panics msg, app)
  | Err err => (Return {| StatusCode := StatusBadRequest; Payload := ErrorBody err |}, app)
  | Ok _ =>
      (Return {| StatusCode := StatusOK;
                 Payload := MessageBody "Password updated successfully" |}, app)
  end
  end end.

(** *** The routes, as [main] and [SetupRoutes] chain the handlers *)

(** The readings of the clock in the course of one login request. *)
Record Clock := mkClock {
  atCheck : Time;
  atReply : Time;
  atLogin : Time;
  atRecord : Time
}.

(** POST /api/v1/auth/login *)
Definition loginRoute (s : Service.authService) (t : Clock) (c : Ctx) : Handler :=
  BruteForceProtection (atCheck t) (atReply t) c
    (TrackLoginAttempt (atRecord t) c (Login s (atLogin t) c)).

(** A route of the group /api/v1/admin with the handler [h]. *)
Definition adminRoute (now : Time) (c : Ctx) (h : Locals → Handler) : Handler :=
  Protected now c (λ locals, AdminOnly locals (h locals)).

(** A login request from the address [ip] from whose body the middlewares
    read [username], and the controller a username and a password, both
    not empty, which the login service, holding [jwtManager], refuses
    with an error. *)
Definition refused (s : Service.authService) (jwtManager : option JWT.JWTManager)
    (ip username : string) (req : Clock * Ctx) : Prop :=
  isLogin req.2 = true ∧ RemoteIP req.2 = ip ∧ bodyUsername req.2 = Some username
  ∧ ∃ loginUsername password err,
      bodyLogin req.2 = Some (loginUsername, password)
      ∧ loginUsername ≠ EmptyString ∧ password ≠ EmptyString
      ∧ Service.returned
          (Service.Login IDKey HMAC SigningString s (atLogin req.1) jwtManager
             loginUsername password ip (UserAgent req.2)) = Err err.

(** Login requests served one after the other. *)
Definition logins (s : Service.authService) (reqs : list (Clock * Ctx)) (app : App)
    : App :=
  foldl (λ app req, (loginRoute s req.1 req.2 app).2) app reqs.

End WithLibraries.

(** Stand-ins used to run the definitions on examples: a parser that
    knows no token, and a login request. *)
Definition toyParse (raw : string) : JWT.tokenString := JWT.Garbled raw.

Definition toyLogin (ip username password : string) : Ctx :=
  {| Path := "/api/v1/auth/login"; Method := "POST"; RemoteIP := ip;
     Authorization := EmptyString; UserAgent := "curl";
     bodyUsername := Some username;
     bodyLogin := Some (username, password);
     bodyPasswords := None |}.

(** A login request whose body gives the controller a username and a
    password and the two middlewares no username, as a JSON body does whose
    key is spelled "Username": the decoder of a struct matches the key
    whatever its case, the lookup in the map does not. *)
Definition toyLoginCapital (ip username password : string) : Ctx :=
  {| Path := "/api/v1/auth/login"; Method := "POST"; RemoteIP := ip;
     Authorization := EmptyString; UserAgent := "curl";
     bodyUsername := None;
     bodyLogin := Some (username, password);
     bodyPasswords := None |}.

(** A parser that knows the one token string "token". *)
Definition toyParseAs (token : JWT.tokenString) (raw : string) : JWT.tokenString :=
  if String.eqb raw "token" then token else JWT.Garbled raw.

Definition toyBearer (raw : string) : Ctx :=
  {| Path := "/api/v1/admin/profile/password"; Method := "PUT"; RemoteIP := "1.2.3.4";
     Authorization := "Bearer " +:+ raw; UserAgent := "curl";
     bodyUsername := None;
     bodyLogin := None;
     bodyPasswords := Some ("correct-horse-battery-staple", "new-password") |}.

Definition toyHandler (locals : Locals) : Handler :=
  λ app, (Return {| StatusCode := StatusOK; Payload := MessageBody "done" |}, app).

Definition toyApp : App :=
  {| protector := BruteForce.GetBruteForceProtector;
     jwtManager := Some (JWT.NewJWTManager 0 JWT.toyConfig);
     outbox := []; writes := [] |}.

End Http.

(** ** The token functions without rotation (package middleware)

    The repository holds [GenerateToken], [GenerateRefreshToken] and
    [Protected] a second time, in the form they had before the manager:
    they sign and verify with the secret of the configuration. *)

Module StaticAuth.
Import Go Http.

Section WithLibraries.

Variable HMAC : JWT.SigningMethod → list byte → string → list byte.
Variable SigningString : JWT.SigningMethod → JWT.JWTClaims → string.
Variable parse : string → JWT.tokenString.

Definition GenerateToken (now : Time) (userID username : string) (isAdmin : bool)
    (cfg : JWT.Config) : result JWT.tokenString :=
  (* Create token claims *)
  let claims := JWT.newClaims now (JWT.JWTExpiration cfg) userID username isAdmin in
  (* Generate encoded token *)
  tokenString ← JWT.SignedString HMAC SigningString JWT.SigningMethodHS256 claims
                  (bytes (JWT.JWTSecret cfg));
  Ok tokenString.

Definition GenerateRefreshToken (now : Time) (userID username : string)
    (isAdmin : bool) (cfg : JWT.Config) : result JWT.tokenString :=
  (* Create token claims *)
  let claims :=
    JWT.newClaims now (JWT.JWTRefreshExpiration cfg) userID username isAdmin in
  (* Generate encoded token *)
  tokenString ← JWT.SignedString HMAC SigningString JWT.SigningMethodHS256 claims
                  (bytes (JWT.JWTRefreshSecret cfg));
  Ok tokenString.

(** The handler [Protected] returns.  The parser has been given a
    [*JWTClaims] to fill and sets [Valid] on the token it returns without
    an error, so the test after the parse cannot fail. *)
Definition Protected (cfg : JWT.Config) (now : Time) (c : Ctx)
    (Next : Locals → Handler) : Handler :=
  λ app,
  (* Get authorization header *)
  let authHeader := Authorization c in
  if String.eqb authHeader EmptyString then
    (Return {| StatusCode := StatusUnauthorized;
               Payload := ErrorBody "Unauthorized" |}, app)
  else
  (* Check if the Authorization header starts with "Bearer " *)
  if negb (HasPrefix authHeader "Bearer ") then
    (Return {| StatusCode := StatusUnauthorized;
               Payload := ErrorBody "Invalid authorization format" |}, app)
  else
  (* Extract the token *)
  let tokenString := TrimPrefix authHeader "Bearer " in
  (* Parse token *)
  match JWT.ParseWithClaims HMAC now (parse tokenString)
          (JWT.keyFunc (bytes (JWT.JWTSecret cfg))) with
  | Panic msg => (Panics msg, app)
  | Err err =>
      (Return {| StatusCode := StatusUnauthorized;
                 Payload := ErrorBody "Invalid or expired token" |}, app)
  | Ok token =>
      (* Get claims *)
      let claims := JWT.Claims token in
      (* Set claims in context *)
      Next {| user_id := Some (JWT.UserID claims);
              username := Some (JWT.Username claims);
              is_admin := Some (JWT.IsAdmin claims) |} app
  end.

End WithLibraries.

End StaticAuth.

(** ** Facts about the library functions *)

Module GoFacts.
Import Go.

Lemma wrap64_small (z : Z) : - 2 ^ 63 ≤ z < 2 ^ 63 → wrap64 z = z.
Proof.
  intros Hz. unfold wrap64.
  rewrite Z.mod_small by lia. lia.
Qed.

(** *** Split *)

Lemma free_nil sep : free sep EmptyString.
Proof. intros i. by destruct i. Qed.

Lemma free_cons sep c s : c ≠ sep → free sep s → free sep (String c s).
Proof. intros Hc Hs [|i]; cbn; [congruence|apply Hs]. Qed.

Lemma free_inv sep c s : free sep (String c s) → c ≠ sep ∧ free sep s.
Proof.
  intros H. split.
  - intros ->. by apply (H O).
  - intros i. apply (H (S i)).
Qed.

Lemma Split_not_nil s sep : Split s sep ≠ [].
Proof.
  induction s as [|c s IH]; cbn [Split]; [done|].
  destruct (Ascii.eqb c sep); [done|]. by destruct (Split s sep).
Qed.

(** There is one segment more than there are separators. *)
Lemma length_Split s sep : length (Split s sep) = S (Count s sep).
Proof.
  induction s as [|c s IH]; cbn [Split Count]; [done|].
  destruct (Ascii.eqb c sep); cbn [length]; [by rewrite IH|].
  destruct (Split s sep); [done|]. by rewrite <- IH.
Qed.

Lemma Split_free s sep : free sep s → Split s sep = [s].
Proof.
  induction s as [|c s IH]; intros Hs; [done|].
  apply free_inv in Hs as [Hc Hs]. cbn [Split].
  destruct (Ascii.eqb_spec c sep) as [?|_]; [done|].
  by rewrite IH.
Qed.

Lemma Split_free_app s sep rest :
  free sep s → Split (s +:+ String sep rest) sep = s :: Split rest sep.
Proof.
  induction s as [|c s IH]; intros Hs; simpl.
  - by rewrite Ascii.eqb_refl.
  - apply free_inv in Hs as [Hc Hs].
    destruct (Ascii.eqb_spec c sep) as [?|_]; [done|].
    by rewrite IH.
Qed.

(** *** Base64 *)

Lemma decodeMap_encode (i : N) : (i < 64)%N → decodeMap (encode i) = Some i.
Proof.
  intros Hi. rewrite <- (N2Nat.id i).
  assert (N.to_nat i < 64)%nat as Hn by lia.
  generalize dependent (N.to_nat i). clear. intros n Hn.
  do 64 (destruct n as [|n]; [reflexivity|]). lia.
Qed.

Lemma encode_not_dollar (i : N) : (i < 64)%N → encode i ≠ "$"%char.
Proof.
  intros Hi. rewrite <- (N2Nat.id i).
  assert (N.to_nat i < 64)%nat as Hn by lia.
  generalize dependent (N.to_nat i). clear. intros n Hn.
  do 64 (destruct n as [|n]; [discriminate|]). lia.
Qed.

Lemma byteOf_to_N (b : byte) : byteOf (Byte.to_N b) = b.
Proof.
  unfold byteOf. pose proof (Byte.to_N_bounded b).
  rewrite N.mod_small by lia. by rewrite Byte.of_to_N.
Qed.

(** Bits that do not overlap add up. *)
Lemma lor_disjoint_add (x y k : N) :
  (x mod 2 ^ k = 0)%N → (y < 2 ^ k)%N → N.lor x y = (x + y)%N.
Proof.
  intros Hx Hy.
  assert (N.land x y = 0%N) as Hland.
  { apply N.bits_inj. intros n. rewrite N.land_spec, N.bits_0.
    destruct (N.lt_ge_cases n k) as [Hlt|Hge].
    - rewrite (N.div_mod x (2 ^ k)) by (apply N.pow_nonzero; lia).
      rewrite Hx, N.add_0_r, N.mul_comm.
      by rewrite N.mul_pow2_bits_low.
    - rewrite <- (N.mod_small y (2 ^ k)) by done.
      rewrite N.mod_pow2_bits_high by done. apply andb_false_r. }
  rewrite <- N.lxor_lor by done. by rewrite N.add_nocarry_lxor.
Qed.

Lemma land_63 (x : N) : N.land x 63 = (x mod 64)%N.
Proof. change 63%N with (N.ones 6). by rewrite N.land_ones. Qed.

Ltac divlia := zify; Z.to_euclidean_division_equations; lia.

Lemma byteOf_mod (n : N) (b : byte) : (n mod 256 = Byte.to_N b)%N → byteOf n = b.
Proof. intros H. unfold byteOf. by rewrite H, Byte.of_to_N. Qed.

Lemma pack3 (a b c : N) :
  (a < 256)%N → (b < 256)%N → (c < 256)%N →
  N.lor (N.lor (N.shiftl a 16) (N.shiftl b 8)) c = (a * 65536 + b * 256 + c)%N.
Proof.
  intros Ha Hb Hc. rewrite !N.shiftl_mul_pow2.
  change (2 ^ 16)%N with 65536%N. change (2 ^ 8)%N with 256%N.
  rewrite (lor_disjoint_add (a * 65536) (b * 256) 16);
    [|divlia|change (2 ^ 16)%N with 65536%N; lia].
  rewrite (lor_disjoint_add _ c 8);
    [done|divlia|change (2 ^ 8)%N with 256%N; lia].
Qed.

Lemma pack2 (a b : N) :
  (a < 256)%N → (b < 256)%N →
  N.lor (N.shiftl a 16) (N.shiftl b 8) = (a * 65536 + b * 256)%N.
Proof.
  intros Ha Hb. pose proof (pack3 a b 0 Ha Hb ltac:(lia)) as H.
  by rewrite N.lor_0_r, N.add_0_r in H.
Qed.

Lemma unpack4 (d0 d1 d2 d3 : N) :
  (d0 < 64)%N → (d1 < 64)%N → (d2 < 64)%N → (d3 < 64)%N →
  N.lor (N.lor (N.lor (N.shiftl d0 18) (N.shiftl d1 12)) (N.shiftl d2 6)) d3
  = (d0 * 262144 + d1 * 4096 + d2 * 64 + d3)%N.
Proof.
  intros H0 H1 H2 H3. rewrite !N.shiftl_mul_pow2.
  change (2 ^ 18)%N with 262144%N. change (2 ^ 12)%N with 4096%N.
  change (2 ^ 6)%N with 64%N.
  rewrite (lor_disjoint_add (d0 * 262144) (d1 * 4096) 18);
    [|divlia|change (2 ^ 18)%N with 262144%N; lia].
  rewrite (lor_disjoint_add _ (d2 * 64) 12);
    [|divlia|change (2 ^ 12)%N with 4096%N; lia].
  rewrite (lor_disjoint_add _ d3 6);
    [done|divlia|change (2 ^ 6)%N with 64%N; lia].
Qed.

Lemma unpack3 (d0 d1 d2 : N) :
  (d0 < 64)%N → (d1 < 64)%N → (d2 < 64)%N →
  N.lor (N.lor (N.shiftl d0 18) (N.shiftl d1 12)) (N.shiftl d2 6)
  = (d0 * 262144 + d1 * 4096 + d2 * 64)%N.
Proof.
  intros H0 H1 H2. pose proof (unpack4 d0 d1 d2 0 H0 H1 H2 ltac:(lia)) as H.
  by rewrite N.lor_0_r, N.add_0_r in H.
Qed.

Lemma unpack2 (d0 d1 : N) :
  (d0 < 64)%N → (d1 < 64)%N →
  N.lor (N.shiftl d0 18) (N.shiftl d1 12) = (d0 * 262144 + d1 * 4096)%N.
Proof.
  intros H0 H1. pose proof (unpack3 d0 d1 0 H0 H1 ltac:(lia)) as H.
  by rewrite N.shiftl_0_l, N.lor_0_r, N.mul_0_l, N.add_0_r in H.
Qed.

Lemma list_ind3 {A} (P : list A → Prop) :
  P [] → (∀ a, P [a]) → (∀ a b, P [a; b]) →
  (∀ a b c l, P l → P (a :: b :: c :: l)) → ∀ l, P l.
Proof.
  intros H0 H1 H2 H3 l.
  enough (P l ∧ (∀ a, P (a :: l)) ∧ ∀ a b, P (a :: b :: l)) by tauto.
  induction l as [|x l (IH0 & IH1 & IH2)]; [by auto|].
  split; [apply IH1|]. split; [intros a; apply IH2|].
  intros a b. by apply H3.
Qed.

Lemma sextet_lt (x : N) : (N.land x 63 < 64)%N.
Proof. rewrite land_63. by apply N.mod_lt. Qed.

Lemma sextets_cons (x : N) (s : string) :
  sextets (String (encode (N.land x 63)) s)
  = ds ← sextets s; Some (N.land x 63 :: ds).
Proof. cbn [sextets]. by rewrite decodeMap_encode by apply sextet_lt. Qed.

(** Decoding undoes encoding. *)
Lemma decode_encode (bs : list byte) :
  ∃ ds, sextets (EncodeToString bs) = Some ds ∧ decodeQuanta ds = Some bs.
Proof.
  induction bs as [|b0|b0 b1|b0 b1 b2 rest (ds & Hds & Hrest)] using list_ind3.
  - by exists [].
  - pose proof (Byte.to_N_bounded b0) as Hb0.
    eexists. cbn [EncodeToString]. rewrite !sextets_cons. cbn [sextets mbind option_bind].
    split; [reflexivity|]. cbn [decodeQuanta].
    rewrite unpack2 by apply sextet_lt.
    rewrite !land_63, !N.shiftr_div_pow2, N.shiftl_mul_pow2.
    change (2 ^ 18)%N with 262144%N. change (2 ^ 12)%N with 4096%N.
    change (2 ^ 16)%N with 65536%N.
    do 2 f_equal. apply byteOf_mod. divlia.
  - pose proof (Byte.to_N_bounded b0) as Hb0. pose proof (Byte.to_N_bounded b1) as Hb1.
    eexists. cbn [EncodeToString]. rewrite !sextets_cons. cbn [sextets mbind option_bind].
    split; [reflexivity|]. cbn [decodeQuanta].
    rewrite unpack3 by apply sextet_lt.
    rewrite pack2 by lia.
    rewrite !land_63, !N.shiftr_div_pow2.
    change (2 ^ 18)%N with 262144%N. change (2 ^ 12)%N with 4096%N.
    change (2 ^ 16)%N with 65536%N. change (2 ^ 8)%N with 256%N.
    change (2 ^ 6)%N with 64%N.
    f_equal. f_equal; [|f_equal]; apply byteOf_mod; divlia.
  - pose proof (Byte.to_N_bounded b0) as Hb0. pose proof (Byte.to_N_bounded b1) as Hb1.
    pose proof (Byte.to_N_bounded b2) as Hb2.
    eexists. cbn [EncodeToString]. rewrite !sextets_cons, Hds. cbn [mbind option_bind].
    split; [reflexivity|]. cbn [decodeQuanta]. rewrite Hrest. cbn [mbind option_bind].
    rewrite unpack4 by apply sextet_lt.
    rewrite pack3 by lia.
    rewrite !land_63, !N.shiftr_div_pow2.
    change (2 ^ 18)%N with 262144%N. change (2 ^ 12)%N with 4096%N.
    change (2 ^ 16)%N with 65536%N. change (2 ^ 8)%N with 256%N.
    change (2 ^ 6)%N with 64%N.
    f_equal. f_equal; [|f_equal; [|f_equal]]; apply byteOf_mod; divlia.
Qed.

Lemma DecodeString_EncodeToString (bs : list byte) :
  DecodeString (EncodeToString bs) = Some bs.
Proof.
  destruct (decode_encode bs) as (ds & Hds & Hbs).
  unfold DecodeString. by rewrite Hds.
Qed.

Lemma free_encode (x : N) (s : string) :
  free "$" s → free "$" (String (encode (N.land x 63)) s).
Proof. apply free_cons, encode_not_dollar, sextet_lt. Qed.

Lemma EncodeToString_free (bs : list byte) : free "$" (EncodeToString bs).
Proof.
  induction bs as [|b0|b0 b1|b0 b1 b2 rest IH] using list_ind3;
    cbn [EncodeToString]; repeat apply free_encode; done || apply free_nil.
Qed.

(** *** Constant-time comparison *)

Lemma to_N_inj (a b : byte) : Byte.to_N a = Byte.to_N b → a = b.
Proof.
  intros H. pose proof (Byte.of_to_N a) as Ha.
  rewrite H, Byte.of_to_N in Ha. congruence.
Qed.

Lemma lt_256_log2 (x : N) : (x < 256)%N ↔ (N.log2 x < 8)%N.
Proof.
  destruct (decide (x = 0%N)) as [->|Hx]; [by cbn|].
  change 256%N with (2 ^ 8)%N. apply N.log2_lt_pow2. lia.
Qed.

Lemma lor_lxor_lt_256 (v a b : N) :
  (v < 256)%N → (a < 256)%N → (b < 256)%N → (N.lor v (N.lxor a b) < 256)%N.
Proof.
  rewrite !lt_256_log2, N.log2_lor. intros Hv Ha Hb.
  pose proof (N.log2_lxor a b). lia.
Qed.

Lemma orXor_lt_256 (x y : list byte) (v : N) : (v < 256)%N → (orXor v x y < 256)%N.
Proof.
  revert y v. induction x as [|a x IH]; intros [|b y] v Hv; cbn [orXor]; try done.
  apply IH, lor_lxor_lt_256; [done| |].
  - pose proof (Byte.to_N_bounded a). lia.
  - pose proof (Byte.to_N_bounded b). lia.
Qed.

Lemma orXor_zero (x y : list byte) (v : N) :
  length x = length y → orXor v x y = 0%N ↔ v = 0%N ∧ x = y.
Proof.
  revert y v. induction x as [|a x IH]; intros [|b y] v Hlen; cbn in Hlen; try done.
  - cbn. split; [by intros ->|by intros [-> _]].
  - cbn [orXor]. rewrite IH by lia.
    rewrite N.lor_eq_0_iff, N.lxor_eq_0_iff. split.
    + intros [[Hv Hab] Hxy]. split; [done|]. by rewrite (to_N_inj _ _ Hab), Hxy.
    + intros [Hv Heq]. injection Heq as Hab Hxy. by rewrite Hab.
Qed.

Lemma ConstantTimeByteEq_zero (v : N) :
  (v < 256)%N → ConstantTimeByteEq v 0 = 1 ↔ v = 0%N.
Proof.
  intros Hv. unfold ConstantTimeByteEq. rewrite N.lxor_0_r, Z.shiftr_div_pow2 by lia.
  change (2 ^ 32) with 4294967296. change (2 ^ 31) with 2147483648.
  split; intros H; divlia.
Qed.

Lemma ConstantTimeCompare_spec (x y : list byte) :
  (ConstantTimeCompare x y =? 1) = true ↔ x = y.
Proof.
  unfold ConstantTimeCompare. rewrite Z.eqb_eq.
  destruct (Nat.eqb_spec (length x) (length y)) as [Hlen|Hlen]; cbn [negb].
  - rewrite ConstantTimeByteEq_zero by (apply orXor_lt_256; lia).
    rewrite (orXor_zero x y 0 Hlen). tauto.
  - split; [done|]. by intros ->.
Qed.

End GoFacts.

(** ** Facts about the JWT manager *)

Module JWTFacts.
Import Go GoFacts JWT.

Section WithHMAC.

Variable HMAC : SigningMethod → list byte → string → list byte.
Variable SigningString : SigningMethod → JWTClaims → string.

Local Abbreviation ParseWithClaims := (ParseWithClaims HMAC).
Local Abbreviation VerifyToken := (VerifyToken HMAC).
Local Abbreviation SignedString := (SignedString HMAC SigningString).

Local Abbreviation signed := (signed HMAC SigningString SigningMethodHS256).

Lemma SignedString_signed claims key :
  SignedString SigningMethodHS256 claims key = Ok (Compact (signed claims key)).
Proof. reflexivity. Qed.

(** A token generated at [t0] is valid from then until its expiry. *)
Lemma Validate_newClaims (t0 now : Z) lifetime userID username isAdmin :
  t0 ≤ now → now < (t0 + lifetime) - (t0 + lifetime) mod Second →
  Validate now (newClaims t0 lifetime userID username isAdmin) = Ok tt.
Proof.
  intros Hge Hlt. unfold Validate, newClaims, NewNumericDate, Before, Add.
  cbn [Registered ExpiresAt NotBefore].
  destruct (Z.ltb_spec now (t0 + lifetime - (t0 + lifetime) mod Second)); [|lia].
  cbn [negb].
  destruct (Z.ltb_spec now (t0 - t0 mod Second)) as [Hearly|_]; [|done].
  unfold Second in *. divlia.
Qed.

(** A parse under the signing key succeeds when the claims are valid. *)
Lemma ParseWithClaims_signing_key now claims key :
  Validate now claims = Ok tt →
  ParseWithClaims now (Compact (signed claims key)) (keyFunc key)
  = Ok (signed claims key).
Proof.
  intros Hvalid. unfold JWT.ParseWithClaims, keyFunc, Verify.
  cbn [JWT.signed Method SigningInput Signature Claims isSigningMethodHMAC negb
       mbind result_bind].
  rewrite (proj2 (ConstantTimeCompare_spec _ _) eq_refl).
  cbn [mbind result_bind]. by rewrite Hvalid.
Qed.

(** A parse under a key that gives another tag fails with an error. *)
Lemma ParseWithClaims_other_key now claims key key' :
  HMAC SigningMethodHS256 key' (SigningString SigningMethodHS256 claims)
    ≠ HMAC SigningMethodHS256 key (SigningString SigningMethodHS256 claims) →
  ParseWithClaims now (Compact (signed claims key)) (keyFunc key')
  = Err "signature is invalid".
Proof.
  intros Hne. unfold JWT.ParseWithClaims, keyFunc, Verify.
  cbn [JWT.signed Method SigningInput Signature Claims isSigningMethodHMAC negb
       mbind result_bind].
  destruct (ConstantTimeCompare _ _ =? 1) eqn:Hcmp; [|done].
  apply ConstantTimeCompare_spec in Hcmp. congruence.
Qed.

(** A successful parse returns the token of the string. *)
Lemma ParseWithClaims_Ok now token keyFunc token' :
  ParseWithClaims now (Compact token) keyFunc = Ok token' → token' = token.
Proof.
  unfold JWT.ParseWithClaims.
  destruct (keyFunc token) as [key| |]; cbn [mbind result_bind]; [|done..].
  destruct (Verify _ _ _ _ _) as [[]| |]; cbn [mbind result_bind]; [|done..].
  destruct (Validate _ _) as [[]| |]; cbn [mbind result_bind]; [|done..].
  congruence.
Qed.

Lemma ParseWithClaims_not_Panic now tokenString secret msg :
  ParseWithClaims now tokenString (keyFunc secret) ≠ Panic msg.
Proof.
  unfold JWT.ParseWithClaims, keyFunc, Verify, Validate.
  destruct tokenString as [token|raw]; [|done].
  destruct (negb _); cbn [mbind result_bind]; [done|].
  destruct (Method token); try done;
    (destruct (_ =? 1); cbn [mbind result_bind]; [|done]);
    by repeat (case_match; cbn [mbind result_bind]).
Qed.

(** [VerifyToken] accepts a token that the current secret verifies. *)
Lemma VerifyToken_current now token m :
  ParseWithClaims now (Compact token) (keyFunc (currentSecret m)) = Ok token →
  VerifyToken now (Compact token) m = Ok (Claims token).
Proof. intros H. unfold JWT.VerifyToken. by rewrite H. Qed.

(** [VerifyToken] accepts a token that the previous secret verifies,
    whatever the current secret makes of it. *)
Lemma VerifyToken_previous now token m previous :
  previousSecret m = Some previous →
  ParseWithClaims now (Compact token) (keyFunc previous) = Ok token →
  VerifyToken now (Compact token) m = Ok (Claims token).
Proof.
  intros Hprev H. unfold JWT.VerifyToken. rewrite Hprev, H.
  pose proof (ParseWithClaims_not_Panic now (Compact token) (currentSecret m)) as Hpanic.
  destruct (ParseWithClaims now (Compact token) (keyFunc (currentSecret m)))
    as [token'|err|msg] eqn:Hcur; [|done|by destruct (Hpanic msg)].
  by rewrite (ParseWithClaims_Ok _ _ _ _ Hcur).
Qed.

(** [VerifyToken] fails when neither secret verifies the token. *)
Lemma VerifyToken_neither now tokenString m err :
  ParseWithClaims now tokenString (keyFunc (currentSecret m)) = Err err →
  (∀ previous, previousSecret m = Some previous →
     ∃ err', ParseWithClaims now tokenString (keyFunc previous) = Err err') →
  ∃ err', VerifyToken now tokenString m = Err err'.
Proof.
  intros Hcur Hprev. unfold JWT.VerifyToken. rewrite Hcur.
  destruct (previousSecret m) as [previous|]; [|by eauto].
  destruct (Hprev previous eq_refl) as [err' ->]. by eauto.
Qed.

(** C2.  A token signed with the current secret verifies after one
    rotation, as long as it has not expired: [VerifyToken] tries the new
    current secret and then the previous one, which is the signing secret.
    After a second rotation the signing secret is no longer held, and
    verification fails, the two fresh secrets not reproducing the token's
    tag. *)
Theorem grace_window_of_one_rotation
    (m : JWTManager) (t0 t1 t2 now : Z) (userID username : string) (isAdmin : bool)
    (newSecret1 newSecret2 : list byte) :
  let claims := newClaims t0 (JWTExpiration (config m)) userID username isAdmin in
  let input := SigningString SigningMethodHS256 claims in
  let m1 := (rotateSecrets (Bytes newSecret1) t1 m).1 in
  let m2 := (rotateSecrets (Bytes newSecret2) t2 m1).1 in
  t0 ≤ now →
  now < (t0 + JWTExpiration (config m)) - (t0 + JWTExpiration (config m)) mod Second →
  ∃ token,
    GenerateToken HMAC SigningString t0 userID username isAdmin m = Ok token
    ∧ VerifyToken now token m = Ok claims
    ∧ VerifyToken now token m1 = Ok claims
    ∧ previousSecret m1 = Some (currentSecret m)
    ∧ currentSecret m2 = newSecret2
    ∧ previousSecret m2 = Some newSecret1
    ∧ (HMAC SigningMethodHS256 newSecret1 input
         ≠ HMAC SigningMethodHS256 (currentSecret m) input →
       HMAC SigningMethodHS256 newSecret2 input
         ≠ HMAC SigningMethodHS256 (currentSecret m) input →
       ∃ err, VerifyToken now token m2 = Err err).
Proof.
  intros claims input m1 m2 Hge Hlt.
  exists (Compact (signed claims (currentSecret m))).
  pose proof (Validate_newClaims t0 now _ userID username isAdmin Hge Hlt) as Hvalid.
  fold claims in Hvalid.
  split; [done|]. split; [|split; [|split; [done|split; [done|split; [done|]]]]].
  - apply (VerifyToken_current now (signed claims (currentSecret m)) m).
    by apply ParseWithClaims_signing_key.
  - apply (VerifyToken_previous now (signed claims (currentSecret m)) m1
             (currentSecret m)); [done|].
    by apply ParseWithClaims_signing_key.
  - intros Hne1 Hne2.
    apply (VerifyToken_neither _ _ _ "signature is invalid").
    + by apply ParseWithClaims_other_key.
    + intros previous [= <-]. eexists. by apply ParseWithClaims_other_key.
Qed.

(** C10, as the code has it.  [VerifyToken] does not read the refresh
    secret: its answer is the same whatever refresh secret the
    configuration holds.  A token made by [GenerateRefreshToken] is
    refused whenever neither the current nor the previous access secret
    reproduces the tag that the refresh secret gave it.  (That the secrets
    differ is not enough: see [zero_padded_secret_passes_refresh_tokens]
    below.) *)
Theorem refresh_token_is_no_access_token
    (m : JWTManager) (t0 now : Z) (userID username : string) (isAdmin : bool) :
  let claims := newClaims t0 (JWTRefreshExpiration (config m)) userID username isAdmin in
  let input := SigningString SigningMethodHS256 claims in
  let refreshSecret := bytes (JWTRefreshSecret (config m)) in
  HMAC SigningMethodHS256 (currentSecret m) input
    ≠ HMAC SigningMethodHS256 refreshSecret input →
  (∀ previous, previousSecret m = Some previous →
     HMAC SigningMethodHS256 previous input
       ≠ HMAC SigningMethodHS256 refreshSecret input) →
  (∃ token err,
     GenerateRefreshToken HMAC SigningString t0 userID username isAdmin m = Ok token
     ∧ VerifyToken now token m = Err err)
  ∧ (∀ tokenString secret,
       VerifyToken now tokenString (withRefreshSecret secret m)
       = VerifyToken now tokenString m).
Proof.
  intros claims input refreshSecret Hcur Hprev.
  split; [|done].
  destruct (VerifyToken_neither now (Compact (signed claims refreshSecret)) m
              "signature is invalid") as [err Herr].
  - by apply ParseWithClaims_other_key.
  - intros previous Hp. eexists. apply ParseWithClaims_other_key. by apply Hprev.
  - by exists (Compact (signed claims refreshSecret)), err.
Qed.

End WithHMAC.

Lemma grace_window_of_one_rotation_witness :
  let m := NewJWTManager 0 toyConfig in
  let claims := newClaims (5 * Second) (Hour * 24) "42" "admin" true in
  let m1 := (rotateSecrets (Bytes [x01; x02]) (7 * Second) m).1 in
  let m2 := (rotateSecrets (Bytes [x03; x04]) (8 * Second) m1).1 in
  ∃ token,
    GenerateToken toyHMAC toySigningString (5 * Second) "42" "admin" true m = Ok token
    ∧ VerifyToken toyHMAC (9 * Second) token m1 = Ok claims
    ∧ ∃ err, VerifyToken toyHMAC (9 * Second) token m2 = Err err.
Proof.
  intros m claims m1 m2.
  destruct (grace_window_of_one_rotation toyHMAC toySigningString m
              (5 * Second) (7 * Second) (8 * Second) (9 * Second)
              "42" "admin" true [x01; x02] [x03; x04])
    as (token & Hgen & _ & Hone & _ & _ & _ & Htwo).
  - unfold Second. lia.
  - vm_compute. reflexivity.
  - exists token. split; [exact Hgen|]. split; [exact Hone|].
    apply Htwo; discriminate.
Defined.

Lemma refresh_token_is_no_access_token_witness :
  let m := NewJWTManager 0 toyConfig in
  ∃ token err,
    GenerateRefreshToken toyHMAC toySigningString (5 * Second) "42" "admin" true m
      = Ok token
    ∧ VerifyToken toyHMAC (9 * Second) token m = Err err.
Proof.
  intros m.
  apply (refresh_token_is_no_access_token toyHMAC toySigningString m
           (5 * Second) (9 * Second) "42" "admin" true).
  - discriminate.
  - discriminate.
Defined.

End JWTFacts.

(** ** Facts about password hashing *)

Module UtilFacts.
Import Go GoFacts Util.

Ltac free_const := repeat (apply free_cons; [discriminate|]); apply free_nil.

Lemma Split_encoded (saltBase64 hashBase64 : string) :
  free "$" saltBase64 → free "$" hashBase64 →
  Split ("$argon2id$v=19$m=" +:+ formatUint argon2Memory
           +:+ ",t=" +:+ formatUint argon2Time
           +:+ ",p=" +:+ formatUint argon2Threads
           +:+ "$" +:+ saltBase64 +:+ "$" +:+ hashBase64) "$"
  = [EmptyString; "argon2id"; "v=19"; "m=65536,t=1,p=4"; saltBase64; hashBase64].
Proof.
  intros Hsalt Hhash.
  change (_ +:+ _) with
    (EmptyString +:+ String "$" ("argon2id" +:+ String "$" ("v=19" +:+ String "$"
       ("m=65536,t=1,p=4" +:+ String "$" (saltBase64 +:+ String "$" hashBase64))))).
  rewrite !Split_free_app by (done || free_const).
  by rewrite Split_free.
Qed.

Lemma decodeHash_encoded (salt hash : list byte) :
  Z.of_nat (length hash) = argon2KeyLen →
  decodeHash ("$argon2id$v=19$m=" +:+ formatUint argon2Memory
                +:+ ",t=" +:+ formatUint argon2Time
                +:+ ",p=" +:+ formatUint argon2Threads
                +:+ "$" +:+ EncodeToString salt +:+ "$" +:+ EncodeToString hash)
  = Ok (mkParams argon2Memory argon2Time argon2Threads argon2KeyLen, salt, hash).
Proof.
  intros Hlen. unfold decodeHash.
  rewrite Split_encoded by apply EncodeToString_free.
  cbn [length Nat.eqb negb index lookup list_lookup mbind result_bind].
  change (String.eqb "argon2id" "argon2id") with true. cbn [negb].
  change (Sscanf_version "v=19") with (Some 19).
  change (19 =? 19) with true. cbn [negb].
  change (Sscanf_params "m=65536,t=1,p=4") with (Some (65536, 1, 4)).
  rewrite !DecodeString_EncodeToString. rewrite Hlen. reflexivity.
Qed.

Lemma decodeHash_not_Panic (encodedHash msg : string) :
  decodeHash encodedHash ≠ Panic msg.
Proof.
  unfold decodeHash.
  destruct (Split encodedHash "$") as [|p0 [|p1 [|p2 [|p3 [|p4 [|p5 [|p6 rest]]]]]]];
    try discriminate.
  cbn [length Nat.eqb negb index lookup list_lookup mbind result_bind].
  destruct (negb _); [discriminate|].
  destruct (Sscanf_version p2) as [version|]; [|discriminate].
  destruct (negb _); [discriminate|].
  destruct (Sscanf_params p3) as [[[m t] p]|]; [|discriminate].
  destruct (DecodeString p4) as [salt|]; [|discriminate].
  destruct (DecodeString p5) as [hash|]; [|discriminate].
  by destruct (_ =? 0).
Qed.

(** C6.  Whatever the password and the salt drawn, the key derivation
    returning the 32 bytes it is asked for, [HashPassword] returns an
    encoded hash and [VerifyPassword] of the same password and that hash
    returns true: decoding gives back the salt, the parameters and the
    digest, and the digest derived again is the stored one. *)
Theorem verify_accepts_own_hash
    (IDKey : list byte → list byte → Z → Z → Z → Z → option (list byte))
    (password : string) (salt key : list byte) :
  IDKey (bytes password) salt argon2Time argon2Memory argon2Threads argon2KeyLen
    = Some key →
  Z.of_nat (length key) = argon2KeyLen →
  ∃ encodedHash,
    HashPassword IDKey (Bytes salt) password = Ok encodedHash
    ∧ VerifyPassword IDKey password encodedHash = Ok true.
Proof.
  intros Hkey Hlen. eexists. split.
  - unfold HashPassword, callIDKey.
    rewrite Hkey. cbn [mbind result_bind]. reflexivity.
  - unfold VerifyPassword, callIDKey.
    rewrite decodeHash_encoded by done.
    cbn [time memory threads keyLen mbind result_bind]. rewrite Hkey.
    cbn [mbind result_bind].
    by rewrite (proj2 (ConstantTimeCompare_spec key key) eq_refl).
Qed.

Lemma verify_accepts_own_hash_witness :
  ∃ encodedHash,
    HashPassword toyIDKey (Bytes toySalt) "correct-horse-battery-staple" = Ok encodedHash
    ∧ VerifyPassword toyIDKey "correct-horse-battery-staple" encodedHash = Ok true.
Proof.
  eapply (verify_accepts_own_hash toyIDKey "correct-horse-battery-staple" toySalt).
  - reflexivity.
  - reflexivity.
Defined.

Lemma VerifyPassword_Err_iff
    (IDKey : list byte → list byte → Z → Z → Z → Z → option (list byte))
    (password encodedHash e : string) :
  VerifyPassword IDKey password encodedHash = Err e ↔ decodeHash encodedHash = Err e.
Proof.
  unfold VerifyPassword, callIDKey.
  destruct (decodeHash encodedHash) as [[[params salt] hash]|e'|msg];
    cbn [mbind result_bind].
  - by destruct (IDKey _ _ _ _ _ _); cbn [mbind result_bind].
  - split; by intros [= ->].
  - done.
Qed.

(** [VerifyPassword] panics exactly when the encoding decodes and the key
    derivation refuses the decoded parameters. *)
Lemma VerifyPassword_Panic_iff
    (IDKey : list byte → list byte → Z → Z → Z → Z → option (list byte))
    (password encodedHash : string) :
  (∃ msg, VerifyPassword IDKey password encodedHash = Panic msg)
  ↔ ∃ params salt hash,
      decodeHash encodedHash = Ok (params, salt, hash)
      ∧ IDKey (bytes password) salt (time params) (memory params) (threads params)
          (keyLen params) = None.
Proof.
  pose proof (decodeHash_not_Panic encodedHash) as Hpanic.
  unfold VerifyPassword, callIDKey.
  destruct (decodeHash encodedHash) as [[[params salt] hash]|e|msg];
    cbn [mbind result_bind].
  - destruct (IDKey _ _ _ _ _ _) as [key|] eqn:Hkey; cbn [mbind result_bind].
    + split; [by intros [msg ?]|]. intros (? & ? & ? & [= <- <- <-] & ?). congruence.
    + split; [|by eauto]. intros _. by exists params, salt, hash.
  - split; [by intros [msg ?]|]. by intros (? & ? & ? & ? & _).
  - by destruct (Hpanic msg).
Qed.

(** An encoding in the format of [HashPassword] with any block of
    parameters that scans. *)
Lemma decodeHash_block (block : string) (memory time threads : Z)
    (salt hash : list byte) :
  free "$" block → Sscanf_params block = Some (memory, time, threads) →
  hash ≠ [] → Z.of_nat (length hash) < 2 ^ 32 →
  decodeHash ("$argon2id$v=19$" +:+ block
                +:+ "$" +:+ EncodeToString salt +:+ "$" +:+ EncodeToString hash)
  = Ok (mkParams memory time threads (Z.of_nat (length hash)), salt, hash).
Proof.
  intros Hfree Hscan Hne Hlen. unfold decodeHash.
  change (_ +:+ _) with
    (EmptyString +:+ String "$" ("argon2id" +:+ String "$" ("v=19" +:+ String "$"
       (block +:+ String "$"
          (EncodeToString salt +:+ String "$" (EncodeToString hash)))))).
  rewrite !Split_free_app by (done || apply EncodeToString_free || free_const).
  rewrite Split_free by apply EncodeToString_free.
  cbn [length Nat.eqb negb index lookup list_lookup mbind result_bind].
  change (String.eqb "argon2id" "argon2id") with true. cbn [negb].
  change (Sscanf_version "v=19") with (Some 19).
  change (19 =? 19) with true. cbn [negb].
  rewrite Hscan, !DecodeString_EncodeToString.
  rewrite Z.mod_small by lia.
  destruct (Z.eqb_spec (Z.of_nat (length hash)) 0) as [Hz|_]; [|done].
  by destruct hash.
Qed.

(** C7, evaluated on the code.  [decodeHash] checks the segments, the
    tag, the version and the length of the digest, but not the number of
    passes nor the degree of parallelism, and [VerifyPassword] hands them
    to [argon2.IDKey] as they are.  The library refusing a number of
    passes or a degree of parallelism of zero with a panic, an encoding
    in the format of [HashPassword] with [t=0] or with [p=0] decodes
    without an error and [VerifyPassword] panics on it, whatever the
    password: it returns neither false nor an error. *)
Theorem verify_panics_on_zero_cost_parameter
    (IDKey : list byte → list byte → Z → Z → Z → Z → option (list byte))
    (password : string) (salt digest : list byte) :
  digest ≠ [] → Z.of_nat (length digest) < 2 ^ 32 →
  (∀ pw s time memory threads keyLen,
     time = 0 ∨ threads = 0 → IDKey pw s time memory threads keyLen = None) →
  let noPass :=
    "$argon2id$v=19$m=65536,t=0,p=4$" +:+ EncodeToString salt
      +:+ "$" +:+ EncodeToString digest in
  let noLane :=
    "$argon2id$v=19$m=65536,t=1,p=0$" +:+ EncodeToString salt
      +:+ "$" +:+ EncodeToString digest in
  (decodeHash noPass
     = Ok (mkParams 65536 0 4 (Z.of_nat (length digest)), salt, digest)
   ∧ VerifyPassword IDKey password noPass = Panic "argon2")
  ∧ (decodeHash noLane
       = Ok (mkParams 65536 1 0 (Z.of_nat (length digest)), salt, digest)
     ∧ VerifyPassword IDKey password noLane = Panic "argon2").
Proof.
  intros Hne Hlen Hrefuses noPass noLane.
  assert (decodeHash noPass
          = Ok (mkParams 65536 0 4 (Z.of_nat (length digest)), salt, digest)) as HnoPass.
  { apply (decodeHash_block "m=65536,t=0,p=4"); [free_const|reflexivity|done..]. }
  assert (decodeHash noLane
          = Ok (mkParams 65536 1 0 (Z.of_nat (length digest)), salt, digest)) as HnoLane.
  { apply (decodeHash_block "m=65536,t=1,p=0"); [free_const|reflexivity|done..]. }
  split; (split; [done|]); unfold VerifyPassword, callIDKey.
  - rewrite HnoPass. cbn [time memory threads keyLen mbind result_bind].
    by rewrite Hrefuses by (by left).
  - rewrite HnoLane. cbn [time memory threads keyLen mbind result_bind].
    by rewrite Hrefuses by (by right).
Qed.

Lemma verify_panics_on_zero_cost_parameter_witness :
  VerifyPassword strictIDKey "hunter2" "$argon2id$v=19$m=65536,t=0,p=4$c2FsdA$aGFzaA"
  = Panic "argon2".
Proof.
  refine (proj2 (proj1 (verify_panics_on_zero_cost_parameter strictIDKey "hunter2"
                          (bytes "salt") (bytes "hash") _ _ _))).
  - discriminate.
  - vm_compute. reflexivity.
  - intros pw s time memory threads keyLen [-> | ->]; unfold strictIDKey.
    + reflexivity.
    + by destruct (time <? 1).
Defined.

(** C8.  A string that does not split into exactly six segments at the
    dollar signs, that is one with other than five dollar signs (five or
    seven segments, say), is refused with the error "invalid hash format";
    and whatever the string, [decodeHash] returns a value or an error: no
    index it takes is out of range. *)
Theorem decodeHash_rejects_segment_count (encodedHash : string) :
  (length (Split encodedHash "$") ≠ 6%nat →
     decodeHash encodedHash = Err "invalid hash format")
  ∧ length (Split encodedHash "$") = S (Count encodedHash "$")
  ∧ (∀ msg, decodeHash encodedHash ≠ Panic msg)
  ∧ ((∃ decoded, decodeHash encodedHash = Ok decoded)
     ∨ (∃ e, decodeHash encodedHash = Err e)).
Proof.
  split; [|split; [|split]].
  - intros Hlen. unfold decodeHash.
    by destruct (Nat.eqb_spec (length (Split encodedHash "$")) 6).
  - apply length_Split.
  - intros msg. apply decodeHash_not_Panic.
  - pose proof (decodeHash_not_Panic encodedHash) as Hpanic.
    destruct (decodeHash encodedHash) as [decoded|e|msg]; [by eauto|by eauto|].
    by destruct (Hpanic msg).
Qed.

Lemma decodeHash_rejects_segment_count_witness :
  decodeHash "$argon2id$v=19$m=65536,t=1,p=4$c2FsdA" = Err "invalid hash format"
  ∧ decodeHash "$argon2id$v=19$m=65536,t=1,p=4$c2FsdA$aGFzaA$" = Err "invalid hash format".
Proof.
  split.
  - apply (proj1 (decodeHash_rejects_segment_count
                    "$argon2id$v=19$m=65536,t=1,p=4$c2FsdA")).
    vm_compute. lia.
  - apply (proj1 (decodeHash_rejects_segment_count
                    "$argon2id$v=19$m=65536,t=1,p=4$c2FsdA$aGFzaA$")).
    vm_compute. lia.
Defined.

End UtilFacts.

(** ** Facts about the login service *)

Module ServiceFacts.
Import Go GoFacts Util UtilFacts Service.

Lemma length_append (a b : string) :
  String.length (a +:+ b) = (String.length a + String.length b)%nat.
Proof.
  induction a as [|c a IH]; [done|].
  change (S (String.length (a +:+ b)) = S (String.length a + String.length b)).
  by rewrite IH.
Qed.

Lemma append_assoc (a b c : string) : (a +:+ b) +:+ c = a +:+ (b +:+ c).
Proof.
  induction a as [|d a IH]; [done|].
  change (String d ((a +:+ b) +:+ c) = String d (a +:+ (b +:+ c))).
  by rewrite IH.
Qed.

Lemma append_inv_tail (a b rest : string) : a +:+ rest = b +:+ rest → a = b.
Proof.
  revert b. induction a as [|c a IH]; intros [|d b] H; simpl in H.
  - done.
  - apply (f_equal String.length) in H.
    rewrite !length_append in H. simpl in H. rewrite ?length_append in H. lia.
  - apply (f_equal String.length) in H.
    rewrite !length_append in H. simpl in H. rewrite ?length_append in H. lia.
  - injection H as -> H. f_equal. by apply IH.
Qed.

(** Strip the common leading pieces of two concatenations. *)
Ltac peel H :=
  repeat match type of H with
         | _ +:+ _ = _ +:+ _ => apply String.app_inj in H
         end.

Section WithLibraries.

Variable RFC1123 : Z → string.
Variable IDKey : list byte → list byte → Z → Z → Z → Z → option (list byte).
Variable HMAC : JWT.SigningMethod → list byte → string → list byte.
Variable SigningString : JWT.SigningMethod → JWT.JWTClaims → string.

Local Abbreviation Login := (Login IDKey HMAC SigningString).

(** *** The message texts *)

Lemma SendLoginFailure_password s now username ip userAgent reason p1 p2 :
  enabled s = true →
  SendLoginFailure RFC1123 s now username p1 ip userAgent reason
  = SendLoginFailure RFC1123 s now username p2 ip userAgent reason →
  p1 = p2.
Proof.
  intros Hen. unfold SendLoginFailure. rewrite Hen. cbn [negb].
  intros [= H]. apply (f_equal Text) in H.
  unfold SendMessage in H. destruct (topicID _ >? 0); cbn [Text] in H.
  all: peel H; by apply append_inv_tail in H.
Qed.

Lemma SendLoginSuccess_password s now username ip userAgent p1 p2 :
  enabled s = true →
  SendLoginSuccess RFC1123 s now username p1 ip userAgent
  = SendLoginSuccess RFC1123 s now username p2 ip userAgent →
  p1 = p2.
Proof.
  intros Hen. unfold SendLoginSuccess. rewrite Hen. cbn [negb].
  intros [= H]. apply (f_equal Text) in H.
  unfold SendMessage in H. destruct (topicID _ >? 0); cbn [Text] in H.
  all: peel H; by apply append_inv_tail in H.
Qed.

Lemma SendLoginSuccess_not_failure s now u1 p1 ip1 ua1 u2 p2 ip2 ua2 reason :
  enabled s = true →
  SendLoginSuccess RFC1123 s now u1 p1 ip1 ua1
  ≠ SendLoginFailure RFC1123 s now u2 p2 ip2 ua2 reason.
Proof.
  intros Hen. unfold SendLoginSuccess, SendLoginFailure. rewrite Hen. cbn [negb].
  intros [= H]. apply (f_equal Text) in H.
  unfold SendMessage in H. destruct (topicID _ >? 0); cbn [Text] in H.
  all: apply (f_equal (String.get 1)) in H; cbn in H; discriminate.
Qed.

Lemma Text_SendMessage r message disableNotification :
  Text (SendMessage r message disableNotification) = message.
Proof. unfold SendMessage. by destruct (topicID r >? 0). Qed.

(** The text of either message holds the password between the marker of
    its line and the closing backquote. *)
Lemma deliver_embeds_password s now call :
  enabled s = true →
  ∃ msg before after,
    deliver RFC1123 s now call = [msg]
    ∧ Text msg = before +:+ "🔑 *Password:* `" +:+ notifiedPassword call
                   +:+ "`" +:+ after.
Proof.
  intros Hen.
  destruct call as [username password ip userAgent|username password ip userAgent reason];
    cbn [deliver notifiedPassword]; unfold SendLoginSuccess, SendLoginFailure;
    rewrite Hen; cbn [negb].
  - eexists _, ("✅ *SUCCESSFUL LOGIN*" +:+ nl +:+ nl
                +:+ "👤 *Username:* `" +:+ username +:+ "`" +:+ nl), _.
    split; [reflexivity|]. rewrite Text_SendMessage.
    rewrite !append_assoc. reflexivity.
  - eexists _, ("❌ *FAILED LOGIN ATTEMPT*" +:+ nl +:+ nl
                +:+ "👤 *Username:* `" +:+ username +:+ "`" +:+ nl), _.
    split; [reflexivity|]. rewrite Text_SendMessage.
    rewrite !append_assoc. reflexivity.
Qed.

(** *** The paths of [Login] *)

(** The calls [Login] makes on the Telegram service, by the outcome of the
    lookup and of the password verification. *)
Lemma Login_notified s now jwtManager username password ip userAgent :
  notified (Login s now jwtManager username password ip userAgent)
  = match userRepo s username with
    | Panic _ => []
    | Err _ => [LoginFailure username password ip userAgent "User not found"]
    | Ok user =>
        match VerifyPassword IDKey password (Password user) with
        | Panic _ => []
        | Err _ =>
            [LoginFailure username password ip userAgent "Password verification error"]
        | Ok false => [LoginFailure username password ip userAgent "Invalid password"]
        | Ok true => [LoginSuccess username password ip userAgent]
        end
    end.
Proof.
  unfold Service.Login.
  destruct (userRepo s username) as [user|err|msg]; [|done..].
  destruct (VerifyPassword IDKey password (Password user)) as [[]|err|msg]; done.
Qed.

Lemma Login_returned s now jwtManager username password ip userAgent :
  match userRepo s username with
  | Panic msg => returned (Login s now jwtManager username password ip userAgent)
                 = Panic msg
  | Err _ => returned (Login s now jwtManager username password ip userAgent)
             = Err "invalid credentials"
  | Ok user =>
      match VerifyPassword IDKey password (Password user) with
      | Panic msg => returned (Login s now jwtManager username password ip userAgent)
                     = Panic msg
      | Err _ => returned (Login s now jwtManager username password ip userAgent)
                 = Err "authentication error"
      | Ok false => returned (Login s now jwtManager username password ip userAgent)
                    = Err "invalid credentials"
      | Ok true => ∃ response,
          returned (Login s now jwtManager username password ip userAgent)
          = Ok response ∧ ResponseUser response = user
      end
  end.
Proof.
  unfold Service.Login.
  destruct (userRepo s username) as [user|err|msg]; [|done..].
  destruct (VerifyPassword IDKey password (Password user)) as [[]|err|msg];
    [|done..].
  cbn. by eexists.
Qed.

(** C4.  When the lookup of the user fails, or the password verifies
    cleanly as false, [Login] returns the one error "invalid credentials";
    when the stored hash does not decode it returns another error,
    "authentication error". *)
Theorem login_failure_outcomes
    (s : authService) (now : Z) (jwtManager : option JWT.JWTManager)
    (username password ip userAgent : string) :
  let out := Login s now jwtManager username password ip userAgent in
  (∀ err, userRepo s username = Err err →
     returned out = Err "invalid credentials")
  ∧ (∀ user, userRepo s username = Ok user →
       VerifyPassword IDKey password (Password user) = Ok false →
       returned out = Err "invalid credentials")
  ∧ (∀ user err, userRepo s username = Ok user →
       decodeHash (Password user) = Err err →
       returned out = Err "authentication error")
  ∧ @Err LoginResponse "invalid credentials" ≠ Err "authentication error".
Proof.
  intros out.
  pose proof (Login_returned s now jwtManager username password ip userAgent) as H.
  fold out in H.
  split; [|split; [|split]].
  - intros err Hrepo. by rewrite Hrepo in H.
  - intros user Hrepo Hverify. by rewrite Hrepo, Hverify in H.
  - intros user err Hrepo Hdecode. rewrite Hrepo in H.
    apply (VerifyPassword_Err_iff IDKey password) in Hdecode.
    by rewrite Hdecode in H.
  - discriminate.
Qed.

(** C9, as the code has it.  A login that returns, successful or failed,
    makes exactly one call on the Telegram service, with the password as
    submitted (failed lookups of the user included), so two logins that
    differ in the password only make different calls; a login that panics
    makes none.  The service sends nothing when it is disabled.  When it
    is enabled, the text it hands to the Telegram API holds the password
    verbatim, and two logins that differ in the password only hand over
    different payloads. *)
Theorem login_hands_password_to_telegram
    (s : authService) (now : Z) (jwtManager : option JWT.JWTManager)
    (username password ip userAgent : string) :
  let out := Login s now jwtManager username password ip userAgent in
  (((∃ msg, returned out = Panic msg) ∧ notified out = [])
   ∨ (∃ call, notified out = [call] ∧ notifiedPassword call = password))
  ∧ (∀ err, userRepo s username = Err err →
       notified out = [LoginFailure username password ip userAgent "User not found"])
  ∧ (∀ password', password' ≠ password → notified out ≠ [] →
       notified out
       ≠ notified (Login s now jwtManager username password' ip userAgent))
  ∧ (enabled (telegramService s) = false → payloads RFC1123 s now out = [])
  ∧ (enabled (telegramService s) = true →
       ∀ call, notified out = [call] →
         ∃ msg before after,
           payloads RFC1123 s now out = [msg]
           ∧ Text msg = before +:+ "🔑 *Password:* `" +:+ password +:+ "`" +:+ after)
  ∧ (enabled (telegramService s) = true →
       ∀ password', password' ≠ password →
         let out' := Login s now jwtManager username password' ip userAgent in
         notified out ≠ [] → notified out' ≠ [] →
         payloads RFC1123 s now out ≠ payloads RFC1123 s now out').
Proof.
  intros out.
  pose proof (Login_notified s now jwtManager username password ip userAgent) as Hn.
  pose proof (Login_returned s now jwtManager username password ip userAgent) as Hr.
  fold out in Hn, Hr.
  assert (((∃ msg, returned out = Panic msg) ∧ notified out = [])
          ∨ (∃ call, notified out = [call] ∧ notifiedPassword call = password))
    as Hcall.
  { destruct (userRepo s username) as [user|err|msg];
      [|right; by eauto|left; by eauto].
    destruct (VerifyPassword IDKey password (Password user)) as [[]|err|msg];
      [right; by eauto..|left; by eauto]. }
  split; [exact Hcall|]. split; [|split; [|split; [|split]]].
  - intros err Hrepo. by rewrite Hrepo in Hn.
  - intros password' Hne Hsome Heq.
    pose proof (Login_notified s now jwtManager username password' ip userAgent) as Hn'.
    rewrite <- Heq in Hn'. rewrite Hn in Hn'. clear Hr Hcall Heq.
    destruct (userRepo s username) as [user|err|msg]; [|congruence..].
    destruct (VerifyPassword IDKey password (Password user)) as [[]|err|msg];
      destruct (VerifyPassword IDKey password' (Password user)) as [[]|err'|msg'];
      congruence.
  - intros Hoff. unfold payloads.
    destruct Hcall as [[_ ->]|(call & -> & _)]; [done|].
    cbn [flat_map]. rewrite app_nil_r.
    destruct call; cbn [deliver]; unfold SendLoginSuccess, SendLoginFailure;
      by rewrite Hoff.
  - intros Hon call Hcall'. unfold payloads. rewrite Hcall'.
    cbn [flat_map]. rewrite app_nil_r.
    destruct Hcall as [[_ Hnil]|(call0 & Hcall0 & Hpw)]; [congruence|].
    assert (call0 = call) as -> by congruence.
    rewrite <- Hpw. by apply deliver_embeds_password.
  - intros Hon password' Hne out' Hsome Hsome'.
    pose proof (Login_notified s now jwtManager username password' ip userAgent) as Hn'.
    fold out' in Hn'. unfold payloads. clear Hr Hcall.
    destruct (userRepo s username) as [user|err|msg]; [| |congruence].
    + destruct (VerifyPassword IDKey password (Password user))
        as [valid|err|msg] eqn:Hv; [| |congruence];
      destruct (VerifyPassword IDKey password' (Password user))
        as [valid'|err'|msg'] eqn:Hv'; [| |congruence| | |congruence].
      * rewrite Hn, Hn'.
        destruct valid, valid'; cbn [flat_map deliver]; rewrite !app_nil_r; intros H.
        -- apply SendLoginSuccess_password in H; congruence.
        -- by apply SendLoginSuccess_not_failure in H.
        -- symmetry in H. by apply SendLoginSuccess_not_failure in H.
        -- apply SendLoginFailure_password in H; congruence.
      * apply VerifyPassword_Err_iff in Hv'.
        apply (VerifyPassword_Err_iff IDKey password) in Hv'. congruence.
      * apply VerifyPassword_Err_iff in Hv.
        apply (VerifyPassword_Err_iff IDKey password') in Hv. congruence.
      * rewrite Hn, Hn'. cbn [flat_map deliver]. rewrite !app_nil_r. intros H.
        apply SendLoginFailure_password in H; congruence.
    + rewrite Hn, Hn'. cbn [flat_map deliver]. rewrite !app_nil_r. intros H.
      apply SendLoginFailure_password in H; congruence.
Qed.

End WithLibraries.

Lemma login_failure_outcomes_witness :
  returned (Login toyIDKey JWT.toyHMAC JWT.toySigningString (toyService true) 0 None
              "ghost" "hunter2" "1.2.3.4" "curl")
    = Err "invalid credentials"
  ∧ returned (Login toyIDKey JWT.toyHMAC JWT.toySigningString (toyService true) 0 None
                "admin" "hunter2" "1.2.3.4" "curl")
    = Err "invalid credentials"
  ∧ returned (Login toyIDKey JWT.toyHMAC JWT.toySigningString (toyService true) 0 None
                "broken" "hunter2" "1.2.3.4" "curl")
    = Err "authentication error".
Proof.
  split; [|split].
  - apply (proj1 (login_failure_outcomes toyIDKey JWT.toyHMAC JWT.toySigningString
                    (toyService true) 0 None "ghost" "hunter2" "1.2.3.4" "curl")
             "user not found").
    reflexivity.
  - eapply (proj1 (proj2 (login_failure_outcomes toyIDKey JWT.toyHMAC
                            JWT.toySigningString (toyService true) 0 None
                            "admin" "hunter2" "1.2.3.4" "curl"))).
    + reflexivity.
    + vm_compute. reflexivity.
  - eapply (proj1 (proj2 (proj2 (login_failure_outcomes toyIDKey JWT.toyHMAC
                                   JWT.toySigningString (toyService true) 0 None
                                   "broken" "hunter2" "1.2.3.4" "curl")))).
    + reflexivity.
    + vm_compute. reflexivity.
Defined.

Lemma login_hands_password_to_telegram_witness :
  payloads toyRFC1123 (toyService true) 0
    (Login toyIDKey JWT.toyHMAC JWT.toySigningString (toyService true) 0 None
       "ghost" "hunter2" "1.2.3.4" "curl")
  ≠ payloads toyRFC1123 (toyService true) 0
      (Login toyIDKey JWT.toyHMAC JWT.toySigningString (toyService true) 0 None
         "ghost" "hunter3" "1.2.3.4" "curl").
Proof.
  apply (proj2 (proj2 (proj2 (proj2 (proj2
           (login_hands_password_to_telegram toyRFC1123 toyIDKey JWT.toyHMAC
              JWT.toySigningString (toyService true) 0 None
              "ghost" "hunter2" "1.2.3.4" "curl")))))).
  - reflexivity.
  - discriminate.
  - discriminate.
  - discriminate.
Defined.

(** C9 as it is stated fails when the Telegram service is disabled, which
    is the default configuration: no message text holds the password, and
    two logins that differ in the password only hand the same payloads to
    the Telegram API, namely none. *)
Lemma disabled_service_sends_no_password :
  ¬ (∀ (s : authService) (password : string),
       ∃ msg before after,
         payloads toyRFC1123 s 0
           (Login toyIDKey JWT.toyHMAC JWT.toySigningString s 0 None
              "ghost" password "1.2.3.4" "curl") = [msg]
         ∧ Text msg = before +:+ password +:+ after)
  ∧ ¬ (∀ (s : authService) (password password' : string),
         password ≠ password' →
         payloads toyRFC1123 s 0
           (Login toyIDKey JWT.toyHMAC JWT.toySigningString s 0 None
              "ghost" password "1.2.3.4" "curl")
         ≠ payloads toyRFC1123 s 0
             (Login toyIDKey JWT.toyHMAC JWT.toySigningString s 0 None
                "ghost" password' "1.2.3.4" "curl")).
Proof.
  split.
  - intros H. destruct (H (toyService false) "hunter2") as (msg & _ & _ & Hmsg & _).
    discriminate Hmsg.
  - intros H. apply (H (toyService false) "hunter2" "hunter3"); [discriminate|].
    reflexivity.
Qed.

End ServiceFacts.

(** ** Facts about the brute-force protector *)

Module BruteForceFacts.
Import Go GoFacts BruteForce.

Lemma failures_snoc ip evs ev b :
  failures ip (evs ++ [ev]) b = RecordFailedAttempt ev.1 ip ev.2 (failures ip evs b).
Proof. unfold failures. by rewrite foldl_snoc. Qed.

(** What one failure does to the IP-scope record while the counter stays
    below the IP threshold. *)
Lemma ip_record_step now ip username b n (t : Time) :
  0 ≤ n < 9 →
  ipAttempts b !! ip = Some (mkLoginAttempt ip EmptyString n t zeroTime) →
  ipAttempts (RecordFailedAttempt now ip username b) !! ip
    = Some (mkLoginAttempt ip EmptyString (n + 1) now zeroTime).
Proof.
  intros Hn Hb. unfold RecordFailedAttempt. cbn [ipAttempts].
  rewrite lookup_insert_eq, Hb. cbn.
  rewrite wrap64_small by lia.
  destruct (Z.geb_spec (n + 1) (maxFailedAttempts * 2)) as [Hge|_].
  - unfold maxFailedAttempts in Hge. lia.
  - reflexivity.
Qed.

Lemma ip_record_first now ip username b :
  ipAttempts b !! ip = None →
  ipAttempts (RecordFailedAttempt now ip username b) !! ip
    = Some (mkLoginAttempt ip EmptyString 1 now zeroTime).
Proof.
  intros Hb. unfold RecordFailedAttempt. cbn [ipAttempts].
  by rewrite lookup_insert_eq, Hb.
Qed.

(** The tenth failure from an IP whose record is not blocked starts the
    initial 60-second block. *)
Lemma ip_record_tenth now ip username b (t : Time) :
  0 ≤ now →
  ipAttempts b !! ip = Some (mkLoginAttempt ip EmptyString 9 t zeroTime) →
  ipAttempts (RecordFailedAttempt now ip username b) !! ip
    = Some (mkLoginAttempt ip EmptyString 10 now (now + 60 * Second)).
Proof.
  intros Hnow Hb. unfold RecordFailedAttempt. cbn [ipAttempts].
  rewrite lookup_insert_eq, Hb. cbn.
  unfold After, zeroTime. cbn.
  destruct (Z.ltb_spec now 0) as [Hlt|_]; [lia|]. reflexivity.
Qed.

Lemma ip_record_accumulating ip (evs : list (Time * string)) :
  evs ≠ [] → (length evs < 10)%nat →
  ipAttempts (failures ip evs GetBruteForceProtector) !! ip
    = Some (mkLoginAttempt ip EmptyString (Z.of_nat (length evs)) (lastTime evs) zeroTime).
Proof.
  induction evs as [|ev evs IH] using rev_ind; [done|].
  intros _ Hlen. rewrite length_app in Hlen. cbn in Hlen.
  rewrite failures_snoc. unfold lastTime. rewrite last_snoc.
  rewrite length_app. cbn [length].
  destruct (decide (evs = [])) as [->|Hne].
  - change (failures ip [] GetBruteForceProtector) with GetBruteForceProtector.
    by rewrite ip_record_first.
  - rewrite (ip_record_step _ _ _ _ (Z.of_nat (length evs)) (lastTime evs)).
    + do 3 f_equal. lia.
    + lia.
    + apply IH; [done|lia].
Qed.

Lemma account_record_first now ip username b :
  attempts b !! accountKey ip username = None →
  attempts (RecordFailedAttempt now ip username b) !! accountKey ip username
    = Some (mkLoginAttempt ip username 1 now zeroTime).
Proof.
  unfold accountKey. intros Hb. unfold RecordFailedAttempt. cbn [attempts].
  by rewrite lookup_insert_eq, Hb.
Qed.

Lemma account_record_step now ip username b n (t : Time) :
  0 ≤ n < 4 →
  attempts b !! accountKey ip username = Some (mkLoginAttempt ip username n t zeroTime) →
  attempts (RecordFailedAttempt now ip username b) !! accountKey ip username
    = Some (mkLoginAttempt ip username (n + 1) now zeroTime).
Proof.
  unfold accountKey. intros Hn Hb. unfold RecordFailedAttempt. cbn [attempts].
  rewrite lookup_insert_eq, Hb. cbn.
  rewrite wrap64_small by lia.
  destruct (Z.geb_spec (n + 1) maxFailedAttempts) as [Hge|_].
  - unfold maxFailedAttempts in Hge. lia.
  - reflexivity.
Qed.

(** The fifth failure on an account record that is not blocked starts the
    initial 30-second block. *)
Lemma account_record_fifth now ip username b (t : Time) :
  0 ≤ now →
  attempts b !! accountKey ip username = Some (mkLoginAttempt ip username 4 t zeroTime) →
  attempts (RecordFailedAttempt now ip username b) !! accountKey ip username
    = Some (mkLoginAttempt ip username 5 now (now + 30 * Second)).
Proof.
  unfold accountKey. intros Hnow Hb. unfold RecordFailedAttempt. cbn [attempts].
  rewrite lookup_insert_eq, Hb. cbn.
  unfold After, zeroTime. cbn.
  destruct (Z.ltb_spec now 0) as [Hlt|_]; [lia|]. reflexivity.
Qed.

Lemma account_record_accumulating ip username (ts : list Time) :
  ts ≠ [] → (length ts < 5)%nat →
  attempts (failures ip (sameUser username ts) GetBruteForceProtector)
      !! accountKey ip username
    = Some (mkLoginAttempt ip username (Z.of_nat (length ts))
              (lastTime (sameUser username ts)) zeroTime).
Proof.
  induction ts as [|t ts IH] using rev_ind; [done|].
  intros _ Hlen. rewrite length_app in Hlen. cbn in Hlen.
  unfold sameUser in *. rewrite map_app. cbn [map].
  rewrite failures_snoc. unfold lastTime at 1. rewrite last_snoc.
  rewrite length_app. cbn [length fst snd].
  destruct (decide (ts = [])) as [->|Hne].
  - change (failures ip (map _ []) GetBruteForceProtector) with GetBruteForceProtector.
    by rewrite account_record_first.
  - rewrite (account_record_step _ _ _ _ (Z.of_nat (length ts))
               (lastTime (map (λ t, (t, username)) ts))).
    + do 3 f_equal. lia.
    + lia.
    + apply IH; [done|lia].
Qed.

Lemma length_sameUser username ts : length (sameUser username ts) = length ts.
Proof. apply length_map. Qed.

Lemma blockedIn_zero m k now (a : LoginAttempt) :
  0 ≤ now → m !! k = Some a → BlockedUntil a = zeroTime → blockedIn m k now = None.
Proof.
  intros Hnow Hm Hz. unfold blockedIn. rewrite Hm, Hz.
  unfold After, zeroTime. by destruct (Z.ltb_spec now 0); [lia|].
Qed.

Lemma blockedIn_None m k now : m !! k = None → blockedIn m k now = None.
Proof. intros Hm. unfold blockedIn. by rewrite Hm. Qed.

Lemma blockedIn_active m k now (a : LoginAttempt) :
  m !! k = Some a → now < BlockedUntil a → blockedIn m k now = Some (BlockedUntil a).
Proof.
  intros Hm Hlt. unfold blockedIn. rewrite Hm.
  unfold After. by destruct (Z.ltb_spec now (BlockedUntil a)); [|lia].
Qed.

(** Fewer than five failures from a clean protector block nothing. *)
Lemma below_threshold_not_blocked ip username (ts : list Time) (now : Time) :
  (length ts < 5)%nat → 0 ≤ now →
  IsBlocked now ip username
    (failures ip (sameUser username ts) GetBruteForceProtector) = (false, zeroTime).
Proof.
  intros Hlen Hnow. unfold IsBlocked. fold (accountKey ip username).
  destruct (decide (ts = [])) as [->|Hne].
  - cbn. by rewrite !blockedIn_None.
  - pose proof (account_record_accumulating ip username ts Hne Hlen) as Hacc.
    assert (ipAttempts (failures ip (sameUser username ts) GetBruteForceProtector) !! ip
            = Some (mkLoginAttempt ip EmptyString (Z.of_nat (length (sameUser username ts)))
                      (lastTime (sameUser username ts)) zeroTime)) as Hip.
    { apply ip_record_accumulating.
      - by destruct ts.
      - rewrite length_sameUser. lia. }
    rewrite (blockedIn_zero _ _ _ _ Hnow Hacc eq_refl).
    by rewrite (blockedIn_zero _ _ _ _ Hnow Hip eq_refl).
Qed.

(** The fifth failure blocks the account for thirty seconds. *)
Lemma fifth_failure_blocks ip username (ts : list Time) (t5 now : Time) :
  length ts = 4%nat → 0 ≤ t5 → t5 ≤ now < t5 + 30 * Second →
  IsBlocked now ip username
    (failures ip (sameUser username (ts ++ [t5])) GetBruteForceProtector)
    = (true, t5 + 30 * Second).
Proof.
  intros Hlen Ht5 Hnow. unfold IsBlocked. fold (accountKey ip username).
  unfold sameUser. rewrite map_app. cbn [map]. rewrite failures_snoc. cbn [fst snd].
  assert (attempts (failures ip (map (λ t, (t, username)) ts) GetBruteForceProtector)
            !! accountKey ip username
          = Some (mkLoginAttempt ip username 4
                    (lastTime (sameUser username ts)) zeroTime)) as Hacc.
  { fold (sameUser username ts).
    rewrite (account_record_accumulating ip username ts).
    - by rewrite Hlen.
    - by destruct ts.
    - lia. }
  pose proof (account_record_fifth t5 ip username _ _ Ht5 Hacc) as Hfifth.
  rewrite (blockedIn_active _ _ _ _ Hfifth); [done|cbn; lia].
Qed.

(** What a failure does to an account record that is already blocked: the
    record's [LastFailedAt] has been overwritten with [now] before
    [prevDuration] is computed, so the multiplier applies to the time the
    block still had to run. *)
Lemma account_record_reblock now ip username b (a : LoginAttempt) :
  attempts b !! accountKey ip username = Some a →
  4 ≤ FailedAttempts a < 2 ^ 62 →
  now < BlockedUntil a ≤ now + 2 ^ 61 →
  attempts (RecordFailedAttempt now ip username b) !! accountKey ip username
    = Some (mkLoginAttempt (IP a) (Username a) (FailedAttempts a + 1) now
              (now + Z.min (2 * (BlockedUntil a - now)) (86400 * Second))).
Proof.
  unfold accountKey. intros Hb Hn Hblk. unfold RecordFailedAttempt. cbn [attempts].
  rewrite lookup_insert_eq, Hb. cbn.
  rewrite wrap64_small by lia.
  destruct (Z.geb_spec (FailedAttempts a + 1) maxFailedAttempts) as [_|Hlt];
    [|unfold maxFailedAttempts in Hlt; lia].
  unfold After. destruct (Z.ltb_spec now (BlockedUntil a)) as [_|?]; [|lia].
  unfold setBlockedUntil, Add, mulDuration, Sub, blockMultiplier,
    maxBlockDuration, minDuration, maxDuration.
  cbn [IP Username FailedAttempts LastFailedAt BlockedUntil].
  rewrite Z.min_r by lia. rewrite Z.max_r by lia.
  rewrite wrap64_small by lia.
  do 2 f_equal.
  destruct (Z.gtb_spec ((BlockedUntil a - now) * 2) (86400 * Second)); lia.
Qed.

(** The IP-scope branch does the same. *)
Lemma ip_record_reblock now ip username b (a : LoginAttempt) :
  ipAttempts b !! ip = Some a →
  9 ≤ FailedAttempts a < 2 ^ 62 →
  now < BlockedUntil a ≤ now + 2 ^ 61 →
  ipAttempts (RecordFailedAttempt now ip username b) !! ip
    = Some (mkLoginAttempt (IP a) (Username a) (FailedAttempts a + 1) now
              (now + Z.min (2 * (BlockedUntil a - now)) (86400 * Second))).
Proof.
  intros Hb Hn Hblk. unfold RecordFailedAttempt. cbn [ipAttempts].
  rewrite lookup_insert_eq, Hb. cbn.
  rewrite wrap64_small by lia.
  destruct (Z.geb_spec (FailedAttempts a + 1) (maxFailedAttempts * 2)) as [_|Hlt];
    [|unfold maxFailedAttempts in Hlt; lia].
  unfold After. destruct (Z.ltb_spec now (BlockedUntil a)) as [_|?]; [|lia].
  unfold setBlockedUntil, Add, mulDuration, Sub, blockMultiplier,
    maxBlockDuration, minDuration, maxDuration.
  cbn [IP Username FailedAttempts LastFailedAt BlockedUntil].
  rewrite Z.min_r by lia. rewrite Z.max_r by lia.
  rewrite wrap64_small by lia.
  do 2 f_equal.
  destruct (Z.gtb_spec ((BlockedUntil a - now) * 2) (86400 * Second)); lia.
Qed.

(** An eleventh failure from an IP, [d] nanoseconds after the tenth has
    started the 60-second block, sets a block of twice [60s - d]. *)
Lemma eleventh_failure_doubles_remaining_time
    (ip : string) (evs : list (Z * string)) (t10 d : Z) (u10 u11 : string) :
  length evs = 9%nat → 0 ≤ t10 → 0 ≤ d < 60 * Second →
  ipAttempts (failures ip (evs ++ [(t10, u10); (t10 + d, u11)]) GetBruteForceProtector)
      !! ip
    = Some (mkLoginAttempt ip EmptyString 11 (t10 + d)
              ((t10 + d) + 2 * (60 * Second - d))).
Proof.
  intros Hlen Ht10 Hd.
  replace (evs ++ [(t10, u10); (t10 + d, u11)])
    with ((evs ++ [(t10, u10)]) ++ [(t10 + d, u11)]) by (by rewrite <- app_assoc).
  rewrite failures_snoc, failures_snoc. cbn [fst snd].
  assert (ipAttempts (failures ip evs GetBruteForceProtector) !! ip
          = Some (mkLoginAttempt ip EmptyString 9 (lastTime evs) zeroTime)) as Hacc.
  { rewrite ip_record_accumulating; [|by destruct evs|lia].
    do 2 f_equal. lia. }
  pose proof (ip_record_tenth t10 ip u10 _ _ Ht10 Hacc) as Htenth.
  rewrite (ip_record_reblock _ _ _ _ _ Htenth); cbn; unfold Second in *; try lia.
  do 2 f_equal. lia.
Qed.

Lemma accountKey_inj ip u1 u2 : accountKey ip u1 = accountKey ip u2 → u1 = u2.
Proof.
  unfold accountKey. induction ip as [|c ip IH]; cbn; intros H.
  - by injection H.
  - injection H as H. by apply IH.
Qed.

(** *** Blocking thresholds, block lengths and the effect of a success *)

(** C1, evaluated on the code.  Five failures for one (ip, username), the
    fifth at [t5], block the account until [t5 + 30s].  A sixth failure
    [d] nanoseconds later, while that block is running, sets the new block
    to twice the REMAINING time [30s - d], not to twice the prior block's
    length: the block lasts 60 seconds only when [d = 0]. *)
Theorem sixth_failure_doubles_remaining_time
    (ip username : string) (ts : list Time) (t5 d : Time) :
  length ts = 4%nat → 0 ≤ t5 → 0 ≤ d < 30 * Second →
  attempts (failures ip (sameUser username (ts ++ [t5; t5 + d])) GetBruteForceProtector)
      !! accountKey ip username
    = Some (mkLoginAttempt ip username 6 (t5 + d)
              ((t5 + d) + 2 * (30 * Second - d))).
Proof.
  intros Hlen Ht5 Hd.
  replace (ts ++ [t5; t5 + d]) with ((ts ++ [t5]) ++ [t5 + d])
    by (by rewrite <- app_assoc).
  unfold sameUser. rewrite map_app. cbn [map]. rewrite failures_snoc. cbn [fst snd].
  rewrite map_app. cbn [map]. rewrite failures_snoc. cbn [fst snd].
  assert (attempts (failures ip (map (λ t, (t, username)) ts) GetBruteForceProtector)
            !! accountKey ip username
          = Some (mkLoginAttempt ip username 4
                    (lastTime (sameUser username ts)) zeroTime)) as Hacc.
  { fold (sameUser username ts).
    rewrite (account_record_accumulating ip username ts).
    - by rewrite Hlen.
    - by destruct ts.
    - lia. }
  pose proof (account_record_fifth t5 ip username _ _ Ht5 Hacc) as Hfifth.
  rewrite (account_record_reblock _ _ _ _ _ Hfifth); cbn; unfold Second in *; try lia.
  do 2 f_equal. lia.
Qed.

Lemma sixth_failure_doubles_remaining_time_witness :
  let t5 := 63900000000 * Second in
  attempts (failures "1.2.3.4"
              (sameUser "admin" [t5; t5; t5; t5; t5; t5 + 10 * Second])
              GetBruteForceProtector)
      !! "1.2.3.4:admin"
    = Some (mkLoginAttempt "1.2.3.4" "admin" 6 (t5 + 10 * Second)
              ((t5 + 10 * Second) + 40 * Second)).
Proof.
  intros t5.
  apply (sixth_failure_doubles_remaining_time
           "1.2.3.4" "admin" [t5; t5; t5; t5] t5 (10 * Second)).
  - reflexivity.
  - unfold t5, Second. lia.
  - unfold Second. lia.
Defined.

(** C3.  From a clean protector: fewer than five failures for one
    (ip, username) block nothing; the fifth makes [IsBlocked] answer true
    with the block ending 30 seconds after that failure, so the time left
    is 30 seconds less the time elapsed since; the IP-scope record stays
    unblocked below ten failures from the IP, whatever the usernames, and
    the tenth starts a 60-second block that holds for every username. *)
Theorem thresholds_from_clean_state (ip : string) :
  (∀ username ts now, (length ts < 5)%nat → 0 ≤ now →
     IsBlocked now ip username
       (failures ip (sameUser username ts) GetBruteForceProtector)
     = (false, zeroTime))
  ∧ (∀ username ts t5 now,
       length ts = 4%nat → 0 ≤ t5 → t5 ≤ now < t5 + 30 * Second →
       IsBlocked now ip username
         (failures ip (sameUser username (ts ++ [t5])) GetBruteForceProtector)
       = (true, t5 + 30 * Second)
       ∧ Sub (t5 + 30 * Second) now = 30 * Second - (now - t5))
  ∧ (∀ evs now, (length evs < 10)%nat → 0 ≤ now →
       blockedIn (ipAttempts (failures ip evs GetBruteForceProtector)) ip now = None)
  ∧ (∀ evs t10 u10, length evs = 9%nat → 0 ≤ t10 →
       let b := failures ip (evs ++ [(t10, u10)]) GetBruteForceProtector in
       ipAttempts b !! ip
         = Some (mkLoginAttempt ip EmptyString 10 t10 (t10 + 60 * Second))
       ∧ ∀ now username, t10 ≤ now < t10 + 60 * Second →
           (IsBlocked now ip username b).1 = true).
Proof.
  split; [|split; [|split]].
  - intros username ts now Hlen Hnow. by apply below_threshold_not_blocked.
  - intros username ts t5 now Hlen Ht5 Hnow. split.
    + by apply fifth_failure_blocks.
    + unfold Sub, minDuration, maxDuration, Second in *. lia.
  - intros evs now Hlen Hnow.
    destruct (decide (evs = [])) as [->|Hne].
    + by apply blockedIn_None.
    + pose proof (ip_record_accumulating ip evs Hne Hlen) as Hip.
      exact (blockedIn_zero _ _ _ _ Hnow Hip eq_refl).
  - intros evs t10 u10 Hlen Ht10 b.
    assert (ipAttempts b !! ip
            = Some (mkLoginAttempt ip EmptyString 10 t10 (t10 + 60 * Second))) as Hip.
    { unfold b. rewrite failures_snoc. cbn [fst snd].
      apply (ip_record_tenth _ _ _ _ (lastTime evs)); [done|].
      rewrite ip_record_accumulating; [|by destruct evs|lia].
      do 2 f_equal. lia. }
    split; [done|].
    intros now username Hnow. unfold IsBlocked.
    destruct (blockedIn (attempts b) _ now); [done|].
    by rewrite (blockedIn_active _ _ _ _ Hip) by (cbn; lia).
Qed.

Lemma thresholds_from_clean_state_witness :
  IsBlocked (12 * Second) "1.2.3.4" "admin"
    (failures "1.2.3.4" (sameUser "admin" ([1; 2; 3; 4] ++ [5])) GetBruteForceProtector)
  = (true, 5 + 30 * Second).
Proof.
  apply (proj1 (proj2 (thresholds_from_clean_state "1.2.3.4"))
           "admin" [1; 2; 3; 4] 5 (12 * Second)).
  - reflexivity.
  - lia.
  - unfold Second. lia.
Defined.

(** C5.  [RecordSuccessfulAttempt] deletes the account-scope record of
    its own key and nothing else: the IP-scope map is the same, every
    other account-scope key keeps its record, and what [IsBlocked]
    answers for another username of the same IP does not change; so a
    success for "alice" leaves a blocked "bob" blocked. *)
Theorem record_success_frame (ip username : string) (b : BruteForceProtector) :
  let b' := RecordSuccessfulAttempt ip username b in
  ipAttempts b' = ipAttempts b
  ∧ attempts b' !! accountKey ip username = None
  ∧ (∀ k, k ≠ accountKey ip username → attempts b' !! k = attempts b !! k)
  ∧ (∀ other now, other ≠ username →
       IsBlocked now ip other b' = IsBlocked now ip other b)
  ∧ (∀ now, IsBlocked now ip "bob" (RecordSuccessfulAttempt ip "alice" b)
            = IsBlocked now ip "bob" b).
Proof.
  assert (∀ u other now, other ≠ u →
            IsBlocked now ip other (RecordSuccessfulAttempt ip u b)
            = IsBlocked now ip other b) as Hframe.
  { intros u other now Hne. unfold IsBlocked, RecordSuccessfulAttempt, blockedIn.
    cbn [attempts ipAttempts].
    rewrite lookup_delete_ne; [done|].
    intros Heq. apply Hne. symmetry. by apply (accountKey_inj ip). }
  cbn zeta. unfold RecordSuccessfulAttempt. fold (accountKey ip username).
  cbn [attempts ipAttempts].
  split; [done|]. split; [apply lookup_delete_eq|].
  split; [intros k Hk; by apply lookup_delete_ne|].
  split; [intros other now Hne; by apply Hframe|].
  intros now. by apply Hframe.
Qed.

Lemma record_success_frame_witness :
  IsBlocked 7 "1.2.3.4" "bob"
    (RecordSuccessfulAttempt "1.2.3.4" "alice"
       (failures "1.2.3.4" (sameUser "bob" [1; 2; 3; 4; 5]) GetBruteForceProtector))
  = IsBlocked 7 "1.2.3.4" "bob"
      (failures "1.2.3.4" (sameUser "bob" [1; 2; 3; 4; 5]) GetBruteForceProtector).
Proof.
  apply (proj1 (proj2 (proj2 (proj2
           (record_success_frame "1.2.3.4" "alice"
              (failures "1.2.3.4" (sameUser "bob" [1; 2; 3; 4; 5])
                 GetBruteForceProtector)))))).
  discriminate.
Defined.

End BruteForceFacts.

(** ** Further facts about the brute-force protector *)

Module ProtectorFacts.
Import Go GoFacts BruteForce BruteForceFacts.

(** *** The sweep *)

Lemma lookup_swept now (m : gmap string LoginAttempt) k :
  filter (λ kv, expired now kv.2 = false) m !! k
  = match m !! k with
    | Some a => if expired now a then None else Some a
    | None => None
    end.
Proof.
  destruct (m !! k) as [a|] eqn:Hm.
  - destruct (expired now a) eqn:He.
    + apply map_lookup_filter_None. right. intros a' Ha'. cbn. congruence.
    + by apply map_lookup_filter_Some.
  - apply map_lookup_filter_None. by left.
Qed.

Lemma blockedIn_swept now now' (m : gmap string LoginAttempt) k :
  now ≤ now' →
  blockedIn (filter (λ kv, expired now kv.2 = false) m) k now' = blockedIn m k now'.
Proof.
  intros Hle. unfold blockedIn. rewrite lookup_swept.
  destruct (m !! k) as [a|]; [|done].
  destruct (expired now a) eqn:He; [|done].
  unfold expired, Before in He. apply andb_prop in He as [He _].
  apply Z.ltb_lt in He. unfold After.
  by destruct (Z.ltb_spec now' (BlockedUntil a)); [lia|].
Qed.

(** X1.  A sweep never lifts a block: whatever [IsBlocked] answers at the
    time of the sweep or later, it answers the same after the sweep. *)
Theorem cleanup_lifts_no_block (now now' : Time) (ip username : string)
    (b : BruteForceProtector) :
  now ≤ now' →
  IsBlocked now' ip username (cleanup now b) = IsBlocked now' ip username b.
Proof.
  intros Hle. unfold IsBlocked, cleanup. cbn [attempts ipAttempts].
  by rewrite !blockedIn_swept.
Qed.

Lemma cleanup_lifts_no_block_witness :
  IsBlocked (4000 * Second) "1.2.3.4" "admin"
    (cleanup (3000 * Second)
       (failures "1.2.3.4" (sameUser "admin" [1; 2; 3; 4; 5]) GetBruteForceProtector))
  = IsBlocked (4000 * Second) "1.2.3.4" "admin"
      (failures "1.2.3.4" (sameUser "admin" [1; 2; 3; 4; 5]) GetBruteForceProtector).
Proof.
  apply (cleanup_lifts_no_block (3000 * Second) (4000 * Second)).
  unfold Second. lia.
Defined.

Lemma RecordFailedAttempt_strike now ip username b :
  RecordFailedAttempt now ip username b
  = {| attempts :=
         <[accountKey ip username :=
             strike maxFailedAttempts initialBlockDuration now
               (default (fresh ip username) (attempts b !! accountKey ip username))]>
           (attempts b);
       ipAttempts :=
         <[ip := strike (maxFailedAttempts * 2) (initialBlockDuration * 2) now
                   (default (fresh ip EmptyString) (ipAttempts b !! ip))]>
           (ipAttempts b) |}.
Proof.
  unfold RecordFailedAttempt, strike, accountKey, fresh.
  by destruct (attempts b !! _), (ipAttempts b !! _).
Qed.

Lemma strike_fresh threshold initial now ip username :
  1 < threshold →
  strike threshold initial now (fresh ip username)
  = mkLoginAttempt ip username 1 now zeroTime.
Proof.
  intros Ht. unfold strike, fresh, setFailure.
  cbn [IP Username FailedAttempts LastFailedAt BlockedUntil].
  rewrite wrap64_small by lia. change (0 + 1) with 1.
  by destruct (Z.geb_spec 1 threshold); [lia|].
Qed.

(** X2.  The thirty minutes after which failures no longer count act
    through the sweep only.  Once a sweep has found an account record
    with its block over and its last failure more than 30 minutes old,
    the next failure of the account is its first again; a record that is
    blocked still, or failed within the 30 minutes, goes on counting as
    if no sweep had run. *)
Theorem cleanup_forgets_stale_failures (now now' : Time) (ip username : string)
    (b : BruteForceProtector) (a : LoginAttempt) :
  attempts b !! accountKey ip username = Some a →
  (BlockedUntil a < now → LastFailedAt a + 1800 * Second < now →
     attempts (RecordFailedAttempt now' ip username (cleanup now b))
       !! accountKey ip username
     = Some (mkLoginAttempt ip username 1 now' zeroTime))
  ∧ (now ≤ BlockedUntil a ∨ now ≤ LastFailedAt a + 1800 * Second →
     attempts (RecordFailedAttempt now' ip username (cleanup now b))
       !! accountKey ip username
     = attempts (RecordFailedAttempt now' ip username b) !! accountKey ip username).
Proof.
  intros Ha. rewrite !RecordFailedAttempt_strike. cbn [attempts].
  rewrite !lookup_insert_eq. unfold cleanup. cbn [attempts].
  rewrite lookup_swept, Ha. unfold expired, Before, Add, failedAttemptsTimeout.
  split.
  - intros Hblock Hlast.
    destruct (Z.ltb_spec (BlockedUntil a) now); [|lia].
    destruct (Z.ltb_spec (LastFailedAt a + Second * 1800) now); [|lia].
    cbn [andb default]. by rewrite strike_fresh.
  - intros Hrecent.
    destruct (Z.ltb_spec (BlockedUntil a) now);
      destruct (Z.ltb_spec (LastFailedAt a + Second * 1800) now);
      cbn [andb default]; try done.
    lia.
Qed.

Lemma cleanup_forgets_stale_failures_witness :
  let b := failures "1.2.3.4" (sameUser "admin" [1; 2; 3; 4]) GetBruteForceProtector in
  attempts (RecordFailedAttempt (2000 * Second) "1.2.3.4" "admin"
              (cleanup (1900 * Second) b)) !! "1.2.3.4:admin"
  = Some (mkLoginAttempt "1.2.3.4" "admin" 1 (2000 * Second) zeroTime).
Proof.
  intros b.
  apply (proj1 (cleanup_forgets_stale_failures (1900 * Second) (2000 * Second)
                  "1.2.3.4" "admin" b (mkLoginAttempt "1.2.3.4" "admin" 4 4 zeroTime)
                  ltac:(vm_compute; reflexivity))).
  - vm_compute. reflexivity.
  - vm_compute. reflexivity.
Defined.

(** *** What every history keeps *)

Lemma kept_weaken threshold latest latest' n n' a :
  kept threshold latest n a → latest ≤ latest' → n ≤ n' →
  kept threshold latest' n' a.
Proof. unfold kept. intros (? & ? & ? & ?) ? ?. repeat split; try done; lia. Qed.

Lemma strike_kept threshold initial latest n now a :
  kept threshold latest n a → latest ≤ now → 0 ≤ now → n + 1 < 2 ^ 63 →
  0 < initial ≤ maxBlockDuration →
  kept threshold now (n + 1) (strike threshold initial now a).
Proof.
  unfold kept. intros (Hn & Hlast & Hbelow & Hfrom) Hnow Hpos Hmax Hinit.
  unfold strike, setFailure, setBlockedUntil.
  cbn [IP Username FailedAttempts LastFailedAt BlockedUntil].
  rewrite wrap64_small by lia.
  destruct (Z.geb_spec (FailedAttempts a + 1) threshold) as [Hge|Hlt];
    cbn [IP Username FailedAttempts LastFailedAt BlockedUntil].
  - split; [lia|]. split; [lia|]. split; [lia|]. intros _.
    unfold After, Add, Sub, mulDuration, blockMultiplier, maxBlockDuration,
      minDuration, maxDuration, Second, zeroTime in *.
    destruct (Z.ltb_spec now (BlockedUntil a)) as [Hblocked|Hfree]; [|lia].
    assert (threshold ≤ FailedAttempts a) as Hthr.
    { destruct (Z.le_gt_cases threshold (FailedAttempts a)) as [|Hb]; [done|].
      specialize (Hbelow Hb). lia. }
    specialize (Hfrom Hthr).
    rewrite Z.min_r by lia. rewrite Z.max_r by lia.
    rewrite wrap64_small by lia.
    destruct (Z.gtb_spec ((BlockedUntil a - now) * 2) (86400 * 1000000000)); lia.
  - split; [lia|]. split; [lia|]. split; [intros _; apply Hbelow; lia|lia].
Qed.

Lemma history_kept (cs : list call) :
  ∀ (b : BruteForceProtector) (latest n : Z),
    0 ≤ latest → 0 ≤ n →
    (∀ k a, attempts b !! k = Some a → kept 5 latest n a) →
    (∀ k a, ipAttempts b !! k = Some a → kept 10 latest n a) →
    chronological latest cs → n + Z.of_nat (length cs) < 2 ^ 63 →
    ∃ latest',
      (∀ k a, attempts (history cs b) !! k = Some a
              → kept 5 latest' (n + Z.of_nat (length cs)) a)
      ∧ (∀ k a, ipAttempts (history cs b) !! k = Some a
                → kept 10 latest' (n + Z.of_nat (length cs)) a).
Proof.
  induction cs as [|c cs IH]; intros b latest n Hlatest Hn Hacc Hip Hchron Hlen.
  - exists latest. cbn. rewrite Z.add_0_r. by split.
  - cbn [length] in Hlen. rewrite Nat2Z.inj_succ in Hlen.
    change (history (c :: cs) b) with (history cs (perform b c)).
    cbn [length]. rewrite Nat2Z.inj_succ.
    replace (n + Z.succ (Z.of_nat (length cs))) with ((n + 1) + Z.of_nat (length cs))
      by lia.
    destruct c as [now ip username|ip username|now]; cbn [chronological] in Hchron.
    + destruct Hchron as [Hle Hchron].
      apply (IH _ now (n + 1)); [lia|lia| | |done|lia];
        cbn [perform]; rewrite RecordFailedAttempt_strike; cbn [attempts ipAttempts];
        intros k a Hk.
      * destruct (decide (accountKey ip username = k)) as [<-|Hne].
        -- rewrite lookup_insert_eq in Hk. injection Hk as <-.
           destruct (attempts b !! accountKey ip username) as [a0|] eqn:Ha0;
             cbn [default].
           ++ apply (strike_kept _ _ latest); [by eapply Hacc|lia..|done].
           ++ rewrite strike_fresh by done. unfold kept. cbn. lia.
        -- rewrite lookup_insert_ne in Hk by done.
           apply (kept_weaken _ latest _ n); [by eapply Hacc|lia..].
      * destruct (decide (ip = k)) as [<-|Hne].
        -- rewrite lookup_insert_eq in Hk. injection Hk as <-.
           destruct (ipAttempts b !! ip) as [a0|] eqn:Ha0; cbn [default].
           ++ apply (strike_kept _ _ latest); [by eapply Hip|lia..|done].
           ++ rewrite strike_fresh by done. unfold kept. cbn. lia.
        -- rewrite lookup_insert_ne in Hk by done.
           apply (kept_weaken _ latest _ n); [by eapply Hip|lia..].
    + apply (IH _ latest (n + 1)); [lia|lia| | |done|lia];
        cbn [perform]; unfold RecordSuccessfulAttempt; cbn [attempts ipAttempts];
        intros k a Hk.
      * apply lookup_delete_Some in Hk as [_ Hk].
        apply (kept_weaken _ latest _ n); [by eapply Hacc|lia..].
      * apply (kept_weaken _ latest _ n); [by eapply Hip|lia..].
    + destruct Hchron as [Hle Hchron].
      apply (IH _ now (n + 1)); [lia|lia| | |done|lia];
        cbn [perform]; unfold cleanup; cbn [attempts ipAttempts];
        intros k a Hk; apply map_lookup_filter_Some in Hk as [Hk _].
      * apply (kept_weaken _ latest _ n); [by eapply Hacc|lia..].
      * apply (kept_weaken _ latest _ n); [by eapply Hip|lia..].
Qed.

(** X3.  In the protector that any history of calls leaves behind, the
    clock not going back and the history being short of 2^63 calls: an
    account record counts at least one failure and at most as many as
    there were calls, it carries no block below five failures, and from
    five on its block ends after its last failure and at most 24 hours
    after it; the same holds of an IP record with ten for five. *)
Theorem blocks_keep_thresholds_and_cap (cs : list call) :
  chronological 0 cs → Z.of_nat (length cs) < 2 ^ 63 →
  let b := history cs GetBruteForceProtector in
  (∀ k a, attempts b !! k = Some a →
     1 ≤ FailedAttempts a ≤ Z.of_nat (length cs)
     ∧ (FailedAttempts a < 5 → BlockedUntil a = zeroTime)
     ∧ (5 ≤ FailedAttempts a →
        LastFailedAt a < BlockedUntil a ≤ LastFailedAt a + 86400 * Second))
  ∧ (∀ k a, ipAttempts b !! k = Some a →
       1 ≤ FailedAttempts a ≤ Z.of_nat (length cs)
       ∧ (FailedAttempts a < 10 → BlockedUntil a = zeroTime)
       ∧ (10 ≤ FailedAttempts a →
          LastFailedAt a < BlockedUntil a ≤ LastFailedAt a + 86400 * Second)).
Proof.
  intros Hchron Hlen b.
  destruct (history_kept cs GetBruteForceProtector 0 0) as (latest & Hacc & Hip);
    [done|done|done|done|done|lia|].
  split; intros k a Hk.
  - destruct (Hacc k a Hk) as (Hn & _ & Hbelow & Hfrom).
    unfold maxBlockDuration in Hfrom.
    split; [lia|]. split; [exact Hbelow|]. intros H. specialize (Hfrom H). lia.
  - destruct (Hip k a Hk) as (Hn & _ & Hbelow & Hfrom).
    unfold maxBlockDuration in Hfrom.
    split; [lia|]. split; [exact Hbelow|]. intros H. specialize (Hfrom H). lia.
Qed.

Lemma blocks_keep_thresholds_and_cap_witness :
  let cs := [Failure 1 "1.2.3.4" "admin"; Sweep 2; Failure 3 "1.2.3.4" "admin";
             Success "1.2.3.4" "bob"; Failure 4 "1.2.3.4" "admin"] in
  let a := mkLoginAttempt "1.2.3.4" "admin" 3 4 zeroTime in
  attempts (history cs GetBruteForceProtector) !! "1.2.3.4:admin" = Some a
  ∧ (FailedAttempts a < 5 → BlockedUntil a = zeroTime).
Proof.
  intros cs a.
  assert (attempts (history cs GetBruteForceProtector) !! "1.2.3.4:admin" = Some a)
    as Ha by (vm_compute; reflexivity).
  split; [exact Ha|].
  apply (proj1 (blocks_keep_thresholds_and_cap cs ltac:(cbn; lia) ltac:(cbn; lia))
           _ a Ha).
Defined.

(** *** The keys of the account scope *)

Lemma accountKey_colon ip u v :
  accountKey ip (u +:+ ":" +:+ v) = accountKey (ip +:+ ":" +:+ u) v.
Proof. unfold accountKey. by rewrite !ServiceFacts.append_assoc. Qed.

(** X4.  The key [ip + ":" + username] does not tell where the address
    ends when the address holds a colon, as an IPv6 address does: the
    failures of username [u:v] from address [ip] are counted on the record
    of username [v] from address [ip:u], and five of them block that
    username from that address, which has sent nothing. *)
Theorem colon_in_address_shares_account_record
    (ip u v : string) (ts : list Time) (t5 now : Time) :
  length ts = 4%nat → 0 ≤ t5 → t5 ≤ now < t5 + 30 * Second →
  IsBlocked now (ip +:+ ":" +:+ u) v
    (failures ip (sameUser (u +:+ ":" +:+ v) (ts ++ [t5])) GetBruteForceProtector)
  = (true, t5 + 30 * Second).
Proof.
  intros Hlen Ht5 Hnow. unfold IsBlocked.
  fold (accountKey (ip +:+ ":" +:+ u) v). rewrite <- accountKey_colon.
  unfold sameUser. rewrite map_app. cbn [map]. rewrite failures_snoc. cbn [fst snd].
  assert (attempts (failures ip (map (λ t, (t, u +:+ ":" +:+ v)) ts)
                      GetBruteForceProtector)
            !! accountKey ip (u +:+ ":" +:+ v)
          = Some (mkLoginAttempt ip (u +:+ ":" +:+ v) 4
                    (lastTime (sameUser (u +:+ ":" +:+ v) ts)) zeroTime)) as Hacc.
  { fold (sameUser (u +:+ ":" +:+ v) ts).
    rewrite (account_record_accumulating ip (u +:+ ":" +:+ v) ts).
    - by rewrite Hlen.
    - by destruct ts.
    - lia. }
  pose proof (account_record_fifth t5 ip _ _ _ Ht5 Hacc) as Hfifth.
  rewrite (blockedIn_active _ _ _ _ Hfifth); [done|cbn; lia].
Qed.

Lemma colon_in_address_shares_account_record_witness :
  IsBlocked 7 "2001:db8::1:2" "admin"
    (failures "2001:db8::1" (sameUser "2:admin" ([1; 2; 3; 4] ++ [5]))
       GetBruteForceProtector)
  = (true, 5 + 30 * Second).
Proof.
  apply (colon_in_address_shares_account_record "2001:db8::1" "2" "admin"
           [1; 2; 3; 4] 5 7).
  - reflexivity.
  - lia.
  - unfold Second. lia.
Defined.

Lemma Count_free sep s : Count s sep = 0%nat → free sep s.
Proof.
  induction s as [|c s IH]; cbn [Count]; intros H.
  - apply free_nil.
  - destruct (Ascii.eqb_spec c sep) as [->|Hne]; [done|].
    apply free_cons; [done|by apply IH].
Qed.

(** Without a colon in either address the key tells the address and the
    username. *)
Lemma accountKey_inj_free ip ip' u u' :
  free ":" ip → free ":" ip' →
  accountKey ip u = accountKey ip' u' → ip = ip' ∧ u = u'.
Proof.
  unfold accountKey. revert ip'.
  induction ip as [|c ip IH]; intros [|c' ip'] Hip Hip' H; cbn in H.
  - by injection H.
  - injection H as <- _. by apply free_inv in Hip' as [? _].
  - injection H as -> _. by apply free_inv in Hip as [? _].
  - injection H as -> H.
    apply free_inv in Hip as [_ Hip]. apply free_inv in Hip' as [_ Hip'].
    destruct (IH ip' Hip Hip' H) as [-> ->]. done.
Qed.

(** X5.  Addresses do not interfere when they hold no colon (IPv4): a
    failure recorded for one address changes what [IsBlocked] answers for
    no username of another address; and on the same address it leaves the
    account record of every other username as it was. *)
Theorem failure_stays_on_its_address
    (now : Time) (ip username : string) (b : BruteForceProtector) :
  (∀ now' ip' username',
     Count ip ":" = 0%nat → Count ip' ":" = 0%nat → ip' ≠ ip →
     IsBlocked now' ip' username' (RecordFailedAttempt now ip username b)
     = IsBlocked now' ip' username' b)
  ∧ (∀ username', username' ≠ username →
       attempts (RecordFailedAttempt now ip username b) !! accountKey ip username'
       = attempts b !! accountKey ip username').
Proof.
  rewrite RecordFailedAttempt_strike. cbn [attempts ipAttempts]. split.
  - intros now' ip' username' Hip Hip' Hne.
    unfold IsBlocked, blockedIn. cbn [attempts ipAttempts].
    fold (accountKey ip' username').
    rewrite lookup_insert_ne.
    + by rewrite lookup_insert_ne.
    + intros Heq. apply accountKey_inj_free in Heq as [? _]; [done|by apply Count_free..].
  - intros username' Hne. rewrite lookup_insert_ne; [done|].
    intros Heq. by apply accountKey_inj in Heq.
Qed.

Lemma failure_stays_on_its_address_witness :
  let b := failures "5.6.7.8" (sameUser "root" [1; 2; 3; 4; 5]) GetBruteForceProtector in
  IsBlocked 7 "5.6.7.8" "root" (RecordFailedAttempt 6 "1.2.3.4" "admin" b)
  = IsBlocked 7 "5.6.7.8" "root" b.
Proof.
  intros b.
  apply (proj1 (failure_stays_on_its_address 6 "1.2.3.4" "admin" b)).
  - reflexivity.
  - reflexivity.
  - discriminate.
Defined.

(** X6.  A success resets the account scope only.  After it, the account
    is blocked exactly when its address is; the next failure is the
    account's first again, whatever the record held before, and the IP
    record counts it as if there had been no success. *)
Theorem success_resets_account_scope_only
    (now : Time) (ip username : string) (b : BruteForceProtector) :
  let b' := RecordSuccessfulAttempt ip username b in
  IsBlocked now ip username b'
    = match blockedIn (ipAttempts b) ip now with
      | Some until => (true, until)
      | None => (false, zeroTime)
      end
  ∧ attempts (RecordFailedAttempt now ip username b') !! accountKey ip username
    = Some (mkLoginAttempt ip username 1 now zeroTime)
  ∧ ipAttempts (RecordFailedAttempt now ip username b')
    = ipAttempts (RecordFailedAttempt now ip username b).
Proof.
  cbn zeta. split; [|split].
  - unfold IsBlocked, RecordSuccessfulAttempt. cbn [attempts ipAttempts].
    unfold blockedIn at 1. by rewrite lookup_delete_eq.
  - rewrite RecordFailedAttempt_strike. cbn [attempts].
    rewrite lookup_insert_eq. unfold RecordSuccessfulAttempt. cbn [attempts].
    fold (accountKey ip username). rewrite lookup_delete_eq. cbn [default].
    by rewrite strike_fresh.
  - by rewrite !RecordFailedAttempt_strike.
Qed.

(** X25.  The counter does not run down with the block.  On an account
    record with four failures or more, a failure recorded when the block
    is over, or was never set, blocks the account again at once, for 30
    seconds from that failure: the record keeps its count until a success
    or a sweep deletes it. *)
Theorem failure_after_a_block_blocks_again
    (now : Time) (ip username : string) (b : BruteForceProtector) (a : LoginAttempt) :
  attempts b !! accountKey ip username = Some a →
  4 ≤ FailedAttempts a < 2 ^ 62 → BlockedUntil a ≤ now →
  attempts (RecordFailedAttempt now ip username b) !! accountKey ip username
  = Some (mkLoginAttempt (IP a) (Username a) (FailedAttempts a + 1) now
            (now + 30 * Second))
  ∧ ∀ now', now ≤ now' < now + 30 * Second →
      IsBlocked now' ip username (RecordFailedAttempt now ip username b)
      = (true, now + 30 * Second).
Proof.
  intros Ha Hn Hover.
  assert (attempts (RecordFailedAttempt now ip username b) !! accountKey ip username
          = Some (mkLoginAttempt (IP a) (Username a) (FailedAttempts a + 1) now
                    (now + 30 * Second))) as Hrec.
  { rewrite RecordFailedAttempt_strike. cbn [attempts].
    rewrite lookup_insert_eq, Ha. cbn [default from_option id].
    unfold strike, setFailure, setBlockedUntil, After, Add.
    cbn [IP Username FailedAttempts LastFailedAt BlockedUntil].
    rewrite wrap64_small by lia.
    destruct (Z.geb_spec (FailedAttempts a + 1) maxFailedAttempts) as [_|Hlt];
      [|unfold maxFailedAttempts in Hlt; lia].
    cbn [IP Username FailedAttempts LastFailedAt BlockedUntil].
    by destruct (Z.ltb_spec now (BlockedUntil a)); [lia|]. }
  split; [exact Hrec|].
  intros now' Hnow'. unfold IsBlocked. fold (accountKey ip username).
  rewrite (blockedIn_active _ _ _ _ Hrec); [done|cbn; lia].
Qed.

Lemma failure_after_a_block_blocks_again_witness :
  let b := failures "1.2.3.4" (sameUser "admin" [1; 2; 3; 4; 5]) GetBruteForceProtector in
  IsBlocked (100 * Second) "1.2.3.4" "admin"
    (RecordFailedAttempt (90 * Second) "1.2.3.4" "admin" b)
  = (true, 90 * Second + 30 * Second).
Proof.
  intros b.
  apply (proj2 (failure_after_a_block_blocks_again (90 * Second) "1.2.3.4" "admin" b
                  (mkLoginAttempt "1.2.3.4" "admin" 5 5 (5 + 30 * Second))
                  ltac:(vm_compute; reflexivity)
                  ltac:(cbn; lia) ltac:(cbn; unfold Second; lia))).
  unfold Second. lia.
Defined.

End ProtectorFacts.

(** ** Further facts about the JWT manager *)

Module RotationFacts.
Import Go GoFacts JWT JWTFacts.

Lemma Validate_Ok_iff now claims :
  Validate now claims = Ok tt
  ↔ (∀ exp, ExpiresAt (Registered claims) = Some exp → now < exp)
    ∧ (∀ nbf, NotBefore (Registered claims) = Some nbf → nbf ≤ now).
Proof.
  unfold Validate, Before.
  destruct (ExpiresAt (Registered claims)) as [exp|],
           (NotBefore (Registered claims)) as [nbf|];
    repeat match goal with
           | |- context [Z.ltb ?a ?b] => destruct (Z.ltb_spec a b)
           end; cbn [negb]; split; try done.
  all: try (intros _; split; intros ? [= <-]; lia).
  all: try (intros [H1 H2]; try specialize (H1 _ eq_refl);
            try specialize (H2 _ eq_refl); lia).
Qed.

Section WithHMAC.

Variable HMAC : SigningMethod → list byte → string → list byte.
Variable SigningString : SigningMethod → JWTClaims → string.

Local Abbreviation ParseWithClaims := (ParseWithClaims HMAC).
Local Abbreviation VerifyToken := (VerifyToken HMAC).
Local Abbreviation signed := (signed HMAC SigningString SigningMethodHS256).

(** A parse under [key] succeeds exactly when the method is an HMAC
    method, the signature is the tag of the signing string under [key] and
    the claims validate. *)
Lemma ParseWithClaims_Ok_iff now token key token' :
  ParseWithClaims now (Compact token) (keyFunc key) = Ok token'
  ↔ token' = token
    ∧ isSigningMethodHMAC (Method token) = true
    ∧ Signature token = HMAC (Method token) key (SigningInput token)
    ∧ Validate now (Claims token) = Ok tt.
Proof.
  unfold JWT.ParseWithClaims, keyFunc, Verify.
  destruct (isSigningMethodHMAC (Method token)) eqn:Hm; cbn [negb mbind result_bind];
    [|split; [done|by intros (_ & ? & _)]].
  destruct (Method token) eqn:Hmethod; try done;
    (destruct (ConstantTimeCompare _ _ =? 1) eqn:Hcmp; cbn [mbind result_bind];
     [apply ConstantTimeCompare_spec in Hcmp
     |assert (Signature token ≠ HMAC (Method token) key (SigningInput token)) as Hne
        by (rewrite Hmethod; intros Heq; apply ConstantTimeCompare_spec in Heq;
            congruence);
      rewrite Hmethod in Hne; split; [done|by intros (_ & _ & ? & _)]]);
    (destruct (Validate now (Claims token)) as [[]| |]; cbn [mbind result_bind];
     [split; [by intros [= <-]|by intros (-> & _)]
     |split; [done|by intros (_ & _ & _ & ?)]..]).
Qed.

(** X7.  [VerifyToken] returns claims only for a well-formed token whose
    method is one of the HMAC methods, whose signature is the HMAC of its
    signing string under the current secret or under the previous one,
    whose expiry is after now and whose not-before is not; the claims are
    then those of the token.  It returns them for every such token. *)
Theorem VerifyToken_accepts_iff
    (now : Time) (tokenString : tokenString) (m : JWTManager) (claims : JWTClaims) :
  VerifyToken now tokenString m = Ok claims
  ↔ ∃ token,
      tokenString = Compact token
      ∧ claims = Claims token
      ∧ isSigningMethodHMAC (Method token) = true
      ∧ (Signature token
           = HMAC (Method token) (currentSecret m) (SigningInput token)
         ∨ ∃ previous, previousSecret m = Some previous
                       ∧ Signature token
                         = HMAC (Method token) previous (SigningInput token))
      ∧ (∀ exp, ExpiresAt (Registered (Claims token)) = Some exp → now < exp)
      ∧ (∀ nbf, NotBefore (Registered (Claims token)) = Some nbf → nbf ≤ now).
Proof.
  destruct tokenString as [token|raw];
    [|split; [unfold JWT.VerifyToken; cbn; by destruct (previousSecret m)
             |by intros (? & ? & _)]].
  unfold JWT.VerifyToken.
  pose proof (ParseWithClaims_not_Panic HMAC now (Compact token) (currentSecret m))
    as Hpanic.
  destruct (ParseWithClaims now (Compact token) (keyFunc (currentSecret m)))
    as [token'|err|msg] eqn:Hcur; [| |by destruct (Hpanic msg)].
  - apply ParseWithClaims_Ok_iff in Hcur as (-> & Hm & Hsig & Hvalid).
    apply Validate_Ok_iff in Hvalid as [Hexp Hnbf].
    split.
    + intros [= <-]. exists token. by eauto 10.
    + intros (? & [= <-] & -> & _). done.
  - assert (¬ (Signature token
                 = HMAC (Method token) (currentSecret m) (SigningInput token)
               ∧ isSigningMethodHMAC (Method token) = true
               ∧ Validate now (Claims token) = Ok tt)) as Hnot.
    { intros (Hsig & Hm & Hvalid).
      assert (ParseWithClaims now (Compact token) (keyFunc (currentSecret m)) = Ok token)
        as Hok by (by apply ParseWithClaims_Ok_iff).
      congruence. }
    destruct (previousSecret m) as [previous|].
    + pose proof (ParseWithClaims_not_Panic HMAC now (Compact token) previous)
        as Hpanic'.
      destruct (ParseWithClaims now (Compact token) (keyFunc previous))
        as [token'|err'|msg] eqn:Hprev; [| |by destruct (Hpanic' msg)].
      * apply ParseWithClaims_Ok_iff in Hprev as (-> & Hm & Hsig & Hvalid).
        apply Validate_Ok_iff in Hvalid as [Hexp Hnbf].
        split.
        -- intros [= <-]. exists token. by eauto 10.
        -- intros (? & [= <-] & -> & _). done.
      * split; [done|].
        intros (? & [= <-] & -> & Hm & Hsig & Hexp & Hnbf).
        assert (Validate now (Claims token) = Ok tt) as Hvalid
          by (by apply Validate_Ok_iff).
        destruct Hsig as [Hsig|(p & [= <-] & Hsig)]; [by destruct Hnot|].
        assert (ParseWithClaims now (Compact token) (keyFunc previous) = Ok token)
          as Hok by (by apply ParseWithClaims_Ok_iff).
        congruence.
    + split; [done|].
      intros (? & [= <-] & -> & Hm & Hsig & Hexp & Hnbf).
      assert (Validate now (Claims token) = Ok tt) as Hvalid
        by (by apply Validate_Ok_iff).
      destruct Hsig as [Hsig|(p & [=] & _)]. by destruct Hnot.
Qed.

Lemma VerifyToken_returns now tokenString m :
  (∃ claims, VerifyToken now tokenString m = Ok claims)
  ∨ (∃ err, VerifyToken now tokenString m = Err err).
Proof.
  unfold JWT.VerifyToken.
  pose proof (ParseWithClaims_not_Panic HMAC now tokenString (currentSecret m)) as Hp.
  destruct (ParseWithClaims now tokenString (keyFunc (currentSecret m)))
    as [token|err|msg]; [by eauto| |by destruct (Hp msg)].
  destruct (previousSecret m) as [previous|]; [|by eauto].
  pose proof (ParseWithClaims_not_Panic HMAC now tokenString previous) as Hp'.
  destruct (ParseWithClaims now tokenString (keyFunc previous))
    as [token|err'|msg]; [by eauto|by eauto|by destruct (Hp' msg)].
Qed.

(** X8.  The token [GenerateToken] makes at [t0] is accepted by the
    manager that made it from the start of the second of [t0] until the
    start of the second in which [t0] plus the configured lifetime falls,
    and refused with an error before and from then on; so a lifetime
    under one second can give a token that is never accepted. *)
Theorem generated_token_validity_window
    (m : JWTManager) (t0 now : Time) (userID username : string) (isAdmin : bool) :
  let lifetime := JWTExpiration (config m) in
  let claims := newClaims t0 lifetime userID username isAdmin in
  let notBefore := t0 - t0 mod Second in
  let expiresAt := (t0 + lifetime) - (t0 + lifetime) mod Second in
  ∃ token,
    GenerateToken HMAC SigningString t0 userID username isAdmin m = Ok token
    ∧ (notBefore ≤ now < expiresAt → VerifyToken now token m = Ok claims)
    ∧ (now < notBefore ∨ expiresAt ≤ now → ∃ err, VerifyToken now token m = Err err).
Proof.
  intros lifetime claims notBefore expiresAt.
  exists (Compact (signed claims (currentSecret m))).
  split; [done|]. split.
  - intros Hwindow. apply VerifyToken_accepts_iff.
    exists (signed claims (currentSecret m)).
    split; [done|]. split; [done|]. split; [done|]. split; [by left|].
    split; intros ? [= <-]; unfold Add; fold notBefore expiresAt; lia.
  - intros Hout.
    destruct (VerifyToken_returns now (Compact (signed claims (currentSecret m))) m)
      as [[claims' Hok]|Herr]; [|done].
    apply VerifyToken_accepts_iff in Hok
      as (token & [= <-] & _ & _ & _ & Hexp & Hnbf).
    specialize (Hexp _ eq_refl). specialize (Hnbf _ eq_refl).
    unfold Add in Hexp. fold notBefore expiresAt in Hexp, Hnbf. lia.
Qed.

(** The ticks between the instant [t0] and a later instant less than one
    rotation interval away rotate at most once, so the secret that was
    current at [t0] is still held, as the current or the previous one. *)
Lemma ticks_hold_signing_secret (secret : list byte) (t0 now : Time)
    (draws : list (drawn * Time)) :
  ∀ m : JWTManager,
    now - t0 < rotationInterval m → 0 < rotationInterval m →
    Forall (λ tick, t0 ≤ tick.2 ≤ now) draws →
    currentSecret m = secret
    ∨ (previousSecret m = Some secret ∧ t0 ≤ secretCreatedAt m) →
    currentSecret (ticks draws m) = secret
    ∨ previousSecret (ticks draws m) = Some secret.
Proof.
  induction draws as [|[rand t] draws IH]; intros m Hnear Hpos Hticks Hheld.
  - cbn. destruct Hheld as [?|[? _]]; by eauto.
  - apply Forall_cons in Hticks as [Ht Hticks]. cbn [fst snd] in Ht.
    change (ticks ((rand, t) :: draws) m)
      with (ticks draws (rotateSecretsPeriodically rand t m)).
    unfold rotateSecretsPeriodically, Sub, minDuration, maxDuration.
    destruct (Z.geb_spec (Z.max (- 2 ^ 63) (Z.min (2 ^ 63 - 1) (t - secretCreatedAt m)))
                (rotationInterval m)) as [Hdue|Hnot]; [|by apply IH].
    destruct rand as [newSecret|err]; cbn [rotateSecrets fst]; [|by apply IH].
    destruct Hheld as [Hcur|[_ Hcreated]]; [|lia].
    apply IH; cbn [rotationInterval currentSecret previousSecret secretCreatedAt];
      try done.
    right. split; [by rewrite Hcur|lia].
Qed.

(** X9.  A token lives through the rotation schedule when its lifetime is
    at most the rotation interval: whatever ticks come between its issue
    and a later instant before its expiry, at whatever readings of the
    clock and with whatever draws of the random source, the manager those
    ticks leave accepts the token. *)
Theorem token_outlives_the_rotation_schedule
    (m : JWTManager) (t0 now : Time) (draws : list (drawn * Time))
    (userID username : string) (isAdmin : bool) :
  let lifetime := JWTExpiration (config m) in
  let claims := newClaims t0 lifetime userID username isAdmin in
  lifetime ≤ rotationInterval m →
  Forall (λ tick, t0 ≤ tick.2 ≤ now) draws →
  t0 ≤ now < (t0 + lifetime) - (t0 + lifetime) mod Second →
  ∃ token,
    GenerateToken HMAC SigningString t0 userID username isAdmin m = Ok token
    ∧ VerifyToken now token (ticks draws m) = Ok claims.
Proof.
  intros lifetime claims Hlife Hticks Hwindow.
  exists (Compact (signed claims (currentSecret m))). split; [done|].
  assert (now - t0 < lifetime) as Hnear by (unfold Second in Hwindow; divlia).
  pose proof (Validate_newClaims t0 now lifetime userID username isAdmin
                ltac:(lia) ltac:(lia)) as Hvalid.
  fold claims in Hvalid.
  destruct (ticks_hold_signing_secret (currentSecret m) t0 now draws m)
    as [Hcur|Hprev]; [lia|lia|done|by left| |].
  - apply (VerifyToken_current HMAC now (signed claims (currentSecret m))).
    rewrite Hcur. by apply ParseWithClaims_signing_key.
  - apply (VerifyToken_previous HMAC now (signed claims (currentSecret m)) _
             (currentSecret m)); [done|].
    by apply ParseWithClaims_signing_key.
Qed.

(** X10.  Nothing but the configuration keeps refresh tokens from being
    access tokens: when the refresh secret is the current access secret,
    as it is after start-up when JWT_REFRESH_SECRET equals JWT_SECRET,
    [VerifyToken] accepts a refresh token for the whole refresh lifetime. *)
Theorem shared_secret_makes_refresh_tokens_access_tokens
    (m : JWTManager) (t0 now : Time) (userID username : string) (isAdmin : bool) :
  let lifetime := JWTRefreshExpiration (config m) in
  let claims := newClaims t0 lifetime userID username isAdmin in
  bytes (JWTRefreshSecret (config m)) = currentSecret m →
  t0 ≤ now < (t0 + lifetime) - (t0 + lifetime) mod Second →
  ∃ token,
    GenerateRefreshToken HMAC SigningString t0 userID username isAdmin m = Ok token
    ∧ VerifyToken now token m = Ok claims.
Proof.
  intros lifetime claims Hsame Hwindow.
  exists (Compact (signed claims (bytes (JWTRefreshSecret (config m))))).
  split; [done|]. rewrite Hsame.
  apply (VerifyToken_current HMAC now (signed claims (currentSecret m))).
  apply ParseWithClaims_signing_key.
  apply Validate_newClaims; lia.
Qed.

End WithHMAC.

Lemma token_outlives_the_rotation_schedule_witness :
  let day := Hour * 24 in
  let m := NewJWTManager 0 toyConfig in
  let draws := [(Bytes [x01; x02], 7 * day + Hour); (ReadError "EOF", 7 * day + 2 * Hour)] in
  ∃ token,
    GenerateToken toyHMAC toySigningString (7 * day) "42" "admin" true m = Ok token
    ∧ VerifyToken toyHMAC (7 * day + 3 * Hour) token (ticks draws m)
      = Ok (newClaims (7 * day) day "42" "admin" true)
    ∧ currentSecret (ticks draws m) = [x01; x02].
Proof.
  intros day m draws.
  destruct (token_outlives_the_rotation_schedule toyHMAC toySigningString m
              (7 * day) (7 * day + 3 * Hour) draws "42" "admin" true)
    as (token & Hgen & Hverify).
  - vm_compute. discriminate.
  - repeat (apply Forall_cons; split; [vm_compute; split; discriminate|]).
    by apply Forall_nil.
  - vm_compute. split; [discriminate|reflexivity].
  - exists token. split; [exact Hgen|]. split; [exact Hverify|]. reflexivity.
Defined.

Lemma shared_secret_makes_refresh_tokens_access_tokens_witness :
  let m := NewJWTManager 0 (mkConfig "one-secret" (Hour * 24) "one-secret" (Hour * 24 * 7)) in
  ∃ token,
    GenerateRefreshToken toyHMAC toySigningString (5 * Second) "42" "admin" true m
      = Ok token
    ∧ VerifyToken toyHMAC (Hour * 24 * 6) token m
      = Ok (newClaims (5 * Second) (Hour * 24 * 7) "42" "admin" true).
Proof.
  intros m.
  apply (shared_secret_makes_refresh_tokens_access_tokens toyHMAC toySigningString m
           (5 * Second) (Hour * 24 * 6) "42" "admin" true).
  - reflexivity.
  - vm_compute. split; [discriminate|reflexivity].
Defined.

(** X11.  [GetSecretInfo] reports the rotation schedule the ticker
    follows: a tick at or after [next_rotation_at] rotates, a tick before
    it changes nothing; and [has_previous_secret] is set by the first
    rotation. *)
Theorem next_rotation_at_is_when_a_tick_rotates
    (m : JWTManager) (now : Time) (rand : drawn) :
  minDuration < rotationInterval m ≤ maxDuration →
  (next_rotation_at (GetSecretInfo m) ≤ now →
     rotateSecretsPeriodically rand now m = (rotateSecrets rand now m).1)
  ∧ (now < next_rotation_at (GetSecretInfo m) →
     rotateSecretsPeriodically rand now m = m)
  ∧ has_previous_secret (GetSecretInfo (NewJWTManager now (config m))) = false
  ∧ (∀ newSecret,
       has_previous_secret (GetSecretInfo (rotateSecrets (Bytes newSecret) now m).1)
       = true).
Proof.
  intros Hinterval.
  unfold GetSecretInfo, rotateSecretsPeriodically, Add, Sub, minDuration, maxDuration
    in *.
  cbn [next_rotation_at].
  split; [|split; [|done]].
  - intros Hdue.
    by destruct (Z.geb_spec (Z.max (- 2 ^ 63) (Z.min (2 ^ 63 - 1)
                   (now - secretCreatedAt m))) (rotationInterval m)); [|lia].
  - intros Hearly.
    by destruct (Z.geb_spec (Z.max (- 2 ^ 63) (Z.min (2 ^ 63 - 1)
                   (now - secretCreatedAt m))) (rotationInterval m)); [lia|].
Qed.

Lemma next_rotation_at_is_when_a_tick_rotates_witness :
  let m := NewJWTManager 0 toyConfig in
  next_rotation_at (GetSecretInfo m) = Hour * 24 * 7
  ∧ currentSecret (rotateSecretsPeriodically (Bytes [x01; x02]) (Hour * 24 * 7) m)
    = [x01; x02].
Proof.
  intros m. split; [reflexivity|].
  rewrite (proj1 (next_rotation_at_is_when_a_tick_rotates m (Hour * 24 * 7)
                    (Bytes [x01; x02])
                    ltac:(vm_compute; split; [reflexivity|discriminate]))).
  - reflexivity.
  - vm_compute. discriminate.
Defined.

(** Keys that fill the block alike give the same tag. *)
Lemma hmacSum_padded (sum : list byte → list byte) (blocksize : nat)
    (key msg : list byte) (n : nat) :
  (length key + n ≤ blocksize)%nat →
  hmacSum sum blocksize (key ++ replicate n x00) msg = hmacSum sum blocksize key msg.
Proof.
  intros Hlen. unfold hmacSum.
  destruct (Nat.ltb_spec blocksize (length (key ++ replicate n x00))) as [Hlong|_];
    [rewrite length_app, length_replicate in Hlong; lia|].
  destruct (Nat.ltb_spec blocksize (length key)) as [Hlong|_]; [lia|].
  replace (take blocksize ((key ++ replicate n x00) ++ replicate blocksize x00))
    with (take blocksize (key ++ replicate blocksize x00)); [done|].
  rewrite <- app_assoc, <- replicate_add.
  rewrite !take_app_ge by lia. f_equal.
  rewrite !take_replicate. f_equal. lia.
Qed.

(** C10 as it is stated fails: a refresh secret can differ from the
    current and from the previous access secret and give the same tags,
    HMAC filling a key with zero bytes up to the block of its hash.  With
    the refresh secret of the default configuration, 23 bytes long, and a
    rotation whose draw of 32 bytes is that secret followed by nine zero
    bytes, the three secrets differ, and [VerifyToken] accepts the refresh
    token as an access token, whatever the hash functions are. *)
Lemma zero_padded_secret_passes_refresh_tokens :
  let refresh := bytes "your-refresh-secret-key" in
  let m := (rotateSecrets (Bytes (refresh ++ replicate 9 x00)) (7 * Second)
              (NewJWTManager 0 toyConfig)).1 in
  bytes (JWTRefreshSecret (config m)) ≠ currentSecret m
  ∧ (∀ previous, previousSecret m = Some previous →
       bytes (JWTRefreshSecret (config m)) ≠ previous)
  ∧ ∀ (sha : SigningMethod → list byte → list byte)
      (SigningString : SigningMethod → JWTClaims → string),
      ∃ token,
        GenerateRefreshToken (SignHMAC sha) SigningString (8 * Second) "42" "admin" true m
          = Ok token
        ∧ VerifyToken (SignHMAC sha) (9 * Second) token m
          = Ok (newClaims (8 * Second) (Hour * 24 * 7) "42" "admin" true).
Proof.
  intros refresh m. split; [|split].
  - vm_compute. discriminate.
  - intros previous [= <-]. vm_compute. discriminate.
  - intros sha SigningString. eexists. split; [reflexivity|].
    set (claims := newClaims (8 * Second) (Hour * 24 * 7) "42" "admin" true).
    apply (VerifyToken_current (SignHMAC sha) (9 * Second)
             (signed (SignHMAC sha) SigningString SigningMethodHS256 claims refresh) m).
    apply ParseWithClaims_Ok_iff.
    split; [done|]. split; [done|]. split.
    + cbn [signed Signature Method SigningInput]. unfold SignHMAC.
      change (currentSecret m) with (refresh ++ replicate 9 x00).
      symmetry. apply hmacSum_padded. vm_compute. lia.
    + apply Validate_newClaims; vm_compute; [discriminate|reflexivity].
Qed.

End RotationFacts.

(** ** Further facts about password hashing and the password change *)

Module PasswordFacts.
Import Go GoFacts Util UtilFacts.

Section WithArgon2.

Variable IDKey : list byte → list byte → Z → Z → Z → Z → option (list byte).

(** X12.  [VerifyPassword] answers true only when the encoded hash decodes
    and the key derived from the password, with the salt and the
    parameters of the encoding, is the stored digest, byte for byte and in
    length; and it answers true whenever that is so. *)
Theorem VerifyPassword_true_iff (password encodedHash : string) :
  VerifyPassword IDKey password encodedHash = Ok true
  ↔ ∃ params salt hash,
      decodeHash encodedHash = Ok (params, salt, hash)
      ∧ IDKey (bytes password) salt (time params) (memory params) (threads params)
          (keyLen params) = Some hash.
Proof.
  unfold VerifyPassword, callIDKey.
  destruct (decodeHash encodedHash) as [[[params salt] hash]|e|msg];
    cbn [mbind result_bind]; [|split; [done|by intros (? & ? & ? & ? & _)]..].
  destruct (IDKey _ _ _ _ _ _) as [key|] eqn:Hkey; cbn [mbind result_bind].
  - split.
    + intros [= Hcmp]. apply ConstantTimeCompare_spec in Hcmp as ->.
      by exists params, salt, key.
    + intros (? & ? & ? & [= <- <- <-] & Hkey'). f_equal.
      apply ConstantTimeCompare_spec. congruence.
  - split; [done|]. intros (? & ? & ? & [= <- <- <-] & Hkey'). congruence.
Qed.

(** X13.  The encoded hash tells the salt and the digest: two calls of
    [HashPassword] that return the same string drew the same salt and
    derived the same digest, so calls that draw different salts return
    different strings, for one password as for two. *)
Theorem HashPassword_tells_salt_and_digest
    (salt1 salt2 : list byte) (password1 password2 encodedHash : string) :
  HashPassword IDKey (Bytes salt1) password1 = Ok encodedHash →
  HashPassword IDKey (Bytes salt2) password2 = Ok encodedHash →
  salt1 = salt2
  ∧ IDKey (bytes password1) salt1 argon2Time argon2Memory argon2Threads argon2KeyLen
    = IDKey (bytes password2) salt2 argon2Time argon2Memory argon2Threads argon2KeyLen.
Proof.
  unfold HashPassword, callIDKey.
  destruct (IDKey (bytes password1) _ _ _ _ _) as [key1|]; [|done].
  destruct (IDKey (bytes password2) _ _ _ _ _) as [key2|]; [|done].
  cbn [mbind result_bind]. intros H1 H2. rewrite <- H2 in H1. clear H2.
  apply (f_equal (λ r, match r with Ok s => Split s "$" | _ => [] end)) in H1.
  cbv beta iota in H1.
  rewrite !Split_encoded in H1 by apply EncodeToString_free.
  rename H1 into H.
  injection H as Hsalt Hkey.
  apply (f_equal DecodeString) in Hsalt, Hkey.
  rewrite !DecodeString_EncodeToString in Hsalt, Hkey.
  by injection Hsalt as ->; injection Hkey as ->.
Qed.

End WithArgon2.

Lemma HashPassword_tells_salt_and_digest_witness :
  toySalt = toySalt
  ∧ toyIDKey (bytes "correct-horse-battery-staple") toySalt
      argon2Time argon2Memory argon2Threads argon2KeyLen
    = toyIDKey (bytes "correct-horse-battery-staple") toySalt
        argon2Time argon2Memory argon2Threads argon2KeyLen.
Proof.
  apply (HashPassword_tells_salt_and_digest toyIDKey toySalt toySalt
           "correct-horse-battery-staple" "correct-horse-battery-staple"
           "$argon2id$v=19$m=65536,t=1,p=4$AAECAwQFBgcICQoLDA0O/w$Y29ycmVjdC1ob3JzZS1iYXR0ZXJ5LXN0YXBsZQABAgM").
  - vm_compute. reflexivity.
  - vm_compute. reflexivity.
Defined.

(** *** The two password helpers *)

Section TwoHelpers.

Variable IDKey : list byte → list byte → Z → Z → Z → Z → option (list byte).
Variable Version : Z.
Variable scanError : string → string → string.
Variable corruptInput : string → string.

Local Abbreviation HashPassword' := (PkgUtil.HashPassword IDKey Version).
Local Abbreviation VerifyPassword' :=
  (PkgUtil.VerifyPassword IDKey scanError corruptInput).

(** X14.  The two helpers write the same encoded hash, the version of the
    Argon2 library being 19: a hash that one of them made is one the other
    could have made, and each verifies the hashes of the other. *)
Theorem helpers_write_the_same_hash (rand : drawn) (password : string) :
  Version = 19 →
  HashPassword' rand password = HashPassword IDKey rand password
  ∧ ∀ salt key,
      IDKey (bytes password) salt argon2Time argon2Memory argon2Threads argon2KeyLen
        = Some key →
      Z.of_nat (length key) = argon2KeyLen →
      ∃ encodedHash,
        HashPassword' (Bytes salt) password = Ok encodedHash
        ∧ VerifyPassword IDKey password encodedHash = Ok true.
Proof.
  intros HVersion.
  assert (∀ rand, HashPassword' rand password = HashPassword IDKey rand password)
    as Hsame by (intros [salt|err]; rewrite HVersion; reflexivity).
  split; [apply Hsame|].
  intros salt key Hkey Hlen. rewrite Hsame.
  unfold HashPassword, VerifyPassword, callIDKey. rewrite Hkey.
  cbn [mbind result_bind]. eexists. split; [reflexivity|].
  rewrite decodeHash_encoded by done.
  cbn [time memory threads keyLen mbind result_bind]. rewrite Hkey.
  cbn [mbind result_bind].
  by rewrite (proj2 (ConstantTimeCompare_spec key key) eq_refl).
Qed.

(** X15.  The second helper verifies more leniently.  Whatever the first
    answers without an error, true or false, the second answers too; but
    the second looks at no segment before the version, and at the version
    only to scan a number: two encodings with six segments that agree on
    the last three get the same answer from it. *)
Theorem second_helper_is_lenient (password : string) :
  (∀ encodedHash valid,
     VerifyPassword IDKey password encodedHash = Ok valid →
     VerifyPassword' password encodedHash = Ok valid)
  ∧ (∀ h h' q0 q1 q2 r0 r1 r2 q3 q4 q5 v v',
       Split h "$" = [q0; q1; q2; q3; q4; q5] →
       Split h' "$" = [r0; r1; r2; q3; q4; q5] →
       Sscanf_version q2 = Some v → Sscanf_version r2 = Some v' →
       VerifyPassword' password h' = VerifyPassword' password h).
Proof.
  split.
  - intros encodedHash valid.
    unfold VerifyPassword, PkgUtil.VerifyPassword, decodeHash.
    destruct (Split encodedHash "$") as [|p0 [|p1 [|p2 [|p3 [|p4 [|p5 [|p6 rest]]]]]]];
      try done.
    cbn [length Nat.eqb negb index lookup list_lookup mbind result_bind].
    destruct (negb _); [done|].
    destruct (Sscanf_version p2) as [version|]; [|done].
    destruct (negb _); [done|].
    destruct (Sscanf_params p3) as [[[m t] p]|]; [|done].
    destruct (DecodeString p4) as [salt|]; [|done].
    destruct (DecodeString p5) as [hash|]; [|done].
    destruct (_ =? 0); [done|].
    cbn [time memory threads keyLen mbind result_bind]. done.
  - intros h h' q0 q1 q2 r0 r1 r2 q3 q4 q5 v v' Hh Hh' Hv Hv'.
    unfold PkgUtil.VerifyPassword. rewrite Hh, Hh'.
    cbn [length Nat.eqb negb index lookup list_lookup mbind result_bind].
    by rewrite Hv, Hv'.
Qed.

End TwoHelpers.

Lemma helpers_write_the_same_hash_witness :
  PkgUtil.HashPassword toyIDKey 19 (Bytes toySalt) "correct-horse-battery-staple"
  = HashPassword toyIDKey (Bytes toySalt) "correct-horse-battery-staple".
Proof.
  apply (proj1 (helpers_write_the_same_hash toyIDKey 19 (Bytes toySalt)
                  "correct-horse-battery-staple" eq_refl)).
Defined.

Lemma second_helper_is_lenient_witness :
  PkgUtil.VerifyPassword toyIDKey PkgUtil.toyScanError PkgUtil.toyCorruptInput
    "correct-horse-battery-staple"
    "$argon2i$v=16$m=65536,t=1,p=4$AAECAwQFBgcICQoLDA0O/w$Y29ycmVjdC1ob3JzZS1iYXR0ZXJ5LXN0YXBsZQABAgM"
  = Ok true
  ∧ VerifyPassword toyIDKey "correct-horse-battery-staple"
      "$argon2i$v=16$m=65536,t=1,p=4$AAECAwQFBgcICQoLDA0O/w$Y29ycmVjdC1ob3JzZS1iYXR0ZXJ5LXN0YXBsZQABAgM"
    = Err "unsupported hash algorithm".
Proof.
  split; [|vm_compute; reflexivity].
  rewrite (proj2 (second_helper_is_lenient toyIDKey PkgUtil.toyScanError
                    PkgUtil.toyCorruptInput "correct-horse-battery-staple")
             "$argon2id$v=19$m=65536,t=1,p=4$AAECAwQFBgcICQoLDA0O/w$Y29ycmVjdC1ob3JzZS1iYXR0ZXJ5LXN0YXBsZQABAgM"
             "$argon2i$v=16$m=65536,t=1,p=4$AAECAwQFBgcICQoLDA0O/w$Y29ycmVjdC1ob3JzZS1iYXR0ZXJ5LXN0YXBsZQABAgM"
             EmptyString "argon2id" "v=19" EmptyString "argon2i" "v=16"
             "m=65536,t=1,p=4" "AAECAwQFBgcICQoLDA0O/w"
             "Y29ycmVjdC1ob3JzZS1iYXR0ZXJ5LXN0YXBsZQABAgM"
             19 16 eq_refl eq_refl eq_refl eq_refl).
  apply (proj1 (second_helper_is_lenient toyIDKey PkgUtil.toyScanError
                  PkgUtil.toyCorruptInput "correct-horse-battery-staple")).
  vm_compute. reflexivity.
Defined.

(** *** The password change *)

Section WithArgon2.

Variable IDKey : list byte → list byte → Z → Z → Z → Z → option (list byte).

Local Abbreviation UpdatePassword := (Profile.UpdatePassword IDKey).

(** X16.  [UpdatePassword] calls the repository to write at most once,
    for the identifier it was given, and only after the current password
    has verified as true against the stored hash of that user; what it
    writes is an encoded hash of the new password made by [HashPassword],
    which verifies the new password when the key derivation returns the
    32 bytes asked for.  When it writes nothing it returns an error or
    panics. *)
Theorem UpdatePassword_writes_after_verification
    (userRepo : Repository.UserRepository) (rand : drawn)
    (userID currentPassword newPassword : string) :
  let out := UpdatePassword userRepo rand userID currentPassword newPassword in
  (Profile.written out = []
   ∧ ((∃ err, Profile.updated out = Err err) ∨ (∃ msg, Profile.updated out = Panic msg)))
  ∨ (∃ user hashedPassword,
       Profile.written out = [(userID, hashedPassword)]
       ∧ Profile.updated out = Repository.UpdatePassword userRepo userID hashedPassword
       ∧ Repository.GetByID userRepo userID = Ok user
       ∧ VerifyPassword IDKey currentPassword (Service.Password user) = Ok true
       ∧ HashPassword IDKey rand newPassword = Ok hashedPassword
       ∧ ((∀ salt key,
             IDKey (bytes newPassword) salt argon2Time argon2Memory argon2Threads
               argon2KeyLen = Some key →
             Z.of_nat (length key) = argon2KeyLen) →
          VerifyPassword IDKey newPassword hashedPassword = Ok true)).
Proof.
  cbn zeta. unfold Profile.UpdatePassword.
  destruct (Repository.GetByID userRepo userID) as [user|err|msg];
    [|left; by eauto..].
  destruct (VerifyPassword IDKey currentPassword (Service.Password user))
    as [[]|err|msg] eqn:Hcurrent; cbn [negb]; [|left; by eauto..].
  destruct (HashPassword IDKey rand newPassword) as [hashedPassword|err|msg] eqn:Hhash;
    [|left; by eauto..].
  right. exists user, hashedPassword. cbn [Profile.written Profile.updated].
  do 5 (split; [done|]).
  intros Hkeys. destruct rand as [salt|err]; [|done].
  unfold HashPassword, callIDKey in Hhash.
  destruct (IDKey (bytes newPassword) salt _ _ _ _) as [key|] eqn:Hkey; [|done].
  cbn [mbind result_bind] in Hhash. injection Hhash as <-.
  unfold VerifyPassword, callIDKey.
  rewrite decodeHash_encoded by (by eapply Hkeys).
  cbn [time memory threads keyLen mbind result_bind]. rewrite Hkey.
  cbn [mbind result_bind].
  by rewrite (proj2 (ConstantTimeCompare_spec key key) eq_refl).
Qed.

End WithArgon2.

End PasswordFacts.

(** ** Facts about the HTTP handlers *)

Module HttpFacts.
Import Go GoFacts BruteForce BruteForceFacts ProtectorFacts Http.

Lemma eqb_empty_false (s : string) : s ≠ EmptyString → String.eqb s EmptyString = false.
Proof. by intros; apply String.eqb_neq. Qed.

Lemma IsBlocked_false now ip username b :
  (IsBlocked now ip username b).1 = false →
  IsBlocked now ip username b = (false, zeroTime)
  ∧ blockedIn (attempts b) (accountKey ip username) now = None
  ∧ blockedIn (ipAttempts b) ip now = None.
Proof.
  unfold IsBlocked. fold (accountKey ip username).
  destruct (blockedIn (attempts b) _ now); [done|].
  by destruct (blockedIn (ipAttempts b) ip now).
Qed.

Lemma blockedIn_None_inv m k now a :
  blockedIn m k now = None → m !! k = Some a → BlockedUntil a ≤ now.
Proof.
  unfold blockedIn, After. intros H Hm. rewrite Hm in H.
  by destruct (Z.ltb_spec now (BlockedUntil a)); [|lia].
Qed.

(** A failure on a record whose block is over, if it had one, leaves the
    end of the block as it was or starts a block of the first length. *)
Lemma strike_after_block threshold initial now a :
  BlockedUntil a ≤ now →
  BlockedUntil (strike threshold initial now a) = now + initial * Second
  ∨ BlockedUntil (strike threshold initial now a) = BlockedUntil a.
Proof.
  intros Hover. unfold strike, setFailure, setBlockedUntil, After, Add.
  cbn [IP Username FailedAttempts LastFailedAt BlockedUntil].
  destruct (_ >=? threshold); cbn [BlockedUntil]; [|by right].
  destruct (Z.ltb_spec now (BlockedUntil a)); [lia|by left].
Qed.

Lemma HasPrefix_append prefix s : HasPrefix (prefix +:+ s) prefix = true.
Proof.
  induction prefix as [|c prefix IH]; [done|].
  change (Ascii.eqb c c && HasPrefix (prefix +:+ s) prefix = true).
  by rewrite Ascii.eqb_refl, IH.
Qed.

Lemma sliceFrom_append prefix s : sliceFrom (prefix +:+ s) (String.length prefix) = s.
Proof.
  induction prefix as [|c prefix IH]; [reflexivity|].
  change (sliceFrom (prefix +:+ s) (String.length prefix) = s). exact IH.
Qed.

Lemma HasPrefix_inv s prefix :
  HasPrefix s prefix = true → s = prefix +:+ sliceFrom s (String.length prefix).
Proof.
  revert s. induction prefix as [|c prefix IH]; intros s H.
  - by destruct s.
  - destruct s as [|d s]; [done|]. cbn [HasPrefix] in H.
    apply andb_prop in H as [Hc H]. apply Ascii.eqb_eq in Hc as ->.
    change (String c s = String c (prefix +:+ sliceFrom s (String.length prefix))).
    f_equal. by apply IH.
Qed.

Lemma TrimPrefix_append prefix s : TrimPrefix (prefix +:+ s) prefix = s.
Proof. unfold TrimPrefix. by rewrite HasPrefix_append, sliceFrom_append. Qed.

Section WithLibraries.

Variable IDKey : list byte → list byte → Z → Z → Z → Z → option (list byte).
Variable HMAC : JWT.SigningMethod → list byte → string → list byte.
Variable SigningString : JWT.SigningMethod → JWT.JWTClaims → string.
Variable parse : string → JWT.tokenString.

Local Abbreviation serviceLogin := (Service.Login IDKey HMAC SigningString).
Local Abbreviation Login := (Http.Login IDKey HMAC SigningString).
Local Abbreviation loginRoute := (Http.loginRoute IDKey HMAC SigningString).
Local Abbreviation logins := (Http.logins IDKey HMAC SigningString).

(** The login handler leaves the protector and the password writes as
    they are. *)
Lemma Login_protector s now c app :
  protector (Login s now c app).2 = protector app.
Proof.
  unfold Http.Login. destruct (bodyLogin c) as [[u p]|]; [|done].
  destruct (_ || _); [done|].
  by destruct (Service.returned _).
Qed.

(** A login that fails in the service leaves the manager as it was. *)
Lemma serviceLogin_Err_manager s now jwtManager username password ip userAgent e :
  Service.returned (serviceLogin s now jwtManager username password ip userAgent) = Err e →
  Service.manager (serviceLogin s now jwtManager username password ip userAgent)
  = jwtManager.
Proof.
  unfold Service.Login.
  destruct (Service.userRepo s username) as [user|err|msg]; [|done..].
  destruct (Util.VerifyPassword IDKey password (Service.Password user))
    as [[]|err|msg]; done.
Qed.

Lemma loginRoute_refused s t c app tracked loginUsername loginPassword e :
  isLogin c = true →
  bodyUsername c = Some tracked → tracked ≠ EmptyString →
  bodyLogin c = Some (loginUsername, loginPassword) →
  loginUsername ≠ EmptyString → loginPassword ≠ EmptyString →
  (IsBlocked (atCheck t) (RemoteIP c) tracked (protector app)).1 = false →
  Service.returned
    (serviceLogin s (atLogin t) (jwtManager app) loginUsername loginPassword
       (RemoteIP c) (UserAgent c)) = Err e →
  loginRoute s t c app
  = (Return {| StatusCode := 401; Payload := ErrorBody "Invalid credentials" |},
     {| protector :=
          RecordFailedAttempt (atRecord t) (RemoteIP c) tracked (protector app);
        jwtManager := jwtManager app;
        outbox := outbox app
                  ++ Service.notified
                       (serviceLogin s (atLogin t) (jwtManager app) loginUsername
                          loginPassword (RemoteIP c) (UserAgent c));
        writes := writes app |}).
Proof.
  intros Hlogin Hbody Ht Hparsed Hu Hp Hfree He.
  unfold Http.loginRoute, BruteForceProtection, TrackLoginAttempt.
  rewrite Hlogin, Hbody.
  destruct (IsBlocked _ _ _ _) as [blocked until]. cbn [fst] in Hfree. subst blocked.
  unfold Http.Login. rewrite Hparsed.
  rewrite (eqb_empty_false _ Hu), (eqb_empty_false _ Hp). cbn [orb negb].
  rewrite He. rewrite (eqb_empty_false _ Ht).
  cbn. unfold withProtector. cbn [protector jwtManager outbox writes].
  by rewrite (serviceLogin_Err_manager _ _ _ _ _ _ _ _ He).
Qed.

Lemma loginRoute_blocked s t c app loginUsername until :
  isLogin c = true →
  bodyUsername c = Some loginUsername →
  IsBlocked (atCheck t) (RemoteIP c) loginUsername (protector app) = (true, until) →
  loginRoute s t c app
  = (Return {| StatusCode := 429;
               Payload :=
                 BlockedBody "Too many failed login attempts, please try again later"
                   (Sub until (atReply t)) |}, app).
Proof.
  intros Hlogin Hbody Hblocked.
  unfold Http.loginRoute, BruteForceProtection. by rewrite Hlogin, Hbody, Hblocked.
Qed.

(** X17.  What the login route does with a request whose body gives the
    controller a username and a password, both not empty, and which the
    check lets through: the middlewares have read no username from the
    body, or one that is not blocked.  When the service returns an error,
    whichever it is (unknown user, wrong password, unreadable stored
    hash), the answer is the one 401 "Invalid credentials"; when the
    service returns a response, the answer is 200 with that response.
    The failure or the success is recorded for the username the
    middlewares have read, which need not be the one the controller has
    parsed, and for none when they have read none or the empty one. *)
Theorem login_route_answers_and_counts
    (s : Service.authService) (t : Clock) (c : Ctx) (app : App)
    (loginUsername loginPassword : string) :
  let out :=
    serviceLogin s (atLogin t) (jwtManager app) loginUsername loginPassword
      (RemoteIP c) (UserAgent c) in
  isLogin c = true →
  bodyLogin c = Some (loginUsername, loginPassword) →
  loginUsername ≠ EmptyString → loginPassword ≠ EmptyString →
  (∀ tracked, bodyUsername c = Some tracked →
     (IsBlocked (atCheck t) (RemoteIP c) tracked (protector app)).1 = false) →
  (∀ e, Service.returned out = Err e →
     loginRoute s t c app
     = (Return {| StatusCode := 401; Payload := ErrorBody "Invalid credentials" |},
        {| protector :=
             match bodyUsername c with
             | Some tracked =>
                 if String.eqb tracked EmptyString then protector app
                 else RecordFailedAttempt (atRecord t) (RemoteIP c) tracked
                        (protector app)
             | None => protector app
             end;
           jwtManager := jwtManager app;
           outbox := outbox app ++ Service.notified out;
           writes := writes app |}))
  ∧ (∀ resp, Service.returned out = Ok resp →
       loginRoute s t c app
       = (Return {| StatusCode := 200; Payload := LoginBody resp |},
          {| protector :=
               match bodyUsername c with
               | Some tracked =>
                   if String.eqb tracked EmptyString then protector app
                   else RecordSuccessfulAttempt (RemoteIP c) tracked (protector app)
               | None => protector app
               end;
             jwtManager := Service.manager out;
             outbox := outbox app ++ Service.notified out;
             writes := writes app |})).
Proof.
  intros out Hlogin Hparsed Hu Hp Hfree.
  unfold Http.loginRoute, BruteForceProtection, TrackLoginAttempt.
  rewrite Hlogin.
  assert (Login s (atLogin t) c app
          = match Service.returned out with
            | Panic msg =>
                (Panics msg,
                 {| protector := protector app; jwtManager := Service.manager out;
                    outbox := outbox app ++ Service.notified out;
                    writes := writes app |})
            | Err _ =>
                (Return {| StatusCode := 401;
                           Payload := ErrorBody "Invalid credentials" |},
                 {| protector := protector app; jwtManager := Service.manager out;
                    outbox := outbox app ++ Service.notified out;
                    writes := writes app |})
            | Ok resp =>
                (Return {| StatusCode := 200; Payload := LoginBody resp |},
                 {| protector := protector app; jwtManager := Service.manager out;
                    outbox := outbox app ++ Service.notified out;
                    writes := writes app |})
            end) as Hhandler.
  { unfold Http.Login. rewrite Hparsed.
    rewrite (eqb_empty_false _ Hu), (eqb_empty_false _ Hp). cbn [orb].
    fold out. by destruct (Service.returned out). }
  rewrite Hhandler. clear Hhandler.
  assert (∀ e, Service.returned out = Err e → Service.manager out = jwtManager app)
    as Hmanager by (intros e He; by apply (serviceLogin_Err_manager _ _ _ _ _ _ _ e)).
  destruct (bodyUsername c) as [tracked|].
  - specialize (Hfree tracked eq_refl).
    destruct (IsBlocked _ _ _ _) as [blocked until]. cbn [fst] in Hfree. subst blocked.
    split.
    + intros e He. rewrite He, (Hmanager e He).
      by destruct (String.eqb tracked EmptyString).
    + intros resp Hresp. rewrite Hresp.
      by destruct (String.eqb tracked EmptyString).
  - split.
    + intros e He. by rewrite He, (Hmanager e He).
    + intros resp Hresp. by rewrite Hresp.
Qed.

(** X26.  A login request from whose body the middlewares read no
    username goes past the protector: the route does what the controller
    does, without a check and without a record, whatever the protector
    holds, so also when the address, or the account the controller logs
    in, is blocked. *)
Theorem login_without_tracked_username_passes_the_protector
    (s : Service.authService) (t : Clock) (c : Ctx) (app : App) :
  bodyUsername c = None →
  loginRoute s t c app = Login s (atLogin t) c app
  ∧ protector (loginRoute s t c app).2 = protector app.
Proof.
  intros Hbody.
  assert (loginRoute s t c app = Login s (atLogin t) c app) as Hroute.
  { unfold Http.loginRoute, BruteForceProtection, TrackLoginAttempt. rewrite Hbody.
    destruct (isLogin c); [|done].
    by destruct (Login s (atLogin t) c app) as [[resp|msg] app1]. }
  split; [exact Hroute|]. rewrite Hroute. apply Login_protector.
Qed.

(** What one request to the login route does to the protector. *)
Lemma loginRoute_protector s t c app :
  protector (loginRoute s t c app).2 = protector app
  ∨ (∃ u, protector (loginRoute s t c app).2
          = RecordSuccessfulAttempt (RemoteIP c) u (protector app))
  ∨ (∃ u, (IsBlocked (atCheck t) (RemoteIP c) u (protector app)).1 = false
          ∧ protector (loginRoute s t c app).2
            = RecordFailedAttempt (atRecord t) (RemoteIP c) u (protector app)).
Proof.
  unfold Http.loginRoute, BruteForceProtection, TrackLoginAttempt.
  pose proof (Login_protector s (atLogin t) c app) as Hsame.
  destruct (isLogin c); [|by left].
  destruct (bodyUsername c) as [u|].
  - destruct (IsBlocked _ _ u _) as [[] until] eqn:Hblocked; [by left|].
    destruct (Login s (atLogin t) c app) as [[resp|msg] app1]; cbn [snd] in *;
      [|by left].
    destruct (negb _); [|by left].
    destruct (_ =? StatusOK); cbn [snd protector withProtector].
    + right; left. exists u. by rewrite Hsame.
    + destruct (_ =? StatusUnauthorized); cbn [snd protector withProtector];
        [|by left].
      right; right. exists u. by rewrite Hsame, Hblocked.
  - destruct (Login s (atLogin t) c app) as [[resp|msg] app1]; cbn [snd] in *;
      by left.
Qed.

(** X18.  Requests served one at a time never lengthen a block.  The
    clock not going back between the check and the record of a request,
    every record the request leaves in the protector has the end of block
    it had before, or none, or a block of the first length that starts
    at the record: 30 seconds for an account, 60 for an address.  The
    code that doubles a block runs only for a failure recorded while the
    block is on, which the check of the same request has excluded. *)
Theorem one_request_sets_first_length_blocks
    (s : Service.authService) (t : Clock) (c : Ctx) (app : App) :
  atCheck t ≤ atRecord t →
  let b := protector app in
  let b' := protector (loginRoute s t c app).2 in
  (∀ k a', attempts b' !! k = Some a' →
     BlockedUntil a' = atRecord t + 30 * Second
     ∨ BlockedUntil a' = zeroTime
     ∨ ∃ a, attempts b !! k = Some a ∧ BlockedUntil a' = BlockedUntil a)
  ∧ (∀ k a', ipAttempts b' !! k = Some a' →
       BlockedUntil a' = atRecord t + 60 * Second
       ∨ BlockedUntil a' = zeroTime
       ∨ ∃ a, ipAttempts b !! k = Some a ∧ BlockedUntil a' = BlockedUntil a).
Proof.
  intros Hclock b b'. subst b b'.
  destruct (loginRoute_protector s t c app) as [->|[[u ->]|(u & Hfree & ->)]].
  - split; intros k a' Hk; right; right; by exists a'.
  - unfold RecordSuccessfulAttempt. cbn [attempts ipAttempts].
    split; intros k a' Hk; right; right; exists a'; [|done].
    by apply lookup_delete_Some in Hk as [_ Hk].
  - apply IsBlocked_false in Hfree as (_ & Hacc & Hip).
    rewrite RecordFailedAttempt_strike. cbn [attempts ipAttempts].
    split; intros k a' Hk.
    + destruct (decide (accountKey (RemoteIP c) u = k)) as [<-|Hne];
        [|rewrite lookup_insert_ne in Hk by done; right; right; by exists a'].
      rewrite lookup_insert_eq in Hk. injection Hk as <-.
      destruct (attempts (protector app) !! accountKey (RemoteIP c) u) as [a|] eqn:Ha;
        cbn [default from_option id].
      * pose proof (blockedIn_None_inv _ _ _ _ Hacc Ha) as Hover.
        destruct (strike_after_block maxFailedAttempts initialBlockDuration
                    (atRecord t) a ltac:(lia)) as [->| ->];
          [by left|right; right; by exists a].
      * rewrite strike_fresh by done. right; by left.
    + destruct (decide (RemoteIP c = k)) as [<-|Hne];
        [|rewrite lookup_insert_ne in Hk by done; right; right; by exists a'].
      rewrite lookup_insert_eq in Hk. injection Hk as <-.
      destruct (ipAttempts (protector app) !! RemoteIP c) as [a|] eqn:Ha;
        cbn [default from_option id].
      * pose proof (blockedIn_None_inv _ _ _ _ Hip Ha) as Hover.
        destruct (strike_after_block (maxFailedAttempts * 2) (initialBlockDuration * 2)
                    (atRecord t) a ltac:(lia)) as [->| ->];
          [by left|right; right; by exists a].
      * rewrite strike_fresh by done. right; by left.
Qed.

Lemma logins_snoc s reqs req app :
  logins s (reqs ++ [req]) app = (loginRoute s req.1 req.2 (logins s reqs app)).2.
Proof. unfold Http.logins. by rewrite foldl_snoc. Qed.

(** Refused logins from one address from which the middlewares read one
    username, served from a clean protector, are counted one by one as
    long as they are at most five. *)
Lemma refused_logins_accumulate s ip u app :
  protector app = GetBruteForceProtector → u ≠ EmptyString →
  ∀ reqs : list (Clock * Ctx),
    (length reqs ≤ 5)%nat →
    Forall (λ req, refused IDKey HMAC SigningString s (jwtManager app) ip u req
                   ∧ 0 ≤ atCheck req.1) reqs →
    protector (logins s reqs app)
    = failures ip (sameUser u (map (λ req, atRecord req.1) reqs)) GetBruteForceProtector
    ∧ jwtManager (logins s reqs app) = jwtManager app.
Proof.
  intros Hclean Hu reqs.
  induction reqs as [|req reqs IH] using rev_ind; intros Hlen Hreqs; [done|].
  rewrite length_app in Hlen. cbn [length] in Hlen.
  apply Forall_app in Hreqs as [Hreqs Hreq].
  apply Forall_singleton in Hreq
    as [(Hlogin & Hip & Hbody & v & p & e & Hparsed & Hv & Hp & He) Hcheck].
  destruct (IH ltac:(lia) Hreqs) as [IHb IHm].
  rewrite logins_snoc.
  rewrite <- IHm, <- Hip in He.
  assert ((IsBlocked (atCheck req.1) (RemoteIP req.2) u
             (protector (logins s reqs app))).1 = false) as Hfree.
  { rewrite IHb, Hip.
    rewrite below_threshold_not_blocked; [done| |done].
    rewrite length_map. lia. }
  rewrite (loginRoute_refused s req.1 req.2 _ u v p e Hlogin Hbody Hu Hparsed Hv Hp
             Hfree He).
  cbn [snd protector jwtManager]. split; [|done].
  rewrite IHb. rewrite map_app. cbn [map]. unfold sameUser. rewrite map_app. cbn [map].
  rewrite failures_snoc. cbn [fst snd]. by rewrite Hip.
Qed.

(** X19.  Five refused logins from one address, from whose bodies the
    middlewares have read one username (the controller may have parsed
    another from them), served from a clean protector,
    block that address and username for 30 seconds from the record of the
    fifth: a sixth request in that time from whose body the middlewares
    read that username is answered 429 with the time remaining, whatever
    else it carries, and nothing else happens; the login service is not
    called, so no password is verified and no message is handed to
    Telegram.  (A request from whose body they read no username is not
    held back: see the theorem before.) *)
Theorem five_refused_logins_block_the_sixth
    (s : Service.authService) (app : App) (ip username : string)
    (reqs : list (Clock * Ctx)) (req5 : Clock * Ctx) :
  protector app = GetBruteForceProtector → username ≠ EmptyString →
  length reqs = 4%nat →
  Forall (λ req, refused IDKey HMAC SigningString s (jwtManager app) ip username req
                 ∧ 0 ≤ atCheck req.1) (reqs ++ [req5]) →
  0 ≤ atRecord req5.1 →
  let app5 := logins s (reqs ++ [req5]) app in
  let until := atRecord req5.1 + 30 * Second in
  ∀ (t : Clock) (c : Ctx),
    isLogin c = true → RemoteIP c = ip → bodyUsername c = Some username →
    atRecord req5.1 ≤ atCheck t < until →
    loginRoute s t c app5
    = (Return {| StatusCode := 429;
                 Payload :=
                   BlockedBody "Too many failed login attempts, please try again later"
                     (Sub until (atReply t)) |}, app5).
Proof.
  intros Hclean Hu Hlen Hreqs Ht5 app5 until t c Hlogin Hip Hbody Hcheck.
  apply (loginRoute_blocked s t c app5 username until); [done|done|].
  destruct (refused_logins_accumulate s ip username app Hclean Hu (reqs ++ [req5]))
    as [Hb _]; [rewrite length_app; cbn; lia|done|].
  unfold app5. rewrite Hb, Hip. rewrite map_app. cbn [map].
  apply fifth_failure_blocks; [by rewrite length_map|done|done].
Qed.

(** *** The admin routes *)

Local Abbreviation Protected := (Http.Protected HMAC parse).
Local Abbreviation adminRoute := (Http.adminRoute HMAC parse).
Local Abbreviation UpdatePassword := (Http.UpdatePassword IDKey).

(** The locals [Protected] sets from the claims of a token. *)
Local Abbreviation localsOf claims :=
  {| user_id := Some (JWT.UserID claims);
     username := Some (JWT.Username claims);
     is_admin := Some (JWT.IsAdmin claims) |}.

Lemma Protected_bearer now c Next app raw m :
  Authorization c = "Bearer " +:+ raw → jwtManager app = Some m →
  Protected now c Next app
  = match JWT.VerifyToken HMAC now (parse raw) m with
    | Ok claims => Next (localsOf claims) app
    | Err _ =>
        if (10 <=? String.length raw)%nat
        then (Return {| StatusCode := 401;
                        Payload := ErrorBody "Invalid or expired token" |}, app)
        else (Panics "slice bounds out of range", app)
    | Panic msg => (Panics msg, app)
    end.
Proof.
  intros Hheader Hm. unfold Http.Protected. rewrite Hheader, Hm.
  change (String.eqb ("Bearer " +:+ raw) EmptyString) with false.
  rewrite HasPrefix_append, TrimPrefix_append. cbn [negb].
  destruct (JWT.VerifyToken HMAC now (parse raw) m); [done| |done].
  unfold sliceTo. by destruct (10 <=? String.length raw)%nat.
Qed.

(** The ways through an admin route: the handler runs on the locals of
    the claims of a verified admin token; or the route answers by itself,
    whatever the handler, and leaves the state as it is. *)
Lemma adminRoute_cases now c h app :
  (∃ raw m claims,
     Authorization c = "Bearer " +:+ raw ∧ jwtManager app = Some m
     ∧ JWT.VerifyToken HMAC now (parse raw) m = Ok claims
     ∧ JWT.IsAdmin claims = true
     ∧ adminRoute now c h app = h (localsOf claims) app)
  ∨ (∃ r, (∀ h', adminRoute now c h' app = (r, app))
          ∧ ∀ resp, r = Return resp → StatusCode resp = 401 ∨ StatusCode resp = 403).
Proof.
  unfold Http.adminRoute.
  destruct (String.eqb (Authorization c) EmptyString) eqn:Hempty.
  { right. eexists. split; [intros h'; unfold Http.Protected; by rewrite Hempty|].
    intros resp [= <-]. by left. }
  destruct (HasPrefix (Authorization c) "Bearer ") eqn:Hprefix.
  2:{ right. eexists.
      split; [intros h'; unfold Http.Protected; by rewrite Hempty, Hprefix|].
      intros resp [= <-]. by left. }
  apply HasPrefix_inv in Hprefix.
  destruct (jwtManager app) as [m|] eqn:Hm.
  2:{ right. eexists.
      split; [intros h'; unfold Http.Protected;
              rewrite Hempty, Hprefix, HasPrefix_append, Hm; reflexivity|].
      by intros resp [=]. }
  destruct (JWT.VerifyToken HMAC now
              (parse (sliceFrom (Authorization c) (String.length "Bearer "))) m)
    as [claims|err|msg] eqn:Hverify.
  - destruct (JWT.IsAdmin claims) eqn:Hadmin.
    + left. exists (sliceFrom (Authorization c) (String.length "Bearer ")), m, claims.
      split; [done|]. split; [done|]. split; [done|]. split; [done|].
      rewrite (Protected_bearer _ _ _ _ _ _ Hprefix Hm), Hverify.
      unfold AdminOnly. cbn [is_admin]. by rewrite Hadmin.
    + right. eexists. split.
      * intros h'. rewrite (Protected_bearer _ _ _ _ _ _ Hprefix Hm), Hverify.
        unfold AdminOnly. cbn [is_admin]. rewrite Hadmin. reflexivity.
      * intros resp [= <-]. by right.
  - right.
    destruct (10 <=? String.length (sliceFrom (Authorization c) (String.length "Bearer ")))%nat
      eqn:Hlen; eexists; (split;
        [intros h'; rewrite (Protected_bearer _ _ _ _ _ _ Hprefix Hm), Hverify, Hlen;
         reflexivity|]).
    + intros resp [= <-]. by left.
    + by intros resp [=].
  - right. eexists. split.
    + intros h'. rewrite (Protected_bearer _ _ _ _ _ _ Hprefix Hm), Hverify. reflexivity.
    + by intros resp [=].
Qed.

(** X20.  The handler of an admin route runs only for a request whose
    Authorization header is "Bearer " followed by a token that
    [VerifyToken] accepts with the admin flag set, and it runs on the
    user id, the username and the flag of the claims; every other request
    is answered by the two middlewares, with 401 or 403 or a panic, the
    same whatever the handler, and the state of the process is left as it
    was. *)
Theorem admin_route_needs_a_verified_admin_token
    (now : Time) (c : Ctx) (h : Locals → Handler) (app : App) :
  (∃ raw m claims,
     Authorization c = "Bearer " +:+ raw ∧ jwtManager app = Some m
     ∧ JWT.VerifyToken HMAC now (parse raw) m = Ok claims
     ∧ JWT.IsAdmin claims = true
     ∧ adminRoute now c h app
       = h {| user_id := Some (JWT.UserID claims);
              username := Some (JWT.Username claims);
              is_admin := Some true |} app)
  ∨ (∃ r, (∀ h', adminRoute now c h' app = (r, app))
          ∧ ∀ resp, r = Return resp → StatusCode resp = 401 ∨ StatusCode resp = 403).
Proof.
  destruct (adminRoute_cases now c h app)
    as [(raw & m & claims & Hheader & Hm & Hverify & Hadmin & Hrun)|Hself];
    [left|by right].
  exists raw, m, claims. rewrite Hadmin in Hrun. by eauto 10.
Qed.

(** X21.  [Protected] panics on a short token that does not verify: the
    warning it logs takes the first ten bytes of the token, so a refused
    token of fewer than ten bytes, the empty one included, ends the
    handler with a panic and not with the 401 that a refused token of
    ten bytes or more gets. *)
Theorem Protected_panics_on_short_refused_token
    (now : Time) (c : Ctx) (Next : Locals → Handler) (app : App)
    (raw err : string) (m : JWT.JWTManager) :
  Authorization c = "Bearer " +:+ raw → jwtManager app = Some m →
  JWT.VerifyToken HMAC now (parse raw) m = Err err →
  ((String.length raw < 10)%nat →
     Protected now c Next app = (Panics "slice bounds out of range", app))
  ∧ ((10 ≤ String.length raw)%nat →
       Protected now c Next app
       = (Return {| StatusCode := 401;
                    Payload := ErrorBody "Invalid or expired token" |}, app)).
Proof.
  intros Hheader Hm Hverify.
  rewrite (Protected_bearer _ _ _ _ _ _ Hheader Hm), Hverify.
  split; intros Hlen.
  - by destruct (Nat.leb_spec 10 (String.length raw)); [lia|].
  - by destruct (Nat.leb_spec 10 (String.length raw)); [|lia].
Qed.

(** What a login that succeeds returns and leaves. *)
Lemma serviceLogin_Ok s now jwtManager loginUsername password ip userAgent resp :
  Service.returned (serviceLogin s now jwtManager loginUsername password ip userAgent)
    = Ok resp →
  let m := Service.ensureManager now (Service.cfg s) jwtManager in
  ∃ user,
    Service.userRepo s loginUsername = Ok user
    ∧ Util.VerifyPassword IDKey password (Service.Password user) = Ok true
    ∧ Service.manager (serviceLogin s now jwtManager loginUsername password ip userAgent)
      = Some m
    ∧ Service.ResponseUser resp = user
    ∧ Service.AccessToken resp
      = JWT.Compact
          (JWT.signed HMAC SigningString JWT.SigningMethodHS256
             (JWT.newClaims now (JWT.JWTExpiration (JWT.config m))
                (Service.ID user) (Service.Username user) (Service.IsAdmin user))
             (JWT.currentSecret m)).
Proof.
  unfold Service.Login.
  destruct (Service.userRepo s loginUsername) as [user|err|msg]; [|done..].
  destruct (Util.VerifyPassword IDKey password (Service.Password user))
    as [[]|err|msg] eqn:Hverify; [|done..].
  cbn. intros [= <-]. by exists user.
Qed.

(** X22.  From the login to the admin routes.  A login that returns a
    response has found the user and verified the password as true; and
    the access token of the response, sent back as a Bearer token while
    the manager is the one the login left and before the token expires,
    takes the request through [Protected] with the id and the name of
    that user in the locals, and through [AdminOnly] exactly when the user
    is an admin. *)
Theorem login_token_opens_the_admin_routes
    (s : Service.authService) (now : Time) (jwtManager0 : option JWT.JWTManager)
    (loginUsername password ip userAgent : string) (resp : Service.LoginResponse)
    (now' : Time) (c : Ctx) (raw : string) (h : Locals → Handler) (app : App) :
  let out := serviceLogin s now jwtManager0 loginUsername password ip userAgent in
  let m := Service.ensureManager now (Service.cfg s) jwtManager0 in
  let lifetime := JWT.JWTExpiration (JWT.config m) in
  let user := Service.ResponseUser resp in
  Service.returned out = Ok resp →
  jwtManager app = Service.manager out →
  Authorization c = "Bearer " +:+ raw →
  parse raw = Service.AccessToken resp →
  now ≤ now' < (now + lifetime) - (now + lifetime) mod Second →
  Service.userRepo s loginUsername = Ok user
  ∧ Util.VerifyPassword IDKey password (Service.Password user) = Ok true
  ∧ adminRoute now' c h app
    = if Service.IsAdmin user
      then h {| user_id := Some (Service.ID user);
                username := Some (Service.Username user);
                is_admin := Some true |} app
      else (Return {| StatusCode := 403; Payload := ErrorBody "Access denied" |}, app).
Proof.
  intros out m lifetime user Hresp Happ Hheader Hparse Hwindow.
  destruct (serviceLogin_Ok _ _ _ _ _ _ _ _ Hresp)
    as (user' & Hrepo & Hverify & Hm & Huser & Htoken).
  fold out m in Hm, Htoken. fold user in Huser. subst user'.
  split; [done|]. split; [done|].
  unfold Http.adminRoute.
  rewrite (Protected_bearer now' c _ app raw m Hheader) by (by rewrite Happ, Hm).
  rewrite Hparse, Htoken.
  rewrite (JWTFacts.VerifyToken_current HMAC now').
  - unfold AdminOnly. cbn [is_admin JWT.signed JWT.Claims JWT.newClaims JWT.IsAdmin
                           JWT.UserID JWT.Username].
    by destruct (Service.IsAdmin user).
  - apply JWTFacts.ParseWithClaims_signing_key.
    apply JWTFacts.Validate_newClaims; fold lifetime; lia.
Qed.

(** X23.  A password change through the admin route writes to the
    repository only on behalf of the bearer of a verified admin token,
    for the user identifier of its claims and no other, and only when the
    current password of the request verifies against the stored hash of
    that user; what it writes is the hash [HashPassword] makes of the new
    password of the request. *)
Theorem password_change_needs_token_and_current_password
    (now : Time) (c : Ctx) (userRepo : Repository.UserRepository) (rand : drawn)
    (app : App) :
  let app' := (adminRoute now c (UpdatePassword userRepo rand c) app).2 in
  writes app' = writes app
  ∨ ∃ raw m claims user currentPassword newPassword hashedPassword,
      Authorization c = "Bearer " +:+ raw ∧ jwtManager app = Some m
      ∧ JWT.VerifyToken HMAC now (parse raw) m = Ok claims
      ∧ JWT.IsAdmin claims = true
      ∧ bodyPasswords c = Some (currentPassword, newPassword)
      ∧ Repository.GetByID userRepo (JWT.UserID claims) = Ok user
      ∧ Util.VerifyPassword IDKey currentPassword (Service.Password user) = Ok true
      ∧ Util.HashPassword IDKey rand newPassword = Ok hashedPassword
      ∧ writes app' = writes app ++ [(JWT.UserID claims, hashedPassword)].
Proof.
  cbn zeta.
  destruct (adminRoute_cases now c (UpdatePassword userRepo rand c) app)
    as [(raw & m & claims & Hheader & Hm & Hverify & Hadmin & ->)|(r & -> & _)];
    [|by left].
  unfold Http.UpdatePassword. cbn [user_id].
  destruct (bodyPasswords c) as [[currentPassword newPassword]|] eqn:Hbody; [|by left].
  destruct (_ || _); [by left|].
  unfold Profile.UpdatePassword.
  destruct (Repository.GetByID userRepo (JWT.UserID claims)) as [user|err|msg] eqn:Huser;
    cbn [Profile.written Profile.updated snd writes];
    [|left; by rewrite app_nil_r..].
  destruct (Util.VerifyPassword IDKey currentPassword (Service.Password user))
    as [[]|err|msg] eqn:Hcurrent;
    cbn [negb Profile.written Profile.updated snd writes];
    [|left; by rewrite app_nil_r..].
  destruct (Util.HashPassword IDKey rand newPassword) as [hashedPassword|err|msg]
    eqn:Hhash; cbn [Profile.written Profile.updated snd writes];
    [|left; by rewrite app_nil_r..].
  right. exists raw, m, claims, user, currentPassword, newPassword, hashedPassword.
  do 8 (split; [done|]).
  by destruct (Repository.UpdatePassword userRepo _ _).
Qed.

(** X24.  The token functions without rotation and the manager agree
    until the first rotation.  For a manager that holds the secret of the
    configuration and no previous secret, the two [GenerateToken] make the
    same token, the two [GenerateRefreshToken] too, and the two
    [Protected] treat every request alike whose Bearer token has ten
    bytes or more (on a shorter one that is refused, the older answers
    401 where the newer panics). *)
Theorem static_and_rotating_handlers_agree_before_rotation
    (cfg : JWT.Config) (m : JWT.JWTManager) :
  JWT.config m = cfg → JWT.currentSecret m = bytes (JWT.JWTSecret cfg) →
  JWT.previousSecret m = None →
  (∀ now userID name isAdmin,
     StaticAuth.GenerateToken HMAC SigningString now userID name isAdmin cfg
     = JWT.GenerateToken HMAC SigningString now userID name isAdmin m
     ∧ StaticAuth.GenerateRefreshToken HMAC SigningString now userID name isAdmin cfg
       = JWT.GenerateRefreshToken HMAC SigningString now userID name isAdmin m)
  ∧ (∀ now c Next app,
       jwtManager app = Some m →
       (10 ≤ String.length (TrimPrefix (Authorization c) "Bearer "))%nat →
       StaticAuth.Protected HMAC parse cfg now c Next app = Protected now c Next app)
  ∧ (∀ now c Next app raw err,
       jwtManager app = Some m → Authorization c = "Bearer " +:+ raw →
       JWT.VerifyToken HMAC now (parse raw) m = Err err →
       StaticAuth.Protected HMAC parse cfg now c Next app
       = (Return {| StatusCode := 401;
                    Payload := ErrorBody "Invalid or expired token" |}, app)).
Proof.
  intros Hcfg Hcur Hprev. split; [|split].
  - intros now userID name isAdmin.
    unfold StaticAuth.GenerateToken, StaticAuth.GenerateRefreshToken,
      JWT.GenerateToken, JWT.GenerateRefreshToken.
    by rewrite Hcfg, Hcur.
  - intros now c Next app Hm Hlen.
    unfold StaticAuth.Protected, Http.Protected. rewrite Hm.
    destruct (String.eqb _ _); [done|]. destruct (negb _); [done|].
    unfold JWT.VerifyToken. rewrite Hcur, Hprev.
    destruct (JWT.ParseWithClaims _ _ _ _) as [token|err|msg]; [done| |done].
    unfold sliceTo. by destruct (Nat.leb_spec 10 (String.length
                                   (TrimPrefix (Authorization c) "Bearer "))); [|lia].
  - intros now c Next app raw err Hm Hheader Hverify.
    unfold StaticAuth.Protected. rewrite Hheader.
    change (String.eqb ("Bearer " +:+ raw) EmptyString) with false.
    rewrite HasPrefix_append, TrimPrefix_append. cbn [negb].
    unfold JWT.VerifyToken in Hverify. rewrite Hcur, Hprev in Hverify.
    by destruct (JWT.ParseWithClaims _ _ _ _) as [token|err'|msg].
Qed.

End WithLibraries.

Lemma login_route_answers_and_counts_witness :
  Http.loginRoute Util.toyIDKey JWT.toyHMAC JWT.toySigningString (Service.toyService false)
    (mkClock 1 1 2 3) (toyLogin "1.2.3.4" "ghost" "hunter2") toyApp
  = (Return {| StatusCode := 401; Payload := ErrorBody "Invalid credentials" |},
     {| protector := RecordFailedAttempt 3 "1.2.3.4" "ghost" GetBruteForceProtector;
        jwtManager := jwtManager toyApp;
        outbox := [Service.LoginFailure "ghost" "hunter2" "1.2.3.4" "curl"
                     "User not found"];
        writes := [] |}).
Proof.
  apply (proj1 (login_route_answers_and_counts Util.toyIDKey JWT.toyHMAC
                  JWT.toySigningString (Service.toyService false) (mkClock 1 1 2 3)
                  (toyLogin "1.2.3.4" "ghost" "hunter2") toyApp "ghost" "hunter2"
                  eq_refl eq_refl ltac:(discriminate) ltac:(discriminate)
                  ltac:(by intros tracked [= <-])) "invalid credentials" eq_refl).
Defined.

Lemma login_without_tracked_username_passes_the_protector_witness :
  let b := failures "1.2.3.4" (sameUser "admin" [1; 2; 3; 4; 5]) GetBruteForceProtector in
  let app := withProtector b toyApp in
  let c := toyLoginCapital "1.2.3.4" "admin" "correct-horse-battery-staple" in
  IsBlocked 6 "1.2.3.4" "admin" b = (true, 5 + 30 * Second)
  ∧ match (Http.loginRoute Util.toyIDKey JWT.toyHMAC JWT.toySigningString
             (Service.toyService false) (mkClock 6 6 7 8) c app).1 with
    | Return resp => StatusCode resp
    | Panics _ => 0
    end = 200.
Proof.
  intros b app c. split; [vm_compute; reflexivity|].
  rewrite (proj1 (login_without_tracked_username_passes_the_protector Util.toyIDKey
                    JWT.toyHMAC JWT.toySigningString (Service.toyService false)
                    (mkClock 6 6 7 8) c app eq_refl)).
  vm_compute. reflexivity.
Defined.

Lemma one_request_sets_first_length_blocks_witness :
  let b := failures "1.2.3.4" (sameUser "admin" [1; 2; 3; 4]) GetBruteForceProtector in
  let app := withProtector b toyApp in
  let a' := mkLoginAttempt "1.2.3.4" "admin" 5 7 (7 + 30 * Second) in
  attempts
    (protector
       (Http.loginRoute Util.toyIDKey JWT.toyHMAC JWT.toySigningString
          (Service.toyService false) (mkClock 5 5 6 7)
          (toyLogin "1.2.3.4" "admin" "hunter2") app).2) !! "1.2.3.4:admin"
  = Some a'
  ∧ (BlockedUntil a' = 7 + 30 * Second
     ∨ BlockedUntil a' = zeroTime
     ∨ ∃ a, attempts b !! "1.2.3.4:admin" = Some a ∧ BlockedUntil a' = BlockedUntil a).
Proof.
  intros b app a'.
  assert (attempts
            (protector
               (Http.loginRoute Util.toyIDKey JWT.toyHMAC JWT.toySigningString
                  (Service.toyService false) (mkClock 5 5 6 7)
                  (toyLogin "1.2.3.4" "admin" "hunter2") app).2) !! "1.2.3.4:admin"
          = Some a') as Ha' by (vm_compute; reflexivity).
  split; [exact Ha'|].
  exact (proj1 (one_request_sets_first_length_blocks Util.toyIDKey JWT.toyHMAC
                  JWT.toySigningString (Service.toyService false)
                  (mkClock 5 5 6 7) (toyLogin "1.2.3.4" "admin" "hunter2") app
                  ltac:(cbn; lia)) "1.2.3.4:admin" a' Ha').
Defined.

Lemma five_refused_logins_block_the_sixth_witness :
  let wrong t := (mkClock t t t t, toyLogin "1.2.3.4" "admin" "hunter2") in
  let app5 :=
    Http.logins Util.toyIDKey JWT.toyHMAC JWT.toySigningString (Service.toyService false)
      ([wrong 1; wrong 2; wrong 3; wrong 4] ++ [wrong 5]) toyApp in
  Http.loginRoute Util.toyIDKey JWT.toyHMAC JWT.toySigningString
    (Service.toyService false) (mkClock 6 7 8 9)
    (toyLogin "1.2.3.4" "admin" "correct-horse-battery-staple") app5
  = (Return {| StatusCode := 429;
               Payload :=
                 BlockedBody "Too many failed login attempts, please try again later"
                   (Sub (5 + 30 * Second) 7) |}, app5).
Proof.
  intros wrong app5.
  apply (five_refused_logins_block_the_sixth Util.toyIDKey JWT.toyHMAC
           JWT.toySigningString (Service.toyService false) toyApp "1.2.3.4" "admin"
           [wrong 1; wrong 2; wrong 3; wrong 4] (wrong 5)).
  - reflexivity.
  - discriminate.
  - reflexivity.
  - repeat (apply Forall_cons; split;
            [split; [|cbn; lia];
             split; [reflexivity|]; split; [reflexivity|]; split; [reflexivity|];
             exists "admin", "hunter2", "invalid credentials";
             split; [reflexivity|]; split; [discriminate|]; split; [discriminate|];
             vm_compute; reflexivity|]).
    by apply Forall_nil.
  - cbn. lia.
  - reflexivity.
  - reflexivity.
  - reflexivity.
  - cbn. unfold Second. lia.
Defined.

Lemma Protected_panics_on_short_refused_token_witness :
  Http.Protected JWT.toyHMAC toyParse 0 (toyBearer "abc") toyHandler toyApp
  = (Panics "slice bounds out of range", toyApp).
Proof.
  apply (proj1 (Protected_panics_on_short_refused_token JWT.toyHMAC toyParse 0
                  (toyBearer "abc") toyHandler toyApp "abc" "token is malformed"
                  (JWT.NewJWTManager 0 JWT.toyConfig) eq_refl eq_refl eq_refl)).
  cbn. lia.
Defined.

Lemma login_token_opens_the_admin_routes_witness :
  let login :=
    Service.Login Util.toyIDKey JWT.toyHMAC JWT.toySigningString
      (Service.toyService false) (5 * Second) None
      "admin" "correct-horse-battery-staple" "1.2.3.4" "curl" in
  let claims := JWT.newClaims (5 * Second) (Hour * 24) "42" "admin" true in
  let token := JWT.Compact (JWT.signed JWT.toyHMAC JWT.toySigningString
                              JWT.SigningMethodHS256 claims (bytes "your-secret-key")) in
  let app := {| protector := GetBruteForceProtector;
                jwtManager := Service.manager login;
                outbox := []; writes := [] |} in
  Http.adminRoute JWT.toyHMAC (toyParseAs token) (Hour * 3) (toyBearer "token")
    toyHandler app
  = (Return {| StatusCode := 200; Payload := MessageBody "done" |}, app).
Proof.
  intros login claims token app.
  assert (∃ resp, Service.returned login = Ok resp ∧ Service.AccessToken resp = token)
    as (resp & Hresp & Htoken) by (eexists; split; vm_compute; reflexivity).
  assert (Service.IsAdmin (Service.ResponseUser resp) = true) as Hadmin.
  { assert (Ok resp = Service.returned login) as H by done.
    vm_compute in H. by injection H as ->. }
  destruct (login_token_opens_the_admin_routes Util.toyIDKey JWT.toyHMAC
              JWT.toySigningString (toyParseAs token) (Service.toyService false)
              (5 * Second) None "admin" "correct-horse-battery-staple" "1.2.3.4" "curl"
              resp (Hour * 3) (toyBearer "token") "token" toyHandler app
              Hresp eq_refl eq_refl) as (_ & _ & Hroute).
  - by rewrite Htoken.
  - vm_compute. split; [discriminate|reflexivity].
  - rewrite Hroute, Hadmin. reflexivity.
Defined.

Lemma static_and_rotating_handlers_agree_before_rotation_witness :
  StaticAuth.Protected JWT.toyHMAC toyParse JWT.toyConfig 0 (toyBearer "abc") toyHandler
    toyApp
  = (Return {| StatusCode := 401; Payload := ErrorBody "Invalid or expired token" |},
     toyApp).
Proof.
  apply (proj2 (proj2 (static_and_rotating_handlers_agree_before_rotation
                         JWT.toyHMAC JWT.toySigningString toyParse JWT.toyConfig
                         (JWT.NewJWTManager 0 JWT.toyConfig) eq_refl eq_refl eq_refl))
           0 (toyBearer "abc") toyHandler toyApp "abc" "token is malformed"
           eq_refl eq_refl eq_refl).
Defined.

End HttpFacts.
